(** * MoniGo: sampling profiler, health scorer and time-series query layer

    A shallow embedding of

    - [core/function-metrics.go]: the sampling profiler
      ([SetSamplingRate], [TraceFunction], [TraceFunctionWithArgs],
      [TraceFunctionWithReturns], [FunctionTraceDetails],
      [executeFunctionWithProfiling]);
    - the service-statistics file of package [core]
      ([CalculateOverallLoad], [getStatusMessage], [GetServiceHealth]);
    - [timeseries/storeMetrics.go] and [api/api.go]: the write path
      [StoreServiceMetrics] and the read path
      [GetServiceMetricsFromStorage].

    Go's [uint64] and [int] are integers of [Z] with the wrap-around written
    out, [float64] is [spec_float] at precision 53 and maximal exponent 1024,
    Go maps are [gmap]s, pointers are locations of an explicit heap. *)

From Stdlib Require Import ZArith Lia List Bool Ascii String SpecFloat.
From Stdlib Require Import Sorting.Sorted Sorting.Permutation.
From stdpp Require Import gmap strings list fin_maps.

Local Open Scope string_scope.
Local Open Scope list_scope.
Local Open Scope Z_scope.

(** ** Machine integers *)

Definition uint64_mod : Z := 2 ^ 64.
Definition int64_max : Z := 2 ^ 63 - 1.

(** Conversion to [uint64], and [uint64] arithmetic. *)
Definition to_uint64 (x : Z) : Z := x mod uint64_mod.
Definition uint64_add (x y : Z) : Z := to_uint64 (x + y).
Definition uint64_sub (x y : Z) : Z := to_uint64 (x - y).

(** Conversion to [int] (64 bits, two's complement), and [int] subtraction. *)
Definition to_int64 (x : Z) : Z := (x + 2 ^ 63) mod uint64_mod - 2 ^ 63.
Definition int64_sub (x y : Z) : Z := to_int64 (x - y).

(** ** Go values seen through [reflect] *)

(** A type, by its [String()] rendering. *)
Definition GoType : Type := string.

(** [runtime.FuncForPC(...).Name()] and [reflect.Type] of a function value. *)
Record GoFunc : Type := mkGoFunc {
  funcName : string;
  paramTypes : list GoType;   (* fnType.In(i), i < NumIn() *)
  returnTypes : list GoType   (* fnType.Out(i), i < NumOut() *)
}.

(** An [interface{}] value: the nil interface, a function, or any other
    value with its dynamic type.  [VData] carries a payload so that results
    can be told apart. *)
Inductive GoValue : Type :=
| VNil
| VFunc (f : GoFunc) (ty : GoType)
| VData (ty : GoType) (payload : Z).

(** [reflect.ValueOf(v).Kind() == reflect.Func] *)
Definition isFunc (v : GoValue) : bool :=
  match v with VFunc _ _ => true | _ => false end.

(** The dynamic type; [reflect.ValueOf(nil)] is the zero [reflect.Value],
    on which [Type()] panics. *)
Definition dynType (v : GoValue) : option GoType :=
  match v with
  | VNil => None
  | VFunc _ ty => Some ty
  | VData ty _ => Some ty
  end.

(** What the profiler takes from the Go runtime and its own package:
    the base path, [filepath.Join], [reflect.Type.AssignableTo] and the
    behaviour of a target function on its arguments. *)
Class Runtime : Type := {
  basePath : string;
  filepath_Join : string -> string -> string;
  AssignableTo : GoType -> GoType -> bool;
  callTarget : GoFunc -> list GoValue -> list GoValue
}.

(** ** models.FunctionMetrics *)

Record FunctionMetrics : Type := mkFunctionMetrics {
  FunctionLastRanAt : Z;          (* time.Time *)
  CPUProfileFilePath : string;
  MemProfileFilePath : string;
  MemoryUsage : Z;                (* uint64 *)
  GoroutineCount : Z;             (* int *)
  ExecutionTime : Z               (* time.Duration *)
}.

(** ** Observable effects *)

Inductive LogMsg : Type :=
| LogNotAFunction
| LogArgCount (expected got : nat)
| LogArgType (index : nat) (expected got : GoType)
| LogCPUProfileFailed.

Inductive Event : Type :=
| EvLog (m : LogMsg)
| EvMkdirAll (path : string)
| EvStartCPUProfile (path : string)
| EvStopCPUProfile
| EvWriteHeapProfile (path : string)
| EvInvoke (f : GoFunc) (args : list GoValue).

(** ** Package state *)

Definition loc : Type := positive.

Record State : Type := mkState {
  samplingRate : Z;                       (* atomic.Int64 *)
  callCounters : gmap string Z;           (* map[string]uint64 *)
  functionMetrics : gmap string loc;      (* map[string]*models.FunctionMetrics *)
  heap : gmap loc FunctionMetrics;        (* the records the pointers refer to *)
  events : list Event                     (* effects, oldest first *)
}.

(** The state after package initialisation: [init] stores 100. *)
Definition initState : State :=
  {| samplingRate := 100; callCounters := ∅; functionMetrics := ∅;
     heap := ∅; events := [] |}.

Definition emit (e : Event) (st : State) : State :=
  {| samplingRate := samplingRate st; callCounters := callCounters st;
     functionMetrics := functionMetrics st; heap := heap st;
     events := events st ++ [e] |}.

Definition setCounters (c : gmap string Z) (st : State) : State :=
  {| samplingRate := samplingRate st; callCounters := c;
     functionMetrics := functionMetrics st; heap := heap st;
     events := events st |}.

Definition setHeap (h : gmap loc FunctionMetrics) (st : State) : State :=
  {| samplingRate := samplingRate st; callCounters := callCounters st;
     functionMetrics := functionMetrics st; heap := h;
     events := events st |}.

Definition setTable (t : gmap string loc) (h : gmap loc FunctionMetrics)
    (st : State) : State :=
  {| samplingRate := samplingRate st; callCounters := callCounters st;
     functionMetrics := t; heap := h; events := events st |}.

(** The record an identity maps to, through its pointer. *)
Definition lookupMetrics (st : State) (name : string) : option FunctionMetrics :=
  match functionMetrics st !! name with
  | Some l => heap st !! l
  | None => None
  end.

(** ** SetSamplingRate *)

Definition SetSamplingRate (rate : Z) (st : State) : State :=
  let rate := if rate <? 1 then 1 else rate in
  {| samplingRate := rate; callCounters := callCounters st;
     functionMetrics := functionMetrics st; heap := heap st;
     events := events st |}.

(** ** executeFunctionWithProfiling *)

(** What one invocation reads from its environment. *)
Record Env : Type := mkEnv {
  goroutinesBefore : Z;   (* runtime.NumGoroutine() at entry *)
  goroutinesAfter : Z;    (* runtime.NumGoroutine() after fn() *)
  allocBefore : Z;        (* memStatsBefore.Alloc *)
  allocAfter : Z;         (* memStatsAfter.Alloc *)
  startTime : Z;          (* time.Now() *)
  elapsedTime : Z;        (* time.Since(start) *)
  cpuProfileFails : bool  (* StartCPUProfile returns an error *)
}.

(** The closure handed to the profiler: a target and its arguments. *)
Record Thunk : Type := mkThunk { target : GoFunc; targetArgs : list GoValue }.

Definition counterOf (c : gmap string Z) (name : string) : Z :=
  default 0 (c !! name).

(** The count the next invocation of [name] takes in state [st]. *)
Definition nextCount (name : string) (st : State) : Z :=
  uint64_add (counterOf (callCounters st) name) 1.

Section Profiler.
Context `{RT : Runtime}.

Definition folderPath : string := basePath +:+ "/profiles".
Definition cpuProfPath (name : string) : string :=
  filepath_Join folderPath (name +:+ "_cpu.prof").
Definition memProfPath (name : string) : string :=
  filepath_Join folderPath (name +:+ "_mem.prof").

(** [callCounters[name]++; count := callCounters[name]] under [countersMu]. *)
Definition bumpCounter (name : string) (st : State) : Z * State :=
  let count := uint64_add (counterOf (callCounters st) name) 1 in
  (count, setCounters (<[name := count]> (callCounters st)) st).

(** [count%uint64(samplingRate.Load()) == 0]; the rate is never below 1
    (see [SetSamplingRate]), so the division is defined. *)
Definition shouldProfileAt (count rate : Z) : bool :=
  count mod to_uint64 rate =? 0.

(** The table update under [mu]. *)
Definition updateMetrics (name : string) (shouldProfile : bool)
    (start elapsed finalGoroutines memoryUsage : Z)
    (cpuProfFilePath memProfFilePath : string) (st : State) : State :=
  match functionMetrics st !! name with
  | Some l =>
      match heap st !! l with
      | Some m =>
          let m1 :=
            {| FunctionLastRanAt := start;
               CPUProfileFilePath := CPUProfileFilePath m;
               MemProfileFilePath := MemProfileFilePath m;
               MemoryUsage := MemoryUsage m;
               GoroutineCount := finalGoroutines;
               ExecutionTime := elapsed |} in
          let m2 :=
            if shouldProfile then
              {| FunctionLastRanAt := FunctionLastRanAt m1;
                 CPUProfileFilePath := cpuProfFilePath;
                 MemProfileFilePath := memProfFilePath;
                 MemoryUsage := memoryUsage;
                 GoroutineCount := GoroutineCount m1;
                 ExecutionTime := ExecutionTime m1 |}
            else m1 in
          setHeap (<[l := m2]> (heap st)) st
      | None => st   (* a dangling pointer: never the case, see [wf] *)
      end
  | None =>
      let l := fresh (dom (heap st)) in
      let m :=
        {| FunctionLastRanAt := start;
           CPUProfileFilePath := cpuProfFilePath;
           MemProfileFilePath := memProfFilePath;
           MemoryUsage := memoryUsage;
           GoroutineCount := finalGoroutines;
           ExecutionTime := elapsed |} in
      setTable (<[name := l]> (functionMetrics st)) (<[l := m]> (heap st)) st
  end.

Definition executeFunctionWithProfiling (name : string) (fn : Thunk)
    (env : Env) (st : State) : State :=
  let '(count, st) := bumpCounter name st in
  let shouldProfile := shouldProfileAt count (samplingRate st) in
  let initialGoroutines := goroutinesBefore env in
  let cpuProfFilePath := if shouldProfile then cpuProfPath name else "" in
  let memProfFilePath := if shouldProfile then memProfPath name else "" in
  let st :=
    if shouldProfile then
      let st := emit (EvMkdirAll folderPath) st in
      let st := emit (EvStartCPUProfile cpuProfFilePath) st in
      if cpuProfileFails env then emit (EvLog LogCPUProfileFailed) st else st
    else st in
  let start := startTime env in
  let st := emit (EvInvoke (target fn) (targetArgs fn)) st in
  let elapsed := elapsedTime env in
  let st :=
    if shouldProfile then
      emit (EvWriteHeapProfile memProfFilePath) (emit EvStopCPUProfile st)
    else st in
  let finalGoroutines := int64_sub (goroutinesAfter env) initialGoroutines in
  let finalGoroutines := if finalGoroutines <? 0 then 0 else finalGoroutines in
  let memoryUsage :=
    if shouldProfile then
      if allocAfter env >=? allocBefore env
      then uint64_sub (allocAfter env) (allocBefore env)
      else 0
    else 0 in
  updateMetrics name shouldProfile start elapsed finalGoroutines memoryUsage
    cpuProfFilePath memProfFilePath st.

End Profiler.

(** ** The trace entry points *)

(** How a call ends: it returns, or it panics. *)
Inductive Outcome (A : Type) : Type :=
| Returned (a : A) (st : State)
| Panicked (st : State).
Arguments Returned {A} a st.
Arguments Panicked {A} st.

Definition stateOf {A : Type} (o : Outcome A) : State :=
  match o with Returned _ st => st | Panicked st => st end.

(** [strings.ReplaceAll(s, "/", "-")] *)
Fixpoint replaceSlashes (s : string) : string :=
  match s with
  | EmptyString => EmptyString
  | String c s' =>
      String (if Ascii.eqb c "/"%char then "-"%char else c) (replaceSlashes s')
  end.

(** [strings.Join(elems, ",")] *)
Fixpoint joinComma (elems : list string) : string :=
  match elems with
  | [] => ""
  | [x] => x
  | x :: rest => x +:+ "," +:+ joinComma rest
  end.

Definition generateFunctionName (f : GoFunc) : string :=
  let baseName := replaceSlashes (funcName f) in
  let baseName :=
    if (0 <? length (paramTypes f))%nat
    then baseName +:+ "(" +:+ joinComma (paramTypes f) +:+ ")"
    else baseName in
  if (0 <? length (returnTypes f))%nat
  then baseName +:+ "->(" +:+ joinComma (returnTypes f) +:+ ")"
  else baseName.

(** The result of the argument loop. *)
Inductive ArgCheck : Type :=
| ArgsOk
| ArgMismatch (index : nat) (expected got : GoType)
| ArgNoType.   (* [argValue.Type()] on the zero [reflect.Value]: a panic *)

Section EntryPoints.
Context `{RT : Runtime}.

(** [for i, arg := range args { ... }], with [i] the index of the head. *)
Fixpoint checkArgs (i : nat) (args : list GoValue) (params : list GoType)
    : ArgCheck :=
  match args, params with
  | arg :: args', expectedType :: params' =>
      match dynType arg with
      | None => ArgNoType
      | Some ty =>
          if AssignableTo ty expectedType
          then checkArgs (S i) args' params'
          else ArgMismatch i expectedType ty
      end
  | _, _ => ArgsOk
  end.

Definition TraceFunction (f : GoFunc) (env : Env) (st : State) : State :=
  let name := replaceSlashes (funcName f) in
  executeFunctionWithProfiling name (mkThunk f []) env st.

Definition TraceFunctionWithArgs (f : GoValue) (args : list GoValue)
    (env : Env) (st : State) : Outcome unit :=
  match f with
  | VFunc fn _ =>
      if negb (length args =? length (paramTypes fn))%nat then
        Returned tt
          (emit (EvLog (LogArgCount (length (paramTypes fn)) (length args))) st)
      else
        match checkArgs 0 args (paramTypes fn) with
        | ArgNoType => Panicked st
        | ArgMismatch i expected got =>
            Returned tt (emit (EvLog (LogArgType i expected got)) st)
        | ArgsOk =>
            let name := generateFunctionName fn in
            Returned tt
              (executeFunctionWithProfiling name (mkThunk fn args) env st)
        end
  | _ => Returned tt (emit (EvLog LogNotAFunction) st)
  end.

(** The result slice is [None] for Go's nil slice. *)
Definition TraceFunctionWithReturns (f : GoValue) (args : list GoValue)
    (env : Env) (st : State) : Outcome (option (list GoValue)) :=
  match f with
  | VFunc fn _ =>
      if negb (length args =? length (paramTypes fn))%nat then
        Returned None
          (emit (EvLog (LogArgCount (length (paramTypes fn)) (length args))) st)
      else
        match checkArgs 0 args (paramTypes fn) with
        | ArgNoType => Panicked st
        | ArgMismatch i expected got =>
            Returned None (emit (EvLog (LogArgType i expected got)) st)
        | ArgsOk =>
            let name := generateFunctionName fn in
            Returned (Some (callTarget fn args))
              (executeFunctionWithProfiling name (mkThunk fn args) env st)
        end
  | _ => Returned None (emit (EvLog LogNotAFunction) st)
  end.

Definition TraceFunctionWithReturn (f : GoValue) (args : list GoValue)
    (env : Env) (st : State) : Outcome GoValue :=
  match TraceFunctionWithReturns f args env st with
  | Returned (Some (r :: _)) st' => Returned r st'
  | Returned _ st' => Returned VNil st'
  | Panicked st' => Panicked st'
  end.

(** A call of one of the entry points. *)
Inductive TraceCall : Type :=
| CallTraceFunction (f : GoFunc)
| CallTraceFunctionWithArgs (f : GoValue) (args : list GoValue)
| CallTraceFunctionWithReturns (f : GoValue) (args : list GoValue)
| CallTraceFunctionWithReturn (f : GoValue) (args : list GoValue).

Definition runCall (c : TraceCall) (env : Env) (st : State) : State :=
  match c with
  | CallTraceFunction f => TraceFunction f env st
  | CallTraceFunctionWithArgs f args => stateOf (TraceFunctionWithArgs f args env st)
  | CallTraceFunctionWithReturns f args =>
      stateOf (TraceFunctionWithReturns f args env st)
  | CallTraceFunctionWithReturn f args =>
      stateOf (TraceFunctionWithReturn f args env st)
  end.

(** The identity a call is counted under, when it passes validation. *)
Definition reflectiveIdentity (f : GoValue) (args : list GoValue)
    : option string :=
  match f with
  | VFunc fn _ =>
      if negb (length args =? length (paramTypes fn))%nat then None
      else match checkArgs 0 args (paramTypes fn) with
           | ArgsOk => Some (generateFunctionName fn)
           | _ => None
           end
  | _ => None
  end.

Definition identityOf (c : TraceCall) : option string :=
  match c with
  | CallTraceFunction f => Some (replaceSlashes (funcName f))
  | CallTraceFunctionWithArgs f args => reflectiveIdentity f args
  | CallTraceFunctionWithReturns f args => reflectiveIdentity f args
  | CallTraceFunctionWithReturn f args => reflectiveIdentity f args
  end.

(** A sequence of calls, each with what it reads from its environment. *)
Fixpoint runCalls (cs : list (TraceCall * Env)) (st : State) : State :=
  match cs with
  | [] => st
  | (c, env) :: cs' => runCalls cs' (runCall c env st)
  end.

End EntryPoints.

(** The number of profiling runs started so far. *)
Definition isStartCPUProfile (e : Event) : bool :=
  match e with EvStartCPUProfile _ => true | _ => false end.

Fixpoint countStarts (es : list Event) : Z :=
  match es with
  | [] => 0
  | e :: es' => (if isStartCPUProfile e then 1 else 0) + countStarts es'
  end.

Definition profilingRuns (st : State) : Z := countStarts (events st).

(** The number of times a target has been invoked so far. *)
Definition isInvoke (e : Event) : bool :=
  match e with EvInvoke _ _ => true | _ => false end.

Fixpoint countInvokes (es : list Event) : Z :=
  match es with
  | [] => 0
  | e :: es' => (if isInvoke e then 1 else 0) + countInvokes es'
  end.

Definition invocations (st : State) : Z := countInvokes (events st).

(** ** Sample inputs *)

(** A runtime in which a type is assignable to itself only, paths are joined
    with a slash and every target returns its first argument. *)
Definition sampleRuntime : Runtime :=
  {| basePath := "/var/monigo";
     filepath_Join := fun dir file => dir +:+ "/" +:+ file;
     AssignableTo := String.eqb;
     callTarget := fun _ args => take 1 args |}.

Definition sampleEnv : Env :=
  {| goroutinesBefore := 8; goroutinesAfter := 6;
     allocBefore := 5000; allocAfter := 4000;
     startTime := 1700000000; elapsedTime := 250;
     cpuProfileFails := false |}.

(** [func work()] of package [github.com/acme/app]. *)
Definition sampleWork : GoFunc :=
  {| funcName := "github.com/acme/app.work"; paramTypes := []; returnTypes := [] |}.



(** Seven calls of [work] through [TraceFunction]. *)
Definition sampleCalls : list (TraceCall * Env) :=
  replicate 7 (CallTraceFunction sampleWork, sampleEnv).

(** ** FunctionTraceDetails *)

(** [copied := *v; result[k] = &copied]: a fresh location holding a copy. *)
Definition copyEntry (k : string) (v : loc)
    (acc : gmap string loc * gmap loc FunctionMetrics)
    : gmap string loc * gmap loc FunctionMetrics :=
  match snd acc !! v with
  | Some m =>
      let copied := fresh (dom (snd acc)) in
      (<[k := copied]> (fst acc), <[copied := m]> (snd acc))
  | None => acc   (* a dangling pointer: never the case, see [wf] *)
  end.

(** The returned map and the state, whose heap now holds the copies too.
    The map is walked in an unspecified order, as Go's [range] does. *)
Definition FunctionTraceDetails (st : State) : gmap string loc * State :=
  let acc := map_fold copyEntry (∅, heap st) (functionMetrics st) in
  (fst acc, setHeap (snd acc) st).

(** What a caller reads through a returned map. *)
Definition readResult (result : gmap string loc) (st : State) (name : string)
    : option FunctionMetrics :=
  match result !! name with
  | Some l => heap st !! l
  | None => None
  end.

(** A caller overwriting the record behind a pointer it holds. *)
Definition clientWrite (l : loc) (m : FunctionMetrics) (st : State) : State :=
  setHeap (<[l := m]> (heap st)) st.

(** ** Reachable states *)

(** The pointers of the table are distinct and none dangles. *)
Definition wf (st : State) : Prop :=
  (forall name l, functionMetrics st !! name = Some l -> is_Some (heap st !! l))
  /\ (forall n1 n2 l, functionMetrics st !! n1 = Some l ->
                      functionMetrics st !! n2 = Some l -> n1 = n2).

(** The locations the table points to. *)
Definition tableLoc (st : State) (l : loc) : Prop :=
  exists name, functionMetrics st !! name = Some l.

Section Reachable.
Context `{RT : Runtime}.

(** The states of a run: calls of the entry points and of
    [SetSamplingRate] and [FunctionTraceDetails] in any order, and callers
    writing to records that are not the table's own. *)
Inductive reachable : State -> Prop :=
| reach_init : reachable initState
| reach_call c env st :
    reachable st -> reachable (runCall c env st)
| reach_rate rate st :
    reachable st -> reachable (SetSamplingRate rate st)
| reach_details st :
    reachable st -> reachable (snd (FunctionTraceDetails st))
| reach_client l m st :
    reachable st -> ~ tableLoc st l -> reachable (clientWrite l m st).
End Reachable.

(** ** The record an invocation writes *)

(** [finalGoroutines], floored at zero. *)
Definition finalGoroutinesOf (env : Env) : Z :=
  let d := int64_sub (goroutinesAfter env) (goroutinesBefore env) in
  if d <? 0 then 0 else d.

(** [memoryUsage]: zero unless the call is profiled and the heap grew. *)
Definition memoryUsageOf (shouldProfile : bool) (env : Env) : Z :=
  if shouldProfile then
    if allocAfter env >=? allocBefore env
    then uint64_sub (allocAfter env) (allocBefore env)
    else 0
  else 0.

(** The record of an identity after an invocation, from the record before
    ([None] on the first invocation). *)
Definition recordAfter `{RT : Runtime} (name : string) (shouldProfile : bool)
    (env : Env) (old : option FunctionMetrics) : FunctionMetrics :=
  match old with
  | Some m =>
      {| FunctionLastRanAt := startTime env;
         CPUProfileFilePath :=
           if shouldProfile then cpuProfPath name else CPUProfileFilePath m;
         MemProfileFilePath :=
           if shouldProfile then memProfPath name else MemProfileFilePath m;
         MemoryUsage :=
           if shouldProfile then memoryUsageOf shouldProfile env else MemoryUsage m;
         GoroutineCount := finalGoroutinesOf env;
         ExecutionTime := elapsedTime env |}
  | None =>
      {| FunctionLastRanAt := startTime env;
         CPUProfileFilePath := if shouldProfile then cpuProfPath name else "";
         MemProfileFilePath := if shouldProfile then memProfPath name else "";
         MemoryUsage := memoryUsageOf shouldProfile env;
         GoroutineCount := finalGoroutinesOf env;
         ExecutionTime := elapsedTime env |}
  end.

(** A call during which the heap grows by 1000 bytes. *)
Definition sampleEnvGrow : Env :=
  {| goroutinesBefore := 8; goroutinesAfter := 9;
     allocBefore := 4000; allocAfter := 5000;
     startTime := 1700000100; elapsedTime := 300;
     cpuProfileFails := false |}.

(** Rate 3 and three calls of [work]: the third was profiled. *)
Definition sampleState : State :=
  runCalls (RT := sampleRuntime)
    (replicate 3 (CallTraceFunction sampleWork, sampleEnvGrow))
    (SetSamplingRate 3 initState).

(** [func scale(p *int, n int) int] of package [main], called with a nil
    pointer and a string. *)
Definition sampleScale : GoFunc :=
  {| funcName := "main.scale"; paramTypes := ["*int"; "int"];
     returnTypes := ["int"] |}.

Definition sampleScaleValue : GoValue := VFunc sampleScale "func(*int, int) int".

Definition sampleNilArgs : list GoValue := [VNil; VData "string" 0].

(** ** float64 *)

(** IEEE 754 binary64 without NaN payloads: [spec_float] at precision 53 and
    maximal exponent 1024, rounding to nearest even. *)
Definition float64 : Type := spec_float.

Definition f64_add : float64 -> float64 -> float64 := SFadd 53 1024.
Definition f64_mul : float64 -> float64 -> float64 := SFmul 53 1024.
Definition f64_div : float64 -> float64 -> float64 := SFdiv 53 1024.

(** [a > b] and [a >= b] *)
Definition f64_gt (a b : float64) : bool := SFltb b a.
Definition f64_ge (a b : float64) : bool := SFleb b a.

(** [float64(z)] for an integer [z], and [m * 2^e]. *)
Definition f64_of_Z (z : Z) : float64 := binary_normalize 53 1024 z 0 false.
Definition f64_scaled (m e : Z) : float64 := binary_normalize 53 1024 m e false.

Definition f64_0 : float64 := S754_zero false.
Definition f64_half : float64 := Eval vm_compute in f64_scaled 1 (-1).
Definition f64_30 : float64 := Eval vm_compute in f64_of_Z 30.
Definition f64_50 : float64 := Eval vm_compute in f64_of_Z 50.
Definition f64_70 : float64 := Eval vm_compute in f64_of_Z 70.
Definition f64_85 : float64 := Eval vm_compute in f64_of_Z 85.
Definition f64_90 : float64 := Eval vm_compute in f64_of_Z 90.
Definition f64_100 : float64 := Eval vm_compute in f64_of_Z 100.

(** A value that is neither NaN nor below zero: a zero of either sign, a
    positive finite number or plus infinity. *)
Definition f64_nonneg (x : float64) : Prop :=
  match x with
  | S754_zero _ => True
  | S754_infinity s => s = false
  | S754_nan => False
  | S754_finite s _ _ => s = false
  end.

(** ** models.ServiceStats, by the fields the core reads *)

Record CoreStatistics : Type := { Goroutines : Z (* int *) }.

Record LoadStatistics : Type := {
  OverallLoadOfServiceRaw : float64;
  ServiceCPULoadRaw : float64;
  ServiceMemLoadRaw : float64;
  SystemCPULoadRaw : float64;
  SystemMemLoadRaw : float64;
  SystemDiskLoadRaw : float64;
  TotalDiskLoadRaw : float64
}.

Record CPUStatistics : Type := {
  TotalCores : float64;
  CoresUsedByService : float64;
  CoresUsedBySystem : float64
}.

Record RawMemStatsRecords : Type := {
  RecordName : string;
  RecordValue : float64
}.

Record MemoryStatistics : Type := {
  TotalSystemMemoryRaw : float64;
  MemoryUsedBySystemRaw : float64;
  MemoryUsedByServiceRaw : float64;
  AvailableMemoryRaw : float64;
  GCPauseDurationRaw : float64;
  StackMemoryUsageRaw : float64;
  RawMemStatsRecordsOf : list RawMemStatsRecords   (* RawMemStatsRecords *)
}.

Record NetworkIO : Type := {
  BytesSent : float64;
  BytesReceived : float64
}.

Record Health : Type := {
  Percent : float64;
  Healthy : bool;
  Message : string;
  IconMsg : string
}.

Record ServiceHealth : Type := {
  SystemHealthOf : Health;     (* SystemHealth *)
  ServiceHealthOf : Health     (* ServiceHealth *)
}.

Record ServiceStats : Type := {
  CoreStatisticsOf : CoreStatistics;
  LoadStatisticsOf : LoadStatistics;
  CPUStatisticsOf : CPUStatistics;
  MemoryStatisticsOf : MemoryStatistics;
  HeapAllocByServiceRaw : Z;     (* uint64 *)
  HeapAllocBySystemRaw : Z;      (* uint64 *)
  TotalAllocByServiceRaw : Z;    (* uint64 *)
  TotalMemoryByOSRaw : Z;        (* uint64 *)
  NetworkIOOf : NetworkIO;
  HealthOf : ServiceHealth
}.

(** ** ConstructRawMemStats *)

(** [runtime.MemStats], by the fields read. *)
Record MemStats : Type := {
  Alloc : Z; TotalAlloc : Z; Sys : Z; Lookups : Z; Mallocs : Z; Frees : Z;
  HeapAlloc : Z; HeapSys : Z; HeapIdle : Z; HeapInuse : Z; HeapReleased : Z;
  HeapObjects : Z; StackInuse : Z; StackSys : Z; MSpanInuse : Z; MSpanSys : Z;
  MCacheInuse : Z; MCacheSys : Z; BuckHashSys : Z; GCSys : Z; OtherSys : Z;
  NextGC : Z; LastGC : Z; PauseTotalNs : Z;      (* uint64 *)
  NumGC : Z; NumForcedGC : Z;                    (* uint32 *)
  GCCPUFraction : float64
}.

(** Metrics that are counts or ratios, not byte values. *)
Definition nonByteMetrics : gmap string bool :=
  list_to_map
    [ ("lookups", true); ("mallocs", true); ("frees", true);
      ("heap_objects", true); ("next_gc", true); ("last_gc", true);
      ("pause_total_ns", true); ("num_gc", true); ("num_forced_gc", true);
      ("gc_cpu_fraction", true) ].

Definition f64_1024 : float64 := Eval vm_compute in f64_of_Z 1024.

Definition newRawRecord (name : string) (value : float64) : RawMemStatsRecords :=
  let recordValue :=
    if negb (default false (nonByteMetrics !! name))
    then f64_div value f64_1024
    else value in
  {| RecordName := name; RecordValue := recordValue |}.

Definition ConstructRawMemStats (memStats : MemStats) : list RawMemStatsRecords :=
  [ newRawRecord "alloc" (f64_of_Z (Alloc memStats));
    newRawRecord "total_alloc" (f64_of_Z (TotalAlloc memStats));
    newRawRecord "sys" (f64_of_Z (Sys memStats));
    newRawRecord "lookups" (f64_of_Z (Lookups memStats));
    newRawRecord "mallocs" (f64_of_Z (Mallocs memStats));
    newRawRecord "frees" (f64_of_Z (Frees memStats));
    newRawRecord "heap_alloc" (f64_of_Z (HeapAlloc memStats));
    newRawRecord "heap_sys" (f64_of_Z (HeapSys memStats));
    newRawRecord "heap_idle" (f64_of_Z (HeapIdle memStats));
    newRawRecord "heap_inuse" (f64_of_Z (HeapInuse memStats));
    newRawRecord "heap_released" (f64_of_Z (HeapReleased memStats));
    newRawRecord "heap_objects" (f64_of_Z (HeapObjects memStats));
    newRawRecord "stack_inuse" (f64_of_Z (StackInuse memStats));
    newRawRecord "stack_sys" (f64_of_Z (StackSys memStats));
    newRawRecord "m_span_inuse" (f64_of_Z (MSpanInuse memStats));
    newRawRecord "m_span_sys" (f64_of_Z (MSpanSys memStats));
    newRawRecord "m_cache_inuse" (f64_of_Z (MCacheInuse memStats));
    newRawRecord "m_cache_sys" (f64_of_Z (MCacheSys memStats));
    newRawRecord "buck_hash_sys" (f64_of_Z (BuckHashSys memStats));
    newRawRecord "gc_sys" (f64_of_Z (GCSys memStats));
    newRawRecord "other_sys" (f64_of_Z (OtherSys memStats));
    newRawRecord "next_gc" (f64_of_Z (NextGC memStats));
    newRawRecord "last_gc" (f64_of_Z (LastGC memStats));
    newRawRecord "pause_total_ns" (f64_of_Z (PauseTotalNs memStats));
    newRawRecord "num_gc" (f64_of_Z (NumGC memStats));
    newRawRecord "num_forced_gc" (f64_of_Z (NumForcedGC memStats));
    newRawRecord "gc_cpu_fraction" (GCCPUFraction memStats) ].

(** ** CalculateOverallLoad, getStatusMessage, GetServiceHealth *)

(** One of the two results of [CalculateHealthScore]. *)
Record HealthScore : Type := {
  Percentage : float64;
  ScoreMessage : string    (* Message *)
}.

Record HealthScores : Type := {
  ServiceScore : HealthScore;   (* ServiceHealth *)
  SystemScore : HealthScore     (* SystemHealth *)
}.

(** What this file takes from the rest of the repository:
    [common.ParseFloat64ToString] and [CalculateHealthScore], whose result
    is [None] when it returns an error. *)
Class Common : Type := {
  ParseFloat64ToString : float64 -> string;
  CalculateHealthScore : ServiceStats -> option HealthScores
}.

Definition msgExcellent : string :=
  "[Excellent] Service health is optimal. All systems are operating within normal parameters.".
Definition msgGood : string :=
  "[Good] Service health is performing well with minor optimizations recommended.".
Definition msgSatisfactory : string :=
  "[Satisfactory] Service health is stable with room for performance improvements.".
Definition msgFair : string :=
  "[Fair] Service health is functional but requires attention to resource utilization.".
Definition msgPoor : string :=
  "[Poor] Service health is degraded. Immediate investigation and remediation required.".
Definition msgCritical : string :=
  "[Critical] Service health is severely compromised. Urgent intervention necessary.".
Definition msgHealthError : string :=
  "Error: Unable to calculate health score. Please check system configuration.".

Definition getStatusMessage (healthScore : float64) : string :=
  if f64_ge healthScore f64_90 then msgExcellent
  else if f64_ge healthScore f64_85 then msgGood
  else if f64_ge healthScore f64_70 then msgSatisfactory
  else if f64_ge healthScore f64_50 then msgFair
  else if f64_ge healthScore f64_30 then msgPoor
  else msgCritical.

Section ServiceStatistics.
Context `{CM : Common}.

Definition CalculateOverallLoad (serviceCPUF serviceMemF : float64)
    : float64 * string :=
  let cpuWeight := f64_half in
  let memWeight := f64_half in
  let overallLoad :=
    f64_add (f64_mul cpuWeight serviceCPUF) (f64_mul memWeight serviceMemF) in
  let overallLoad :=
    if f64_gt overallLoad f64_100 then f64_100 else overallLoad in
  (overallLoad, ParseFloat64ToString overallLoad +:+ "%").

Definition GetServiceHealth (serviceStats : ServiceStats) : ServiceHealth :=
  match CalculateHealthScore serviceStats with
  | None =>
      {| SystemHealthOf :=
           {| Percent := f64_0; Healthy := false; Message := msgHealthError;
              IconMsg := "" |};
         ServiceHealthOf :=
           {| Percent := f64_0; Healthy := false; Message := msgHealthError;
              IconMsg := "" |} |}
  | Some healthInPercent =>
      let servicePercent := Percentage (ServiceScore healthInPercent) in
      let systemPercent := Percentage (SystemScore healthInPercent) in
      {| ServiceHealthOf :=
           {| Percent := servicePercent;
              Healthy := f64_gt servicePercent f64_50;
              Message := getStatusMessage servicePercent;
              IconMsg := ScoreMessage (ServiceScore healthInPercent) |};
         SystemHealthOf :=
           {| Percent := systemPercent;
              Healthy := f64_gt systemPercent f64_50;
              Message := getStatusMessage systemPercent;
              IconMsg := ScoreMessage (SystemScore healthInPercent) |} |}
  end.

End ServiceStatistics.

(** A message sits in the bucket of its score: the thresholds of
    [getStatusMessage], each bucket bounded above by the next threshold. *)
Definition bucketedMessage (s : float64) (msg : string) : Prop :=
  (f64_ge s f64_90 = true -> msg = msgExcellent)
  /\ (f64_ge s f64_85 = true -> f64_gt f64_90 s = true -> msg = msgGood)
  /\ (f64_ge s f64_70 = true -> f64_gt f64_85 s = true -> msg = msgSatisfactory)
  /\ (f64_ge s f64_50 = true -> f64_gt f64_70 s = true -> msg = msgFair)
  /\ (f64_ge s f64_30 = true -> f64_gt f64_50 s = true -> msg = msgPoor)
  /\ (f64_gt f64_30 s = true -> msg = msgCritical).

(** A health record derived from the score [s]. *)
Definition healthOfScore (s : float64) (h : Health) : Prop :=
  Percent h = s
  /\ (Healthy h = true <-> f64_gt s f64_50 = true)
  /\ bucketedMessage s (Message h).

(** ** Calendar time *)

(** [time.Time] is a count of nanoseconds since the Unix epoch. *)
Definition nanosPerSecond : Z := 1000000000.

(** [t.Unix()] *)
Definition unixSeconds (t : Z) : Z := t / nanosPerSecond.

(** The civil date of a day number (days since 1970-01-01) in the proleptic
    Gregorian calendar, by 400-year eras that begin on 1 March. *)
Definition daysPerEra : Z := 146097.

Definition yearOfEra (doe : Z) : Z :=
  (doe - doe / 1460 + doe / 36524 - doe / 146096) / 365.

(** Year (counted from January, within the era), month and day of day [doe]
    of an era. *)
Definition eraDate (doe : Z) : Z * Z * Z :=
  let yoe := yearOfEra doe in
  let doy := doe - (365 * yoe + yoe / 4 - yoe / 100) in
  let mp := (5 * doy + 2) / 153 in
  let m := if mp <? 10 then mp + 3 else mp - 9 in
  let d := doy - (153 * mp + 2) / 5 + 1 in
  (yoe + (if m <=? 2 then 1 else 0), m, d).

Definition civilFromDays (days : Z) : Z * Z * Z :=
  let z := days + 719468 in
  let era := z / daysPerEra in
  let '(y, m, d) := eraDate (z mod daysPerEra) in
  (400 * era + y, m, d).

(** Decimal digits, most significant first. *)
Definition digitChar (d : Z) : ascii :=
  ascii_of_nat (48 + Z.to_nat (d mod 10)).

Fixpoint fixedDigits (width : nat) (n : Z) : string :=
  match width with
  | O => EmptyString
  | S w => fixedDigits w (n / 10) +:+ String (digitChar n) EmptyString
  end.

Fixpoint digitCount (fuel : nat) (n : Z) : nat :=
  match fuel with
  | O => 1%nat
  | S f => if n <? 10 then 1%nat else S (digitCount f (n / 10))
  end.

(** [appendInt(b, x, width)] of package [time]: a sign for a negative
    number, then at least [width] digits. *)
Definition appendInt (x : Z) (width : nat) : string :=
  let a := Z.abs x in
  let digits :=
    fixedDigits (Nat.max width (digitCount (S (Z.to_nat (Z.log2 a))) a)) a in
  if x <? 0 then String "-"%char digits else digits.

(** [time.Unix(timestamp, 0).UTC().Format(time.RFC3339Nano)]: with no
    fraction of a second the layout renders as
    [2006-01-02T15:04:05Z]. *)
Definition formatRFC3339 (timestamp : Z) : string :=
  let days := timestamp / 86400 in
  let secs := timestamp mod 86400 in
  let '(y, m, d) := civilFromDays days in
  appendInt y 4 +:+ "-" +:+ appendInt m 2 +:+ "-" +:+ appendInt d 2
  +:+ "T" +:+ appendInt (secs / 3600) 2 +:+ ":" +:+ appendInt (secs mod 3600 / 60) 2
  +:+ ":" +:+ appendInt (secs mod 60) 2 +:+ "Z".

(** ** The storage engine *)

(** Modelled from the spec: the storage engine capability
    [insertRows(rows)] and [selectRange(metric, labels, start, end) -> points]
    of an external library.  The engine is an append-only log of rows; a
    selection returns the points of one metric under one label set whose
    timestamps lie in the window, oldest first.  The spec leaves open
    whether the window includes its end and whether an empty selection is an
    error: both are fields of [Engine]. *)
Record Label : Type := { LabelName : string; LabelValue : string }.

Record DataPoint : Type := { Timestamp : Z (* int64 *); Value : float64 }.

Record Row : Type := { Metric : string; Point : DataPoint; Labels : list Label }.

Definition Storage : Type := list Row.

Inductive Result (A : Type) : Type :=
| Ok (a : A)
| Err (msg : string).
Arguments Ok {A} a.
Arguments Err {A} msg.

Class Engine : Type := {
  windowIncludesEnd : bool;
  emptySelectionFails : bool
}.

Definition label_eqb (a b : Label) : bool :=
  String.eqb (LabelName a) (LabelName b)
  && String.eqb (LabelValue a) (LabelValue b).

Fixpoint labels_eqb (a b : list Label) : bool :=
  match a, b with
  | [], [] => true
  | x :: a', y :: b' => label_eqb x y && labels_eqb a' b'
  | _, _ => false
  end.

Section StorageEngine.
Context `{EN : Engine}.

Definition inWindow (start end_ ts : Z) : bool :=
  (start <=? ts) && (if windowIncludesEnd then ts <=? end_ else ts <? end_).

Definition rowSelected (metric : string) (labels : list Label)
    (start end_ : Z) (r : Row) : bool :=
  String.eqb (Metric r) metric && labels_eqb (Labels r) labels
  && inWindow start end_ (Timestamp (Point r)).

Definition InsertRows (rows : list Row) (sto : Storage) : Result Storage :=
  Ok (sto ++ rows).

Definition Select (sto : Storage) (metric : string) (labels : list Label)
    (start end_ : Z) : Result (list DataPoint) :=
  let points :=
    map Point (List.filter (rowSelected metric labels start end_) sto) in
  match points with
  | [] => if emptySelectionFails then Err "no data points found" else Ok []
  | _ => Ok points
  end.

End StorageEngine.

(** ** timeseries/storeMetrics.go *)

(** What the time-series layer takes from the host: [os.Hostname()], [None]
    when it fails. *)
Class Host : Type := { Hostname : option string }.

Section Timeseries.
Context `{HS : Host} `{EN : Engine}.

Definition GetHostLabel : Label :=
  {| LabelName := "host"; LabelValue := default "unknown" Hostname |}.

Definition GetDataPoints (sto : Storage) (metric : string)
    (labels : list Label) (start end_ : Z) : Result (list DataPoint) :=
  Select sto metric labels start end_.

Definition mkRow (metric : string) (label : Label) (timestamp : Z)
    (value : float64) : Row :=
  {| Metric := metric;
     Point := {| Timestamp := timestamp; Value := value |};
     Labels := [label] |}.

Definition generateCoreStatsRows (s : ServiceStats) (label : Label)
    (timestamp : Z) : list Row :=
  [ mkRow "goroutines" label timestamp
      (f64_of_Z (Goroutines (CoreStatisticsOf s))) ].

Definition generateLoadStatsRows (s : ServiceStats) (label : Label)
    (timestamp : Z) : list Row :=
  let l := LoadStatisticsOf s in
  [ mkRow "overall_load_of_service" label timestamp (OverallLoadOfServiceRaw l);
    mkRow "service_cpu_load" label timestamp (ServiceCPULoadRaw l);
    mkRow "service_memory_load" label timestamp (ServiceMemLoadRaw l);
    mkRow "system_cpu_load" label timestamp (SystemCPULoadRaw l);
    mkRow "system_memory_load" label timestamp (SystemMemLoadRaw l);
    mkRow "system_disk_load" label timestamp (SystemDiskLoadRaw l) ].

Definition generateCPUStatsRows (s : ServiceStats) (label : Label)
    (timestamp : Z) : list Row :=
  let c := CPUStatisticsOf s in
  [ mkRow "total_cores" label timestamp (TotalCores c);
    mkRow "cores_used_by_service" label timestamp (CoresUsedByService c);
    mkRow "cores_used_by_system" label timestamp (CoresUsedBySystem c) ].

Definition generateMemoryStatsRows (s : ServiceStats) (label : Label)
    (timestamp : Z) : list Row :=
  let m := MemoryStatisticsOf s in
  [ mkRow "total_system_memory" label timestamp (TotalSystemMemoryRaw m);
    mkRow "memory_used_by_system" label timestamp (MemoryUsedBySystemRaw m);
    mkRow "memory_used_by_service" label timestamp (MemoryUsedByServiceRaw m);
    mkRow "available_memory" label timestamp (AvailableMemoryRaw m);
    mkRow "gc_pause_duration" label timestamp (GCPauseDurationRaw m);
    mkRow "stack_memory_usage" label timestamp (StackMemoryUsageRaw m) ]
  ++ map (fun record =>
            mkRow (RecordName record) label timestamp (RecordValue record))
       (RawMemStatsRecordsOf m)
  ++ [ mkRow "heap_alloc_by_service" label timestamp
         (f64_of_Z (HeapAllocByServiceRaw s));
       mkRow "heap_alloc_by_system" label timestamp
         (f64_of_Z (HeapAllocBySystemRaw s));
       mkRow "total_alloc_by_service" label timestamp
         (f64_of_Z (TotalAllocByServiceRaw s));
       mkRow "total_memory_by_os" label timestamp
         (f64_of_Z (TotalMemoryByOSRaw s));
       mkRow "total_disk_size" label timestamp
         (TotalDiskLoadRaw (LoadStatisticsOf s)) ].

Definition generateNetworkIORows (s : ServiceStats) (label : Label)
    (timestamp : Z) : list Row :=
  [ mkRow "bytes_sent" label timestamp (BytesSent (NetworkIOOf s));
    mkRow "bytes_received" label timestamp (BytesReceived (NetworkIOOf s)) ].

Definition generateHealthStatsRows (s : ServiceStats) (label : Label)
    (timestamp : Z) : list Row :=
  [ mkRow "service_health_percent" label timestamp
      (Percent (ServiceHealthOf (HealthOf s)));
    mkRow "system_health_percent" label timestamp
      (Percent (SystemHealthOf (HealthOf s))) ].

(** The rows of one snapshot, all under one label and one timestamp. *)
Definition snapshotRows (s : ServiceStats) (label : Label) (timestamp : Z)
    : list Row :=
  generateCoreStatsRows s label timestamp
  ++ generateLoadStatsRows s label timestamp
  ++ generateCPUStatsRows s label timestamp
  ++ generateMemoryStatsRows s label timestamp
  ++ generateNetworkIORows s label timestamp
  ++ generateHealthStatsRows s label timestamp.

(** [now] is [time.Now()]; the storage instance and the local time zone
    are taken to be available. *)
Definition StoreServiceMetrics (serviceMetrics : ServiceStats) (now : Z)
    (sto : Storage) : Result Storage :=
  let timestamp := unixSeconds now in
  let label := GetHostLabel in
  let rows := snapshotRows serviceMetrics label timestamp in
  match InsertRows rows sto with
  | Err _ => Err "error storing service metrics"
  | Ok sto' => Ok sto'
  end.

End Timeseries.

(** ** api/api.go *)

Definition NameMap : gmap string string :=
  list_to_map
    [ ("heap_alloc", "HeapAlloc"); ("heap_sys", "HeapSys");
      ("heap_inuse", "HeapInuse"); ("heap_idle", "HeapIdle");
      ("heap_released", "HeapReleased"); ("stack_inuse", "StackInuse");
      ("stack_sys", "StackSys"); ("pause_total_ns", "PauseTotalNs");
      ("num_gc", "NumGC"); ("gc_cpu_fraction", "GCCPUFraction");
      ("m_span_inuse", "MSpanInuse"); ("m_span_sys", "MSpanSys");
      ("m_cache_inuse", "MCacheInuse"); ("m_cache_sys", "MCacheSys");
      ("buck_hash_sys", "BuckHashSys"); ("gc_sys", "GCSys");
      ("other_sys", "OtherSys") ].

(** The key a field is reported under. *)
Definition reportedName (fieldName : string) : string :=
  match NameMap !! fieldName with
  | Some alias => alias
  | None => fieldName
  end.

(** One row of the response: ["time"] and ["value"]. *)
Record ResultRow : Type := {
  rowTime : string;
  rowValue : gmap string float64
}.

(** The body of the loop over the points of a field: the map of the
    point's timestamp is created when missing, then the value is stored under
    the field's reported name. *)
Definition groupStep (fieldName : string) (acc : gmap Z (gmap string float64))
    (dp : DataPoint) : gmap Z (gmap string float64) :=
  <[Timestamp dp := <[reportedName fieldName := Value dp]>
                      (default ∅ (acc !! Timestamp dp))]> acc.

(** [for _, dp := range datapoints { ... }] *)
Definition groupPoints (fieldName : string) (datapoints : list DataPoint)
    (dataByTimestamp : gmap Z (gmap string float64))
    : gmap Z (gmap string float64) :=
  foldl (groupStep fieldName) dataByTimestamp datapoints.

(** Insertion of a row before the first row that is not below it, for
    [sort.Slice] with [less = time_i < time_j]. *)
Fixpoint insertRow (r : ResultRow) (rows : list ResultRow) : list ResultRow :=
  match rows with
  | [] => [r]
  | r' :: rest =>
      if String.ltb (rowTime r') (rowTime r) then r' :: insertRow r rest
      else r :: rows
  end.

Definition sortRows (rows : list ResultRow) : list ResultRow :=
  foldr insertRow [] rows.

Section Api.
Context `{HS : Host} `{EN : Engine}.

(** [for _, fieldName := range req.FieldName { ... }] *)
Fixpoint collectFields (sto : Storage) (fieldNames : list string)
    (start end_ : Z) (dataByTimestamp : gmap Z (gmap string float64))
    : Result (gmap Z (gmap string float64)) :=
  match fieldNames with
  | [] => Ok dataByTimestamp
  | fieldName :: rest =>
      match GetDataPoints sto fieldName [GetHostLabel] start end_ with
      | Err _ => Err "Failed to get data points"
      | Ok datapoints =>
          collectFields sto rest start end_
            (groupPoints fieldName datapoints dataByTimestamp)
      end
  end.

(** The rows of the response, or the error it ends with.  [startTime],
    [endTime] and [serviceStartTime] are times in nanoseconds; the map is
    walked in an unspecified order before the sort, as Go's [range]
    does. *)
Definition GetServiceMetricsFromStorage (sto : Storage)
    (fieldNames : list string) (startTime endTime serviceStartTime : Z)
    : Result (list ResultRow) :=
  let startTime :=
    if startTime <? serviceStartTime then serviceStartTime else startTime in
  match collectFields sto fieldNames (unixSeconds startTime)
          (unixSeconds endTime) ∅ with
  | Err e => Err e
  | Ok dataByTimestamp =>
      Ok (sortRows
            (map (fun tv => {| rowTime := formatRFC3339 (fst tv);
                               rowValue := snd tv |})
               (map_to_list dataByTimestamp)))
  end.

End Api.

(** A snapshot, the scores of a health scorer and the host it is taken on. *)
Definition sampleMemStats : MemStats :=
  {| Alloc := 4096; TotalAlloc := 8192; Sys := 65536; Lookups := 0;
     Mallocs := 120; Frees := 100; HeapAlloc := 4096; HeapSys := 32768;
     HeapIdle := 16384; HeapInuse := 16384; HeapReleased := 2048;
     HeapObjects := 20; StackInuse := 2048; StackSys := 2048;
     MSpanInuse := 1024; MSpanSys := 2048; MCacheInuse := 1024;
     MCacheSys := 2048; BuckHashSys := 1024; GCSys := 4096; OtherSys := 1024;
     NextGC := 8192; LastGC := 1700000000; PauseTotalNs := 5000;
     NumGC := 3; NumForcedGC := 0; GCCPUFraction := f64_0 |}.

Definition sampleStats : ServiceStats :=
  {| CoreStatisticsOf := {| Goroutines := 12 |};
     LoadStatisticsOf :=
       {| OverallLoadOfServiceRaw := f64_of_Z 20;
          ServiceCPULoadRaw := f64_of_Z 30;
          ServiceMemLoadRaw := f64_of_Z 10;
          SystemCPULoadRaw := f64_of_Z 45;
          SystemMemLoadRaw := f64_of_Z 60;
          SystemDiskLoadRaw := f64_of_Z 70;
          TotalDiskLoadRaw := f64_of_Z 512 |};
     CPUStatisticsOf :=
       {| TotalCores := f64_of_Z 4;
          CoresUsedByService := f64_of_Z 1;
          CoresUsedBySystem := f64_of_Z 2 |};
     MemoryStatisticsOf :=
       {| TotalSystemMemoryRaw := f64_of_Z 16384;
          MemoryUsedBySystemRaw := f64_of_Z 8192;
          MemoryUsedByServiceRaw := f64_of_Z 4096;
          AvailableMemoryRaw := f64_of_Z 8192;
          GCPauseDurationRaw := f64_of_Z 5;
          StackMemoryUsageRaw := f64_of_Z 2048;
          RawMemStatsRecordsOf := ConstructRawMemStats sampleMemStats |};
     HeapAllocByServiceRaw := 4096;
     HeapAllocBySystemRaw := 32768;
     TotalAllocByServiceRaw := 8192;
     TotalMemoryByOSRaw := 65536;
     NetworkIOOf := {| BytesSent := f64_of_Z 1000; BytesReceived := f64_of_Z 2000 |};
     HealthOf :=
       {| SystemHealthOf :=
            {| Percent := f64_of_Z 40; Healthy := false; Message := msgPoor;
               IconMsg := "" |};
          ServiceHealthOf :=
            {| Percent := f64_of_Z 92; Healthy := true; Message := msgExcellent;
               IconMsg := "" |} |} |}.

Definition sampleCommon : Common :=
  {| ParseFloat64ToString := fun _ => "?";
     CalculateHealthScore := fun _ =>
       Some {| ServiceScore := {| Percentage := f64_of_Z 92; ScoreMessage := "" |};
               SystemScore := {| Percentage := f64_of_Z 40; ScoreMessage := "" |} |} |}.

Definition sampleHost : Host := {| Hostname := Some "node-1" |}.

(** The engine as its library documents it: the window is open at its end
    and an empty selection is an error. *)
Definition sampleEngine : Engine :=
  {| windowIncludesEnd := false; emptySelectionFails := true |}.

(** The weighted sum of [CalculateOverallLoad] before the cap. *)
Definition weightedLoad (cpu mem : float64) : float64 :=
  f64_add (f64_mul f64_half cpu) (f64_mul f64_half mem).

(** ** Checking every day of an era *)

(** A date as one number, [yyyymmdd]. *)
Definition dateNumber (ymd : Z * Z * Z) : Z :=
  let '(y, m, d) := ymd in (y * 100 + m) * 100 + d.

(** The date of a day of an era is a calendar date; the era's last year
    holds only its January and February and its first year only March to
    December. *)
Definition eraDateOk (ymd : Z * Z * Z) : bool :=
  let '(y, m, d) := ymd in
  (0 <=? y) && (y <=? 400) && (1 <=? m) && (m <=? 12) && (1 <=? d) && (d <=? 31)
  && implb (y =? 400) (m <=? 2) && implb (y =? 0) (3 <=? m).

(** From day [lo] on, [n] days have calendar dates, each later than the one
    before; [prev] is the date number of the day before [lo]. *)
Fixpoint checkEra (prev lo : Z) (n : nat) : bool :=
  match n with
  | O => true
  | S k =>
      let date := eraDate lo in
      eraDateOk date && (prev <? dateNumber date)
      && checkEra (dateNumber date) (lo + 1) k
  end.

(** The timestamps of the years 0000 to 9999. *)
Definition minTimestamp : Z := -62167219200.
Definition maxTimestamp : Z := 253402300799.
Definition fourDigitYear (ts : Z) : Prop := minTimestamp <= ts <= maxTimestamp.

(** ** Rows in the order of their timestamps *)

(** The response row of a timestamp and its values. *)
Definition renderRow (tv : Z * gmap string float64) : ResultRow :=
  {| rowTime := formatRFC3339 (fst tv); rowValue := snd tv |}.

(** Insertion sort by timestamp, the order the response is compared with. *)
Fixpoint insertKeyed (x : Z * gmap string float64)
    (l : list (Z * gmap string float64)) : list (Z * gmap string float64) :=
  match l with
  | [] => [x]
  | y :: rest => if fst y <? fst x then y :: insertKeyed x rest else x :: l
  end.

Definition sortKeyed (l : list (Z * gmap string float64))
    : list (Z * gmap string float64) :=
  foldr insertKeyed [] l.

(** The value stored for a key of the row of a timestamp. *)
Definition cellOf (data : gmap Z (gmap string float64)) (ts : Z) (k : string)
    : option float64 :=
  match data !! ts with
  | Some values => values !! k
  | None => None
  end.

(** The metric names of a snapshot whose raw memory records are those of
    [ConstructRawMemStats], in the order the rows are generated. *)
Definition snapshotMetricNames : list string :=
  [ "goroutines";
    "overall_load_of_service"; "service_cpu_load"; "service_memory_load";
    "system_cpu_load"; "system_memory_load"; "system_disk_load";
    "total_cores"; "cores_used_by_service"; "cores_used_by_system";
    "total_system_memory"; "memory_used_by_system"; "memory_used_by_service";
    "available_memory"; "gc_pause_duration"; "stack_memory_usage";
    "alloc"; "total_alloc"; "sys"; "lookups"; "mallocs"; "frees";
    "heap_alloc"; "heap_sys"; "heap_idle"; "heap_inuse"; "heap_released";
    "heap_objects"; "stack_inuse"; "stack_sys"; "m_span_inuse"; "m_span_sys";
    "m_cache_inuse"; "m_cache_sys"; "buck_hash_sys"; "gc_sys"; "other_sys";
    "next_gc"; "last_gc"; "pause_total_ns"; "num_gc"; "num_forced_gc";
    "gc_cpu_fraction";
    "heap_alloc_by_service"; "heap_alloc_by_system"; "total_alloc_by_service";
    "total_memory_by_os"; "total_disk_size";
    "bytes_sent"; "bytes_received";
    "service_health_percent"; "system_health_percent" ].

(** The first stored row of a metric. *)
Definition findRow (metric : string) (rows : list Row) : option Row :=
  List.find (fun r => String.eqb (Metric r) metric) rows.

(** The window handed to the engine starts at the requested start, clamped
    to the start of the process, in seconds. *)
Definition windowStart (startTime serviceStartTime : Z) : Z :=
  unixSeconds (if startTime <? serviceStartTime then serviceStartTime
               else startTime).

(** A series of three points at two timestamps. *)
Definition sampleSeries : Storage :=
  [ {| Metric := "goroutines";
       Point := {| Timestamp := 1700000000; Value := f64_of_Z 5 |};
       Labels := [ {| LabelName := "host"; LabelValue := "node-1" |} ] |};
    {| Metric := "heap_alloc";
       Point := {| Timestamp := 1700000000; Value := f64_of_Z 7 |};
       Labels := [ {| LabelName := "host"; LabelValue := "node-1" |} ] |};
    {| Metric := "goroutines";
       Point := {| Timestamp := 1700000060; Value := f64_of_Z 6 |};
       Labels := [ {| LabelName := "host"; LabelValue := "node-1" |} ] |} ].

(** The storage after the snapshot [sampleStats] is stored, half a second
    past 2023-11-14T22:13:20Z, into an empty storage on the sample host. *)
Definition sampleNow : Z := 1700000000500000000.

Definition sampleStored : Storage :=
  [] ++ snapshotRows sampleStats (GetHostLabel (HS := sampleHost))
          (unixSeconds sampleNow).


(** ** Concurrent callers of one identity *)

(** The table as its callers see it: each identity with the record behind
    its pointer. *)
Definition tableView (st : State) : gmap string FunctionMetrics :=
  omap (fun l => heap st !! l) (functionMetrics st).

(** The table update of one invocation, on the view. *)
Definition applyUpdate `{RT : Runtime} (name : string) (shouldProfile : bool)
    (env : Env) (table : gmap string FunctionMetrics)
    : gmap string FunctionMetrics :=
  <[name := recordAfter name shouldProfile env (table !! name)]> table.

(** Where a caller of [executeFunctionWithProfiling] stands.  The two
    critical sections are walked statement by statement: the counter is read,
    written and read again under [countersMu]; under [mu] the fields of an
    existing record are stored one at a time, [k] counting the stores done. *)
Inductive PC : Type :=
| PcStart                          (* before [countersMu.Lock()] *)
| PcHoldC                          (* holds [countersMu] *)
| PcReadC (tmp : Z)                (* [callCounters[name]++]: value read *)
| PcWroteC                         (* [callCounters[name]++]: value stored *)
| PcGotCount (count : Z)           (* [count := callCounters[name]] *)
| PcReleased (count : Z)           (* [countersMu.Unlock()] *)
| PcRan (count : Z)                (* profiling, [fn()], measurements *)
| PcHoldT (count : Z)              (* holds [mu] *)
| PcWriting (count : Z) (k : nat)  (* the record exists: [k] stores done *)
| PcInserted (count : Z)           (* no record: the new one is in the map *)
| PcFinished (count : Z).          (* [mu.Unlock()], returned *)

(** The count a caller has taken, once it has. *)
Definition countOf (pc : PC) : option Z :=
  match pc with
  | PcStart | PcHoldC | PcReadC _ | PcWroteC => None
  | PcGotCount c | PcReleased c | PcRan c | PcHoldT c | PcWriting c _
  | PcInserted c | PcFinished c => Some c
  end.

(** The shared memory: both maps, the holders of both mutexes, and the
    updates completed so far (caller and count), oldest first; the last is
    kept for the statement only and is never read by a step. *)
Record Shared : Type := {
  shCounters : gmap string Z;
  shCountersMu : option nat;
  shTable : gmap string FunctionMetrics;
  shMu : option nat;
  shLog : list (nat * Z)
}.

Record Conc : Type := { shared : Shared; threads : list PC }.

(** The [k]-th field store into an existing record. *)
Definition writeField `{RT : Runtime} (name : string) (shouldProfile : bool)
    (env : Env) (k : nat) (m : FunctionMetrics) : FunctionMetrics :=
  match k with
  | 0%nat =>
      {| FunctionLastRanAt := startTime env;
         CPUProfileFilePath := CPUProfileFilePath m;
         MemProfileFilePath := MemProfileFilePath m;
         MemoryUsage := MemoryUsage m;
         GoroutineCount := GoroutineCount m;
         ExecutionTime := ExecutionTime m |}
  | 1%nat =>
      {| FunctionLastRanAt := FunctionLastRanAt m;
         CPUProfileFilePath := CPUProfileFilePath m;
         MemProfileFilePath := MemProfileFilePath m;
         MemoryUsage := MemoryUsage m;
         GoroutineCount := GoroutineCount m;
         ExecutionTime := elapsedTime env |}
  | 2%nat =>
      {| FunctionLastRanAt := FunctionLastRanAt m;
         CPUProfileFilePath := CPUProfileFilePath m;
         MemProfileFilePath := MemProfileFilePath m;
         MemoryUsage := MemoryUsage m;
         GoroutineCount := finalGoroutinesOf env;
         ExecutionTime := ExecutionTime m |}
  | 3%nat =>
      {| FunctionLastRanAt := FunctionLastRanAt m;
         CPUProfileFilePath := CPUProfileFilePath m;
         MemProfileFilePath := MemProfileFilePath m;
         MemoryUsage := memoryUsageOf shouldProfile env;
         GoroutineCount := GoroutineCount m;
         ExecutionTime := ExecutionTime m |}
  | 4%nat =>
      {| FunctionLastRanAt := FunctionLastRanAt m;
         CPUProfileFilePath := cpuProfPath name;
         MemProfileFilePath := MemProfileFilePath m;
         MemoryUsage := MemoryUsage m;
         GoroutineCount := GoroutineCount m;
         ExecutionTime := ExecutionTime m |}
  | _ =>
      {| FunctionLastRanAt := FunctionLastRanAt m;
         CPUProfileFilePath := CPUProfileFilePath m;
         MemProfileFilePath := memProfPath name;
         MemoryUsage := MemoryUsage m;
         GoroutineCount := GoroutineCount m;
         ExecutionTime := ExecutionTime m |}
  end.

(** Three stores, and three more when the call is profiled. *)
Definition fieldWrites (shouldProfile : bool) : nat :=
  if shouldProfile then 6%nat else 3%nat.

(** The first [k] stores. *)
Fixpoint writeFields `{RT : Runtime} (name : string) (shouldProfile : bool)
    (env : Env) (k : nat) (m : FunctionMetrics) : FunctionMetrics :=
  match k with
  | O => m
  | S k' => writeField name shouldProfile env k'
              (writeFields name shouldProfile env k' m)
  end.

Section Concurrent.
Context `{RT : Runtime}.
(** The identity all callers share, the sampling rate, and what caller [i]
    reads from its environment. *)
Variables (name : string) (rate : Z) (envs : nat -> Env).

Definition setThread (i : nat) (pc : PC) (sh : Shared) (c : Conc) : Conc :=
  {| shared := sh; threads := <[i := pc]> (threads c) |}.

(** One step of caller [i]; [None] when it is blocked on a mutex or has
    returned. *)
Definition stepThread (i : nat) (c : Conc) : option Conc :=
  let sh := shared c in
  match threads c !! i with
  | None => None
  | Some PcStart =>
      match shCountersMu sh with
      | Some _ => None
      | None =>
          Some (setThread i PcHoldC
                  {| shCounters := shCounters sh; shCountersMu := Some i;
                     shTable := shTable sh; shMu := shMu sh;
                     shLog := shLog sh |} c)
      end
  | Some PcHoldC =>
      Some (setThread i (PcReadC (counterOf (shCounters sh) name)) sh c)
  | Some (PcReadC tmp) =>
      Some (setThread i PcWroteC
              {| shCounters := <[name := uint64_add tmp 1]> (shCounters sh);
                 shCountersMu := shCountersMu sh;
                 shTable := shTable sh; shMu := shMu sh;
                 shLog := shLog sh |} c)
  | Some PcWroteC =>
      Some (setThread i (PcGotCount (counterOf (shCounters sh) name)) sh c)
  | Some (PcGotCount count) =>
      Some (setThread i (PcReleased count)
              {| shCounters := shCounters sh; shCountersMu := None;
                 shTable := shTable sh; shMu := shMu sh;
                 shLog := shLog sh |} c)
  | Some (PcReleased count) => Some (setThread i (PcRan count) sh c)
  | Some (PcRan count) =>
      match shMu sh with
      | Some _ => None
      | None =>
          Some (setThread i (PcHoldT count)
                  {| shCounters := shCounters sh;
                     shCountersMu := shCountersMu sh;
                     shTable := shTable sh; shMu := Some i;
                     shLog := shLog sh |} c)
      end
  | Some (PcHoldT count) =>
      let shouldProfile := shouldProfileAt count rate in
      match shTable sh !! name with
      | Some _ => Some (setThread i (PcWriting count 0) sh c)
      | None =>
          Some (setThread i (PcInserted count)
                  {| shCounters := shCounters sh;
                     shCountersMu := shCountersMu sh;
                     shTable :=
                       <[name := recordAfter name shouldProfile (envs i) None]>
                         (shTable sh);
                     shMu := shMu sh; shLog := shLog sh |} c)
      end
  | Some (PcWriting count k) =>
      let shouldProfile := shouldProfileAt count rate in
      if (k <? fieldWrites shouldProfile)%nat then
        Some (setThread i (PcWriting count (S k))
                {| shCounters := shCounters sh;
                   shCountersMu := shCountersMu sh;
                   shTable :=
                     alter (writeField name shouldProfile (envs i) k) name
                       (shTable sh);
                   shMu := shMu sh; shLog := shLog sh |} c)
      else
        Some (setThread i (PcFinished count)
                {| shCounters := shCounters sh;
                   shCountersMu := shCountersMu sh;
                   shTable := shTable sh; shMu := None;
                   shLog := shLog sh ++ [(i, count)] |} c)
  | Some (PcInserted count) =>
      Some (setThread i (PcFinished count)
              {| shCounters := shCounters sh;
                 shCountersMu := shCountersMu sh;
                 shTable := shTable sh; shMu := None;
                 shLog := shLog sh ++ [(i, count)] |} c)
  | Some (PcFinished _) => None
  end.

(** A schedule names the caller that moves next; a caller that cannot move
    is passed over. *)
Fixpoint runSchedule (schedule : list nat) (c : Conc) : Conc :=
  match schedule with
  | [] => c
  | i :: rest =>
      runSchedule rest (default c (stepThread i c))
  end.

(** [n] callers about to call, the identity not yet counted, the table
    [table], both mutexes free. *)
Definition concInit (n : nat) (table : gmap string FunctionMetrics) : Conc :=
  {| shared := {| shCounters := ∅; shCountersMu := None; shTable := table;
                  shMu := None; shLog := [] |};
     threads := replicate n PcStart |}.

Definition isFinished (pc : PC) : bool :=
  match pc with PcFinished _ => true | _ => false end.

Definition allFinished (c : Conc) : bool := forallb isFinished (threads c).

(** [FunctionTraceDetails] against the callers: it takes [mu], so it reads
    the table only while no caller holds it. *)
Definition readTable (c : Conc) : option (gmap string FunctionMetrics) :=
  match shMu (shared c) with
  | None => Some (shTable (shared c))
  | Some _ => None
  end.

(** The table after the completed updates, one after the other. *)
Definition replay (table : gmap string FunctionMetrics) (log : list (nat * Z))
    : gmap string FunctionMetrics :=
  foldl (fun t ic =>
           applyUpdate name (shouldProfileAt (snd ic) rate) (envs (fst ic)) t)
        table log.

End Concurrent.

(** *** What holds between the steps *)

Fixpoint countIf (P : PC -> bool) (l : list PC) : nat :=
  match l with
  | [] => 0%nat
  | pc :: rest => ((if P pc then 1 else 0) + countIf P rest)%nat
  end.

(** The caller has stored its increment. *)
Definition incremented (pc : PC) : bool :=
  match pc with PcStart | PcHoldC | PcReadC _ => false | _ => true end.

Definition inCountersSection (pc : PC) : bool :=
  match pc with
  | PcHoldC | PcReadC _ | PcWroteC | PcGotCount _ => true
  | _ => false
  end.

Definition inTableSection (pc : PC) : bool :=
  match pc with
  | PcHoldT _ | PcWriting _ _ | PcInserted _ => true
  | _ => false
  end.

(** An upper bound on the steps a caller still takes. *)
Definition stepsLeft (pc : PC) : nat :=
  match pc with
  | PcStart => 15
  | PcHoldC => 14
  | PcReadC _ => 13
  | PcWroteC => 12
  | PcGotCount _ => 11
  | PcReleased _ => 10
  | PcRan _ => 9
  | PcHoldT _ => 8
  | PcWriting _ k => 1 + (6 - k)
  | PcInserted _ => 1
  | PcFinished _ => 0
  end.

Fixpoint remaining (l : list PC) : nat :=
  match l with
  | [] => 0%nat
  | pc :: rest => (stepsLeft pc + remaining rest)%nat
  end.

Section ConcurrentInvariant.
Context `{RT : Runtime}.
Variables (name : string) (rate : Z) (envs : nat -> Env).
Variable table0 : gmap string FunctionMetrics.

(** The table while caller [i] holds [mu]: the completed updates replayed,
    and on top of them the stores [i] has made so far. *)
Definition heldTable (i : nat) (pc : PC) (sh : Shared) : Prop :=
  match pc with
  | PcHoldT _ => shTable sh = replay name rate envs table0 (shLog sh)
  | PcWriting count k =>
      exists m0,
        replay name rate envs table0 (shLog sh) !! name = Some m0 /\
        (k <= fieldWrites (shouldProfileAt count rate))%nat /\
        shTable sh =
          <[name := writeFields name (shouldProfileAt count rate) (envs i) k m0]>
            (replay name rate envs table0 (shLog sh))
  | PcInserted count =>
      replay name rate envs table0 (shLog sh) !! name = None /\
      shTable sh =
        <[name := recordAfter name (shouldProfileAt count rate) (envs i) None]>
          (replay name rate envs table0 (shLog sh))
  | _ => True
  end.

Record Inv (c : Conc) : Prop := {
  inv_count :
    counterOf (shCounters (shared c)) name =
    Z.of_nat (countIf incremented (threads c));
  inv_counters_holder : forall i pc,
    threads c !! i = Some pc ->
    (inCountersSection pc = true <-> shCountersMu (shared c) = Some i);
  inv_counters_valid : forall i,
    shCountersMu (shared c) = Some i -> is_Some (threads c !! i);
  inv_read : forall i tmp,
    threads c !! i = Some (PcReadC tmp) ->
    tmp = counterOf (shCounters (shared c)) name;
  inv_range : forall i pc k,
    threads c !! i = Some pc -> countOf pc = Some k ->
    1 <= k <= counterOf (shCounters (shared c)) name;
  inv_wrote : forall i,
    threads c !! i = Some PcWroteC ->
    forall j pc k, threads c !! j = Some pc -> countOf pc = Some k ->
      k < counterOf (shCounters (shared c)) name;
  inv_distinct : forall i j pci pcj k,
    threads c !! i = Some pci -> threads c !! j = Some pcj ->
    countOf pci = Some k -> countOf pcj = Some k -> i = j;
  inv_table_holder : forall i pc,
    threads c !! i = Some pc ->
    (inTableSection pc = true <-> shMu (shared c) = Some i);
  inv_table_valid : forall i,
    shMu (shared c) = Some i -> is_Some (threads c !! i);
  inv_table_free :
    shMu (shared c) = None ->
    shTable (shared c) = replay name rate envs table0 (shLog (shared c));
  inv_table_held : forall i pc,
    threads c !! i = Some pc -> heldTable i pc (shared c);
  inv_log : forall i k,
    (i, k) ∈ shLog (shared c) <-> threads c !! i = Some (PcFinished k);
  inv_log_length :
    length (shLog (shared c)) = countIf isFinished (threads c);
  inv_log_nodup : NoDup (shLog (shared c))
}.

End ConcurrentInvariant.

(** Callers in turn, round after round. *)
Definition roundRobin (rounds n : nat) : list nat :=
  concat (replicate rounds (seq 0 n)).

(** ** What a call asks the target to do *)



(** ** core.ViewFunctionMetrics and its handler *)

(** The Go toolchain as the report generator finds it: whether
    [exec.LookPath("go")] succeeds, and what a command prints together with
    its error when it fails. *)
Class Toolchain : Type := {
  goOnPath : bool;
  CombinedOutput : list string -> string * option string
}.

(** [models.Profiles] and [models.FunctionTraceDetails]. *)
Record Profiles : Type := { CPU : string; Mem : string }.

Record FunctionTrace : Type := {
  FunctionName : string;
  CoreProfile : Profiles;
  FunctionCodeTrace : string
}.

Definition newline : string := String (ascii_of_nat 10) EmptyString.

Section View.
Context `{TC : Toolchain}.

(** The closure [executePprof]: the text of the report, and the commands
    run for it. *)
Definition executePprof (profileFilePath reportType : string)
    : string * list (list string) :=
  if String.eqb profileFilePath "" then
    ("Error: Profile file path is empty", [])
  else
    let cmd := ["go"; "tool"; "pprof"; "-" +:+ reportType; profileFilePath] in
    match CombinedOutput cmd with
    | (output, Some err) =>
        ("Error executing pprof: " +:+ err +:+ newline +:+ "Output: "
           +:+ output, [cmd])
    | (output, None) => (output, [cmd])
    end.

(** The report, the commands run in order, and whether the warning about the
    missing [go] command was logged. *)
Definition ViewFunctionMetrics (name reportType : string)
    (metrics : FunctionMetrics)
    : FunctionTrace * list (list string) * bool :=
  if negb goOnPath then
    ({| FunctionName := name;
        CoreProfile :=
          {| CPU := "Error: 'go' command not found. pprof reports require the Go SDK.";
             Mem := "Error: 'go' command not found. pprof reports require the Go SDK." |};
        FunctionCodeTrace := "Error: 'go' command not found." |}, [], true)
  else
    let '(codeStack, cmds0) :=
      if negb (String.eqb (CPUProfileFilePath metrics) "") then
        let cmd := ["go"; "tool"; "pprof"; "-list"; name;
                    CPUProfileFilePath metrics] in
        match CombinedOutput cmd with
        | (output, Some err) =>
            ("Error generating code trace: " +:+ err +:+ newline
               +:+ "Output: " +:+ output, [cmd])
        | (output, None) => (output, [cmd])
        end
      else ("", []) in
    let '(cpu, cmds1) := executePprof (CPUProfileFilePath metrics) reportType in
    let '(mem, cmds2) := executePprof (MemProfileFilePath metrics) reportType in
    ({| FunctionName := name;
        CoreProfile := {| CPU := cpu; Mem := mem |};
        FunctionCodeTrace := codeStack |}, cmds0 ++ cmds1 ++ cmds2, false).

End View.

(** What a handler answers: [http.Error] with a status and a message, or a
    JSON body. *)
Inductive Reply (A : Type) : Type :=
| ReplyError (status : Z) (message : string)
| ReplyJSON (body : A).
Arguments ReplyError {A} status message.
Arguments ReplyJSON {A} body.

(** [api.ViewFunctionMetrics], on the request's method and its query
    parameters [name] and [reportType] (empty when absent): the answer, the
    commands run, and the package state after the snapshot was taken. *)
Definition api_ViewFunctionMetrics `{TC : Toolchain}
    (method name reportType : string) (st : State)
    : Reply FunctionTrace * list (list string) * State :=
  if negb (String.eqb method "GET") then
    (ReplyError 405 "Method not allowed", [], st)
  else if String.eqb name "" then
    (ReplyError 400 "Function name is required to get metrics", [], st)
  else
    let reportType := if String.eqb reportType "" then "text" else reportType in
    let '(result, st1) := FunctionTraceDetails st in
    match readResult result st1 name with
    | None => (ReplyError 404 "Function not found", [], st1)
    | Some metrics =>
        let '(view, cmds, _) := ViewFunctionMetrics name reportType metrics in
        (ReplyJSON view, cmds, st1)
    end.

(** The report of a record that names no profile file. *)
Definition emptyReport (name : string) : FunctionTrace :=
  {| FunctionName := name;
     CoreProfile := {| CPU := "Error: Profile file path is empty";
                       Mem := "Error: Profile file path is empty" |};
     FunctionCodeTrace := "" |}.

(** A toolchain with [go] installed, whose commands print their last
    argument. *)
Definition sampleToolchain : Toolchain :=
  {| goOnPath := true;
     CombinedOutput := fun cmd => (default "" (last cmd), None) |}.

Section ProfilePathsDef.
Context `{RT : Runtime}.

(** A record names no profile file, or the two files of its identity, and
    then a CPU profile into that file was started. *)
Definition pathsOwned (st : State) (name : string) (m : FunctionMetrics)
    : Prop :=
  (CPUProfileFilePath m = "" /\ MemProfileFilePath m = "")
  \/ (CPUProfileFilePath m = cpuProfPath name
      /\ MemProfileFilePath m = memProfPath name
      /\ EvStartCPUProfile (cpuProfPath name) ∈ events st).

End ProfilePathsDef.

(** Two calls of [work] at a sampling rate of three: none is profiled. *)
Definition sampleUnprofiled : State :=
  runCalls (RT := sampleRuntime)
    (replicate 2 (CallTraceFunction sampleWork, sampleEnvGrow))
    (SetSamplingRate 3 initState).

(** ** api.GetReportData *)




Section Report.
Context `{HS : Host} `{EN : Engine}.



End Report.


(** ** The package's routing *)











(** ** Static files *)

(** The embedded files: [staticFiles.ReadFile], [None] when it fails. *)
Class StaticFiles : Type := { ReadFile : string -> option string }.

Definition contentTypes : gmap string string :=
  list_to_map
    [ (".html", "text/html"); (".ico", "image/x-icon"); (".css", "text/css");
      (".js", "application/javascript"); (".png", "image/png");
      (".jpg", "image/jpeg"); (".jpeg", "image/jpeg");
      (".svg", "image/svg+xml"); (".woff", "font/woff");
      (".woff2", "font/woff2") ].

Fixpoint hasSeparator (s : string) : bool :=
  match s with
  | EmptyString => false
  | String c rest => Ascii.eqb c "/"%char || hasSeparator rest
  end.

(** [filepath.Ext]: the suffix that starts at the last dot of the last
    element of the path, empty when that element has no dot. *)
Fixpoint Ext (path : string) : string :=
  match path with
  | EmptyString => EmptyString
  | String c rest =>
      match Ext rest with
      | EmptyString =>
          if hasSeparator rest then EmptyString
          else if Ascii.eqb c "."%char then path else EmptyString
      | e => e
      end
  end.

(** What a static request is answered with. *)
Inductive StaticReply : Type :=
| FileSent (contentType : string) (body : string)
| FileFailed (status : Z) (message : string).

(** The file a request path stands for. *)
Definition staticFilePath (path : string) : string :=
  if String.eqb path "/" then "static" +:+ "/index.html"
  else if String.eqb path "/favicon.ico" then "static" +:+ "/assets/favicon.ico"
  else "static" +:+ path.

Section Static.
Context `{FS : StaticFiles}.

Definition serveHtmlSite (path : string) : StaticReply :=
  let baseDir := "static" in
  let filePath :=
    if String.eqb path "/" then baseDir +:+ "/index.html"
    else if String.eqb path "/favicon.ico" then
      baseDir +:+ "/assets/favicon.ico"
    else baseDir +:+ path in
  let ext := Ext filePath in
  let contentType :=
    match contentTypes !! ext with
    | Some ct => ct
    | None => "application/octet-stream"
    end in
  match ReadFile filePath with
  | None => FileFailed 500 ("Could not load " +:+ filePath)
  | Some file => FileSent contentType file
  end.

Definition serveFiberStaticFiles (path : string) : StaticReply :=
  let baseDir := "static" in
  let filePath :=
    if String.eqb path "/" then baseDir +:+ "/index.html"
    else if String.eqb path "/favicon.ico" then
      baseDir +:+ "/assets/favicon.ico"
    else baseDir +:+ path in
  let ext := Ext filePath in
  let contentType :=
    match contentTypes !! ext with
    | Some ct => ct
    | None => "application/octet-stream"
    end in
  match ReadFile filePath with
  | None => FileFailed 404 "File not found"
  | Some file => FileSent contentType file
  end.

End Static.

(** An extension proper: no dot and no separator in it. *)
Fixpoint plainExtension (e : string) : bool :=
  match e with
  | EmptyString => true
  | String c rest =>
      negb (Ascii.eqb c "."%char) && negb (Ascii.eqb c "/"%char)
      && plainExtension rest
  end.

(** Embedded files that hold the site's page and one style sheet. *)
Definition sampleFiles : StaticFiles :=
  {| ReadFile := fun p =>
       if String.eqb p "static/index.html" then Some "<html></html>"
       else if String.eqb p "static/assets/site.css" then Some "body{}"
       else None |}.

(** ** The aggregator *)

(** [mem.VirtualMemoryStat] and one entry of [net.IOCounters], by the
    fields read (all [uint64]). *)
Record VirtualMemoryStat : Type := {
  vmTotal : Z;        (* Total *)
  vmUsed : Z;         (* Used *)
  vmAvailable : Z     (* Available *)
}.

Record IOCountersStat : Type := {
  ifBytesSent : Z;    (* BytesSent *)
  ifBytesRecv : Z     (* BytesRecv *)
}.

(** What the aggregator reads from the host and from the rest of the
    repository; an [option] is [None] when the call returns an error.  Of
    [common.GetCPULoad], [common.GetMemoryLoad] and [common.GetDiskLoad] the
    [float64] results are kept. *)
Class Probes : Type := {
  NumGoroutine : Z;
  GetCPULoad : float64 * float64;        (* serviceCPUF, systemCPUF *)
  GetMemoryLoad : float64 * float64;     (* serviceMemF, systemMemF *)
  GetDiskLoad : float64 * float64;       (* systemDiskF, totalDiskF *)
  VirtualMemory : option VirtualMemoryStat;
  IOCounters : option (list IOCountersStat);
  GetCPUPrecent : option float64;
  getProcessUsage : option float64;      (* procCPUPercent *)
  cpuCounts : bool -> Z;                 (* cpu.Counts(logical) *)
  RoundFloat64 : float64 -> Z -> float64
}.

(** [float64(time.Millisecond)] *)
Definition f64_millisecond : float64 := Eval vm_compute in f64_of_Z 1000000.

Definition zeroHealth : Health :=
  {| Percent := f64_0; Healthy := false; Message := ""; IconMsg := "" |}.

Section Aggregator.
Context `{CM : Common} `{PR : Probes}.

Definition GetCoreStatistics : CoreStatistics :=
  {| Goroutines := NumGoroutine |}.

Definition GetLoadStatistics : LoadStatistics :=
  let '(serviceCPUF, systemCPUF) := GetCPULoad in
  let '(serviceMemF, systemMemF) := GetMemoryLoad in
  let '(systemDiskF, totalDiskF) := GetDiskLoad in
  let '(overallLoadF, _) := CalculateOverallLoad serviceCPUF serviceMemF in
  {| OverallLoadOfServiceRaw := overallLoadF;
     ServiceCPULoadRaw := serviceCPUF;
     ServiceMemLoadRaw := serviceMemF;
     SystemCPULoadRaw := systemCPUF;
     SystemMemLoadRaw := systemMemF;
     SystemDiskLoadRaw := systemDiskF;
     TotalDiskLoadRaw := totalDiskF |}.

Definition GetCPUStatistics : CPUStatistics :=
  let sysCPUPercent := default f64_0 GetCPUPrecent in
  let procCPUPercent := default f64_0 getProcessUsage in
  let totalLogicalCores := cpuCounts true in
  let totalCores := cpuCounts false in
  let systemUsedCores :=
    f64_mul (f64_div sysCPUPercent f64_100) (f64_of_Z totalLogicalCores) in
  let processUsedCores :=
    f64_mul (f64_div procCPUPercent f64_100) (f64_of_Z totalLogicalCores) in
  {| TotalCores := f64_of_Z totalCores;
     CoresUsedByService := RoundFloat64 processUsedCores 3;
     CoresUsedBySystem := RoundFloat64 systemUsedCores 3 |}.

(** [m] is what [ReadMemStats()] returns to this call. *)
Definition GetMemoryStatistics (m : MemStats) : MemoryStatistics :=
  match VirtualMemory with
  | None =>
      {| TotalSystemMemoryRaw := f64_0; MemoryUsedBySystemRaw := f64_0;
         MemoryUsedByServiceRaw := f64_0; AvailableMemoryRaw := f64_0;
         GCPauseDurationRaw := f64_0; StackMemoryUsageRaw := f64_0;
         RawMemStatsRecordsOf := [] |}
  | Some memInfo =>
      {| TotalSystemMemoryRaw := f64_of_Z (vmTotal memInfo);
         MemoryUsedBySystemRaw := f64_of_Z (vmUsed memInfo);
         MemoryUsedByServiceRaw := f64_of_Z (Alloc m);
         AvailableMemoryRaw := f64_of_Z (vmAvailable memInfo);
         GCPauseDurationRaw :=
           f64_div (f64_of_Z (PauseTotalNs m)) f64_millisecond;
         StackMemoryUsageRaw := f64_of_Z (StackInuse m);
         RawMemStatsRecordsOf := ConstructRawMemStats m |}
  end.

(** Received first, sent second. *)
Definition GetNetworkIO : float64 * float64 :=
  match IOCounters with
  | None => (f64_0, f64_0)
  | Some netIO =>
      foldl (fun totals iface =>
               (f64_add (fst totals) (f64_of_Z (ifBytesRecv iface)),
                f64_add (snd totals) (f64_of_Z (ifBytesSent iface))))
            (f64_0, f64_0) netIO
  end.

(** The six collectors run side by side and fill fields of their own, so
    their order does not matter; [m1] is what [ReadMemStats()] returns inside
    [GetMemoryStatistics], [m2] what it returns to the collector of the
    allocation figures. *)
Definition GetServiceStats (m1 m2 : MemStats) : ServiceStats :=
  let '(bytesReceived, bytesSent) := GetNetworkIO in
  let stats :=
    {| CoreStatisticsOf := GetCoreStatistics;
       LoadStatisticsOf := GetLoadStatistics;
       CPUStatisticsOf := GetCPUStatistics;
       MemoryStatisticsOf := GetMemoryStatistics m1;
       HeapAllocByServiceRaw := HeapAlloc m2;
       HeapAllocBySystemRaw := HeapSys m2;
       TotalAllocByServiceRaw := TotalAlloc m2;
       TotalMemoryByOSRaw := Sys m2;
       NetworkIOOf := {| BytesSent := bytesSent;
                         BytesReceived := bytesReceived |};
       HealthOf := {| SystemHealthOf := zeroHealth;
                      ServiceHealthOf := zeroHealth |} |} in
  {| CoreStatisticsOf := CoreStatisticsOf stats;
     LoadStatisticsOf := LoadStatisticsOf stats;
     CPUStatisticsOf := CPUStatisticsOf stats;
     MemoryStatisticsOf := MemoryStatisticsOf stats;
     HeapAllocByServiceRaw := HeapAllocByServiceRaw stats;
     HeapAllocBySystemRaw := HeapAllocBySystemRaw stats;
     TotalAllocByServiceRaw := TotalAllocByServiceRaw stats;
     TotalMemoryByOSRaw := TotalMemoryByOSRaw stats;
     NetworkIOOf := NetworkIOOf stats;
     HealthOf := GetServiceHealth stats |}.

End Aggregator.

(** The value stored for a metric among the rows of a snapshot. *)
Definition storedValue (rows : list Row) (metric : string) : option float64 :=
  match findRow metric rows with
  | Some r => Some (Value (Point r))
  | None => None
  end.

(** The metrics of a snapshot without raw memory records. *)
Definition plainMetricNames : list string :=
  [ "goroutines";
    "overall_load_of_service"; "service_cpu_load"; "service_memory_load";
    "system_cpu_load"; "system_memory_load"; "system_disk_load";
    "total_cores"; "cores_used_by_service"; "cores_used_by_system";
    "total_system_memory"; "memory_used_by_system"; "memory_used_by_service";
    "available_memory"; "gc_pause_duration"; "stack_memory_usage";
    "heap_alloc_by_service"; "heap_alloc_by_system"; "total_alloc_by_service";
    "total_memory_by_os"; "total_disk_size";
    "bytes_sent"; "bytes_received";
    "service_health_percent"; "system_health_percent" ].

(** A host with two network interfaces whose probes all succeed. *)
Definition sampleProbes : Probes :=
  {| NumGoroutine := 12;
     GetCPULoad := (f64_of_Z 40, f64_of_Z 55);
     GetMemoryLoad := (f64_of_Z 20, f64_of_Z 60);
     GetDiskLoad := (f64_of_Z 30, f64_of_Z 500);
     VirtualMemory :=
       Some {| vmTotal := 8589934592; vmUsed := 4294967296;
               vmAvailable := 4294967296 |};
     IOCounters := Some [ {| ifBytesSent := 1000; ifBytesRecv := 3000 |};
                          {| ifBytesSent := 24; ifBytesRecv := 72 |} ];
     GetCPUPrecent := Some (f64_of_Z 55);
     getProcessUsage := Some (f64_of_Z 40);
     cpuCounts := fun logical => if logical then 8 else 4;
     RoundFloat64 := fun x _ => x |}.

(** ** The configuration builder *)

Section Builder.
(** Middleware and authentication functions are carried, never called. *)
Variables (Middleware AuthFunc : Type).

(** [Monigo], by the fields the builder sets and checks. *)
Record Monigo : Type := {
  ServiceName : string;
  DashboardPort : Z;
  DataPointsSyncFrequency : string;
  DataRetentionPeriod : string;
  TimeZone : string;
  CustomBaseAPIPath : string;
  MaxCPUUsage : float64;
  MaxMemoryUsage : float64;
  MaxGoRoutines : Z;
  DashboardMiddleware : list Middleware;
  APIMiddleware : list Middleware;
  AuthFunction : option AuthFunc;
  SamplingRate : Z;
  StorageType : string;
  Headless : bool
}.

(** [&Monigo{}] *)
Definition zeroMonigo : Monigo :=
  {| ServiceName := ""; DashboardPort := 0; DataPointsSyncFrequency := "";
     DataRetentionPeriod := ""; TimeZone := ""; CustomBaseAPIPath := "";
     MaxCPUUsage := f64_0; MaxMemoryUsage := f64_0; MaxGoRoutines := 0;
     DashboardMiddleware := []; APIMiddleware := []; AuthFunction := None;
     SamplingRate := 0; StorageType := ""; Headless := false |}.

(** The configurations the program holds are kept behind their pointers; a
    builder is the pointer to its [config]. *)
Definition NewBuilder (cs : gmap loc Monigo) : loc * gmap loc Monigo :=
  let config := fresh (dom cs) in
  (config, <[config := zeroMonigo]> cs).

(** A call of one of the builder's [With...] methods. *)
Inductive Setter : Type :=
| WithServiceName (serviceName : string)
| WithPort (port : Z)
| WithRetentionPeriod (period : string)
| WithDataPointsSyncFrequency (frequency : string)
| WithTimeZone (timeZone : string)
| WithCustomBaseAPIPath (path : string)
| WithMaxCPUUsage (usage : float64)
| WithMaxMemoryUsage (usage : float64)
| WithMaxGoRoutines (routines : Z)
| WithDashboardMiddleware (middleware : list Middleware)
| WithAPIMiddleware (middleware : list Middleware)
| WithAuthFunction (authFunc : option AuthFunc)
| WithSamplingRate (rate : Z)
| WithStorageType (storageType : string)
| WithHeadless (headless : bool).

(** The assignment a method makes to [b.config]. *)
Definition assign (c : Setter) (m : Monigo) : Monigo :=
  match c with
  | WithServiceName v =>
      {| ServiceName := v; DashboardPort := DashboardPort m;
         DataPointsSyncFrequency := DataPointsSyncFrequency m;
         DataRetentionPeriod := DataRetentionPeriod m; TimeZone := TimeZone m;
         CustomBaseAPIPath := CustomBaseAPIPath m;
         MaxCPUUsage := MaxCPUUsage m; MaxMemoryUsage := MaxMemoryUsage m;
         MaxGoRoutines := MaxGoRoutines m;
         DashboardMiddleware := DashboardMiddleware m;
         APIMiddleware := APIMiddleware m; AuthFunction := AuthFunction m;
         SamplingRate := SamplingRate m; StorageType := StorageType m;
         Headless := Headless m |}
  | WithPort v =>
      {| ServiceName := ServiceName m; DashboardPort := v;
         DataPointsSyncFrequency := DataPointsSyncFrequency m;
         DataRetentionPeriod := DataRetentionPeriod m; TimeZone := TimeZone m;
         CustomBaseAPIPath := CustomBaseAPIPath m;
         MaxCPUUsage := MaxCPUUsage m; MaxMemoryUsage := MaxMemoryUsage m;
         MaxGoRoutines := MaxGoRoutines m;
         DashboardMiddleware := DashboardMiddleware m;
         APIMiddleware := APIMiddleware m; AuthFunction := AuthFunction m;
         SamplingRate := SamplingRate m; StorageType := StorageType m;
         Headless := Headless m |}
  | WithRetentionPeriod v =>
      {| ServiceName := ServiceName m; DashboardPort := DashboardPort m;
         DataPointsSyncFrequency := DataPointsSyncFrequency m;
         DataRetentionPeriod := v; TimeZone := TimeZone m;
         CustomBaseAPIPath := CustomBaseAPIPath m;
         MaxCPUUsage := MaxCPUUsage m; MaxMemoryUsage := MaxMemoryUsage m;
         MaxGoRoutines := MaxGoRoutines m;
         DashboardMiddleware := DashboardMiddleware m;
         APIMiddleware := APIMiddleware m; AuthFunction := AuthFunction m;
         SamplingRate := SamplingRate m; StorageType := StorageType m;
         Headless := Headless m |}
  | WithDataPointsSyncFrequency v =>
      {| ServiceName := ServiceName m; DashboardPort := DashboardPort m;
         DataPointsSyncFrequency := v;
         DataRetentionPeriod := DataRetentionPeriod m; TimeZone := TimeZone m;
         CustomBaseAPIPath := CustomBaseAPIPath m;
         MaxCPUUsage := MaxCPUUsage m; MaxMemoryUsage := MaxMemoryUsage m;
         MaxGoRoutines := MaxGoRoutines m;
         DashboardMiddleware := DashboardMiddleware m;
         APIMiddleware := APIMiddleware m; AuthFunction := AuthFunction m;
         SamplingRate := SamplingRate m; StorageType := StorageType m;
         Headless := Headless m |}
  | WithTimeZone v =>
      {| ServiceName := ServiceName m; DashboardPort := DashboardPort m;
         DataPointsSyncFrequency := DataPointsSyncFrequency m;
         DataRetentionPeriod := DataRetentionPeriod m; TimeZone := v;
         CustomBaseAPIPath := CustomBaseAPIPath m;
         MaxCPUUsage := MaxCPUUsage m; MaxMemoryUsage := MaxMemoryUsage m;
         MaxGoRoutines := MaxGoRoutines m;
         DashboardMiddleware := DashboardMiddleware m;
         APIMiddleware := APIMiddleware m; AuthFunction := AuthFunction m;
         SamplingRate := SamplingRate m; StorageType := StorageType m;
         Headless := Headless m |}
  | WithCustomBaseAPIPath v =>
      {| ServiceName := ServiceName m; DashboardPort := DashboardPort m;
         DataPointsSyncFrequency := DataPointsSyncFrequency m;
         DataRetentionPeriod := DataRetentionPeriod m; TimeZone := TimeZone m;
         CustomBaseAPIPath := v;
         MaxCPUUsage := MaxCPUUsage m; MaxMemoryUsage := MaxMemoryUsage m;
         MaxGoRoutines := MaxGoRoutines m;
         DashboardMiddleware := DashboardMiddleware m;
         APIMiddleware := APIMiddleware m; AuthFunction := AuthFunction m;
         SamplingRate := SamplingRate m; StorageType := StorageType m;
         Headless := Headless m |}
  | WithMaxCPUUsage v =>
      {| ServiceName := ServiceName m; DashboardPort := DashboardPort m;
         DataPointsSyncFrequency := DataPointsSyncFrequency m;
         DataRetentionPeriod := DataRetentionPeriod m; TimeZone := TimeZone m;
         CustomBaseAPIPath := CustomBaseAPIPath m;
         MaxCPUUsage := v; MaxMemoryUsage := MaxMemoryUsage m;
         MaxGoRoutines := MaxGoRoutines m;
         DashboardMiddleware := DashboardMiddleware m;
         APIMiddleware := APIMiddleware m; AuthFunction := AuthFunction m;
         SamplingRate := SamplingRate m; StorageType := StorageType m;
         Headless := Headless m |}
  | WithMaxMemoryUsage v =>
      {| ServiceName := ServiceName m; DashboardPort := DashboardPort m;
         DataPointsSyncFrequency := DataPointsSyncFrequency m;
         DataRetentionPeriod := DataRetentionPeriod m; TimeZone := TimeZone m;
         CustomBaseAPIPath := CustomBaseAPIPath m;
         MaxCPUUsage := MaxCPUUsage m; MaxMemoryUsage := v;
         MaxGoRoutines := MaxGoRoutines m;
         DashboardMiddleware := DashboardMiddleware m;
         APIMiddleware := APIMiddleware m; AuthFunction := AuthFunction m;
         SamplingRate := SamplingRate m; StorageType := StorageType m;
         Headless := Headless m |}
  | WithMaxGoRoutines v =>
      {| ServiceName := ServiceName m; DashboardPort := DashboardPort m;
         DataPointsSyncFrequency := DataPointsSyncFrequency m;
         DataRetentionPeriod := DataRetentionPeriod m; TimeZone := TimeZone m;
         CustomBaseAPIPath := CustomBaseAPIPath m;
         MaxCPUUsage := MaxCPUUsage m; MaxMemoryUsage := MaxMemoryUsage m;
         MaxGoRoutines := v;
         DashboardMiddleware := DashboardMiddleware m;
         APIMiddleware := APIMiddleware m; AuthFunction := AuthFunction m;
         SamplingRate := SamplingRate m; StorageType := StorageType m;
         Headless := Headless m |}
  | WithDashboardMiddleware v =>
      {| ServiceName := ServiceName m; DashboardPort := DashboardPort m;
         DataPointsSyncFrequency := DataPointsSyncFrequency m;
         DataRetentionPeriod := DataRetentionPeriod m; TimeZone := TimeZone m;
         CustomBaseAPIPath := CustomBaseAPIPath m;
         MaxCPUUsage := MaxCPUUsage m; MaxMemoryUsage := MaxMemoryUsage m;
         MaxGoRoutines := MaxGoRoutines m;
         DashboardMiddleware := v;
         APIMiddleware := APIMiddleware m; AuthFunction := AuthFunction m;
         SamplingRate := SamplingRate m; StorageType := StorageType m;
         Headless := Headless m |}
  | WithAPIMiddleware v =>
      {| ServiceName := ServiceName m; DashboardPort := DashboardPort m;
         DataPointsSyncFrequency := DataPointsSyncFrequency m;
         DataRetentionPeriod := DataRetentionPeriod m; TimeZone := TimeZone m;
         CustomBaseAPIPath := CustomBaseAPIPath m;
         MaxCPUUsage := MaxCPUUsage m; MaxMemoryUsage := MaxMemoryUsage m;
         MaxGoRoutines := MaxGoRoutines m;
         DashboardMiddleware := DashboardMiddleware m;
         APIMiddleware := v; AuthFunction := AuthFunction m;
         SamplingRate := SamplingRate m; StorageType := StorageType m;
         Headless := Headless m |}
  | WithAuthFunction v =>
      {| ServiceName := ServiceName m; DashboardPort := DashboardPort m;
         DataPointsSyncFrequency := DataPointsSyncFrequency m;
         DataRetentionPeriod := DataRetentionPeriod m; TimeZone := TimeZone m;
         CustomBaseAPIPath := CustomBaseAPIPath m;
         MaxCPUUsage := MaxCPUUsage m; MaxMemoryUsage := MaxMemoryUsage m;
         MaxGoRoutines := MaxGoRoutines m;
         DashboardMiddleware := DashboardMiddleware m;
         APIMiddleware := APIMiddleware m; AuthFunction := v;
         SamplingRate := SamplingRate m; StorageType := StorageType m;
         Headless := Headless m |}
  | WithSamplingRate v =>
      {| ServiceName := ServiceName m; DashboardPort := DashboardPort m;
         DataPointsSyncFrequency := DataPointsSyncFrequency m;
         DataRetentionPeriod := DataRetentionPeriod m; TimeZone := TimeZone m;
         CustomBaseAPIPath := CustomBaseAPIPath m;
         MaxCPUUsage := MaxCPUUsage m; MaxMemoryUsage := MaxMemoryUsage m;
         MaxGoRoutines := MaxGoRoutines m;
         DashboardMiddleware := DashboardMiddleware m;
         APIMiddleware := APIMiddleware m; AuthFunction := AuthFunction m;
         SamplingRate := v; StorageType := StorageType m;
         Headless := Headless m |}
  | WithStorageType v =>
      {| ServiceName := ServiceName m; DashboardPort := DashboardPort m;
         DataPointsSyncFrequency := DataPointsSyncFrequency m;
         DataRetentionPeriod := DataRetentionPeriod m; TimeZone := TimeZone m;
         CustomBaseAPIPath := CustomBaseAPIPath m;
         MaxCPUUsage := MaxCPUUsage m; MaxMemoryUsage := MaxMemoryUsage m;
         MaxGoRoutines := MaxGoRoutines m;
         DashboardMiddleware := DashboardMiddleware m;
         APIMiddleware := APIMiddleware m; AuthFunction := AuthFunction m;
         SamplingRate := SamplingRate m; StorageType := v;
         Headless := Headless m |}
  | WithHeadless v =>
      {| ServiceName := ServiceName m; DashboardPort := DashboardPort m;
         DataPointsSyncFrequency := DataPointsSyncFrequency m;
         DataRetentionPeriod := DataRetentionPeriod m; TimeZone := TimeZone m;
         CustomBaseAPIPath := CustomBaseAPIPath m;
         MaxCPUUsage := MaxCPUUsage m; MaxMemoryUsage := MaxMemoryUsage m;
         MaxGoRoutines := MaxGoRoutines m;
         DashboardMiddleware := DashboardMiddleware m;
         APIMiddleware := APIMiddleware m; AuthFunction := AuthFunction m;
         SamplingRate := SamplingRate m; StorageType := StorageType m;
         Headless := v |}
  end.

(** A method called on the builder [b]: it writes through [b.config] and
    returns [b]. *)
Definition callSetter (b : loc) (c : Setter) (cs : gmap loc Monigo)
    : gmap loc Monigo :=
  alter (assign c) b cs.

Definition callSetters (b : loc) (calls : list Setter) (cs : gmap loc Monigo)
    : gmap loc Monigo :=
  foldl (fun cs c => callSetter b c cs) cs calls.

(** The checks of [Build], in their order: the message of the first that
    fails. *)
Definition buildError (m : Monigo) : option string :=
  if String.eqb (ServiceName m) "" then
    Some "[MoniGo] Build() failed: ServiceName is required. Use WithServiceName()"
  else if (DashboardPort m <? 0) || (65535 <? DashboardPort m) then
    Some "[MoniGo] Build() failed: DashboardPort must be between 0 and 65535"
  else if SamplingRate m <? 0 then
    Some "[MoniGo] Build() failed: SamplingRate must be >= 0"
  else if negb (String.eqb (StorageType m) "")
          && negb (String.eqb (StorageType m) "disk")
          && negb (String.eqb (StorageType m) "memory") then
    Some "[MoniGo] Build() failed: StorageType must be 'disk' or 'memory'"
  else None.

(** How [Build] ends. *)
Inductive Built : Type :=
| BuildPanics (message : string)
| BuildReturns (config : loc).

Definition Build (b : loc) (cs : gmap loc Monigo) : Built :=
  match cs !! b with
  | Some m =>
      match buildError m with
      | Some message => BuildPanics message
      | None => BuildReturns b
      end
  | None => BuildPanics "nil pointer dereference"
  end.

End Builder.

Arguments ServiceName {Middleware AuthFunc} _.
Arguments DashboardPort {Middleware AuthFunc} _.
Arguments SamplingRate {Middleware AuthFunc} _.
Arguments StorageType {Middleware AuthFunc} _.
Arguments zeroMonigo {Middleware AuthFunc}.
Arguments NewBuilder {Middleware AuthFunc} cs.
Arguments WithServiceName {Middleware AuthFunc} serviceName.
Arguments WithPort {Middleware AuthFunc} port.
Arguments WithSamplingRate {Middleware AuthFunc} rate.
Arguments WithStorageType {Middleware AuthFunc} storageType.
Arguments assign {Middleware AuthFunc} c m.
Arguments callSetter {Middleware AuthFunc} b c cs.
Arguments callSetters {Middleware AuthFunc} b calls cs.
Arguments buildError {Middleware AuthFunc} m.
Arguments Build {Middleware AuthFunc} b cs.

(** ** setDashboardPort *)

(** Whether [net.Listen] on a port succeeds. *)
Class Network : Type := { canListen : Z -> bool }.

Inductive PortLog : Type :=
| LogPortNotProvided
| LogInvalidPort
| LogPortInUse (port : Z).

(** The port the instance is left with and the lines logged, or the panic
    when the default port cannot be bound either. *)
Definition setDashboardPort `{NW : Network} (dashboardPort : Z)
    : option Z * list PortLog :=
  let defaultPort := 8080 in
  let '(port, logs) :=
    if (dashboardPort <? 1) || (65535 <? dashboardPort) then
      (defaultPort,
       [if dashboardPort =? 0 then LogPortNotProvided else LogInvalidPort])
    else (dashboardPort, []) in
  if canListen port then (Some port, logs)
  else if canListen defaultPort then
    (Some defaultPort, logs ++ [LogPortInUse port])
  else (None, logs ++ [LogPortInUse port]).

(** A host on which every port but 9090 can be bound. *)
Definition sampleNetwork : Network := {| canListen := fun p => negb (p =? 9090) |}.

(** ** formatUptime *)

(** [time.Duration] counts nanoseconds in an [int64]; its [Hours],
    [Minutes] and [Seconds] split the count with Go's truncated division
    before they convert, so that the whole part is exact. *)
Definition nsPerSecond : Z := 1000000000.
Definition nsPerMinute : Z := 60 * nsPerSecond.
Definition nsPerHour : Z := 60 * nsPerMinute.

Definition Hours (d : Z) : float64 :=
  f64_add (f64_of_Z (Z.quot d nsPerHour))
    (f64_div (f64_of_Z (Z.rem d nsPerHour)) (f64_of_Z 3600000000000)).

Definition Minutes (d : Z) : float64 :=
  f64_add (f64_of_Z (Z.quot d nsPerMinute))
    (f64_div (f64_of_Z (Z.rem d nsPerMinute)) (f64_of_Z 60000000000)).

Definition Seconds (d : Z) : float64 :=
  f64_add (f64_of_Z (Z.quot d nsPerSecond))
    (f64_div (f64_of_Z (Z.rem d nsPerSecond)) (f64_of_Z 1000000000)).

Definition f64_1 : float64 := Eval vm_compute in f64_of_Z 1.
Definition f64_24 : float64 := Eval vm_compute in f64_of_Z 24.
Definition f64_720 : float64 := Eval vm_compute in f64_of_Z (30 * 24).
Definition f64_8640 : float64 := Eval vm_compute in f64_of_Z (12 * 30 * 24).

(** [fmt.Sprintf("%.2f", x)] *)
Class Formatter : Type := { Sprintf_2f : float64 -> string }.

Definition formatUptime `{FT : Formatter} (uptime : Z) : string :=
  let hours := Hours uptime in
  if f64_gt hours f64_8640 then Sprintf_2f (f64_div hours f64_8640) +:+ " y"
  else if f64_gt hours f64_720 then Sprintf_2f (f64_div hours f64_720) +:+ " mo"
  else if f64_gt hours f64_24 then Sprintf_2f (f64_div hours f64_24) +:+ " d"
  else if f64_gt hours f64_1 then Sprintf_2f hours +:+ " h"
  else if f64_gt (Minutes uptime) f64_1 then
    Sprintf_2f (Minutes uptime) +:+ " m"
  else Sprintf_2f (Seconds uptime) +:+ " s".

(** The unit [formatUptime] picks for a whole number of seconds below an
    hour, against the count of seconds. *)
Definition subHourChecked (s : Z) : bool :=
  let d := s * nsPerSecond in
  negb (f64_gt (Hours d) f64_8640)
  && negb (f64_gt (Hours d) f64_720)
  && negb (f64_gt (Hours d) f64_24)
  && negb (f64_gt (Hours d) f64_1)
  && Bool.eqb (f64_gt (Minutes d) f64_1) (60 <? s).

Fixpoint allSubHourChecked (n : nat) (s : Z) : bool :=
  match n with
  | O => true
  | S n' => subHourChecked s && allSubHourChecked n' (s + 1)
  end.

(** The mantissa and exponent of a positive integer of at most 53 bits
    once it is aligned to the 53 bits of a [float64]. *)
Definition alignedPair (p : positive) : positive * Z :=
  shl_align p 0 (Z.pos (digits2_pos p) - 53).

(* ================================================================== *)
(** * Properties *)
(* ================================================================== *)

(** ** Arithmetic of the sampling rule *)

Lemma to_uint64_small (x : Z) : 0 <= x < uint64_mod -> to_uint64 x = x.
Proof. intros Hx. unfold to_uint64. apply Z.mod_small. exact Hx. Qed.

Lemma to_uint64_range (x : Z) : 0 <= to_uint64 x < uint64_mod.
Proof. unfold to_uint64, uint64_mod. apply Z.mod_pos_bound. lia. Qed.

(** Stepping the counter by one moves the quotient by one exactly at the
    multiples of the rate. *)
Lemma div_succ_step (k r : Z) :
  0 <= k -> 1 <= r ->
  (k + 1) / r = k / r + (if (k + 1) mod r =? 0 then 1 else 0).
Proof.
  intros Hk Hr.
  pose proof (Z.div_mod k r ltac:(lia)) as Hdm.
  pose proof (Z.mod_pos_bound k r ltac:(lia)) as Hm.
  destruct (Z.eq_dec (k mod r + 1) r) as [Heq | Hne].
  - assert (Hmod : (k + 1) mod r = 0)
      by (symmetry; apply Z.mod_unique with (q := k / r + 1); lia).
    assert (Hdiv : (k + 1) / r = k / r + 1)
      by (symmetry; apply Z.div_unique with (r := 0); lia).
    rewrite Hmod, Hdiv. reflexivity.
  - assert (Hmod : (k + 1) mod r = k mod r + 1)
      by (symmetry; apply Z.mod_unique with (q := k / r); lia).
    assert (Hdiv : (k + 1) / r = k / r)
      by (symmetry; apply Z.div_unique with (r := k mod r + 1); lia).
    rewrite Hmod, Hdiv.
    destruct (Z.eqb_spec (k mod r + 1) 0); lia.
Qed.

Lemma countStarts_app (a b : list Event) :
  countStarts (a ++ b) = countStarts a + countStarts b.
Proof. induction a as [| e a IH]; simpl; [reflexivity | rewrite IH; lia]. Qed.

Lemma countInvokes_app (a b : list Event) :
  countInvokes (a ++ b) = countInvokes a + countInvokes b.
Proof. induction a as [| e a IH]; simpl; [reflexivity | rewrite IH; lia]. Qed.

(** ** What one profiled or unprofiled invocation does to the state *)

Section ProfilerFacts.
Context `{RT : Runtime}.

Lemma updateMetrics_frame name sp start el g mu cp mp st :
  samplingRate (updateMetrics name sp start el g mu cp mp st) = samplingRate st
  /\ callCounters (updateMetrics name sp start el g mu cp mp st) = callCounters st
  /\ events (updateMetrics name sp start el g mu cp mp st) = events st.
Proof.
  unfold updateMetrics.
  destruct (functionMetrics st !! name) as [l |]; [| done].
  destruct (heap st !! l); done.
Qed.

Ltac frame_update H1 H2 H3 :=
  match goal with
  | |- context [updateMetrics ?a ?b ?c ?d ?e ?f ?g ?h ?s] =>
      destruct (updateMetrics_frame a b c d e f g h s) as (H1 & H2 & H3)
  end.

Lemma execute_samplingRate name fn env st :
  samplingRate (executeFunctionWithProfiling name fn env st) = samplingRate st.
Proof.
  unfold executeFunctionWithProfiling, bumpCounter.
  simpl. frame_update H1 H2 H3. rewrite H1.
  repeat (case_match; simpl); reflexivity.
Qed.

Lemma execute_callCounters name fn env st :
  callCounters (executeFunctionWithProfiling name fn env st)
  = <[name := nextCount name st]> (callCounters st).
Proof.
  unfold executeFunctionWithProfiling, bumpCounter.
  simpl. frame_update H1 H2 H3. rewrite H2.
  repeat (case_match; simpl); reflexivity.
Qed.

Lemma execute_events name fn env st :
  let sp := shouldProfileAt (nextCount name st) (samplingRate st) in
  events (executeFunctionWithProfiling name fn env st)
  = events st
    ++ (if sp then
          [EvMkdirAll folderPath; EvStartCPUProfile (cpuProfPath name)]
          ++ (if cpuProfileFails env then [EvLog LogCPUProfileFailed] else [])
        else [])
    ++ [EvInvoke (target fn) (targetArgs fn)]
    ++ (if sp then [EvStopCPUProfile; EvWriteHeapProfile (memProfPath name)]
        else []).
Proof.
  unfold executeFunctionWithProfiling, bumpCounter.
  simpl. frame_update H1 H2 H3. rewrite H3. unfold nextCount. simpl.
  destruct (shouldProfileAt _ _); simpl.
  - destruct (cpuProfileFails env); simpl; rewrite <- ?app_assoc; reflexivity.
  - reflexivity.
Qed.

Lemma execute_profilingRuns name fn env st :
  profilingRuns (executeFunctionWithProfiling name fn env st)
  = profilingRuns st
    + (if shouldProfileAt (nextCount name st) (samplingRate st) then 1 else 0).
Proof.
  unfold profilingRuns. rewrite execute_events. simpl.
  destruct (shouldProfileAt _ _); destruct (cpuProfileFails env);
    rewrite ?countStarts_app; simpl; lia.
Qed.

Lemma execute_invocations name fn env st :
  invocations (executeFunctionWithProfiling name fn env st)
  = invocations st + 1.
Proof.
  unfold invocations. rewrite execute_events. simpl.
  destruct (shouldProfileAt _ _); destruct (cpuProfileFails env);
    rewrite ?countInvokes_app; simpl; lia.
Qed.

End ProfilerFacts.

(** ** Sampling: sequences of calls of one identity *)

Section Sampling.
Context `{RT : Runtime}.

(** A call that passes validation runs the profiler under its identity. *)
Lemma runCall_valid c name env st :
  identityOf c = Some name ->
  exists fn, runCall c env st = executeFunctionWithProfiling name fn env st.
Proof.
  destruct c as [f | f args | f args | f args]; simpl.
  - intros [= <-]. eexists. reflexivity.
  - unfold reflectiveIdentity, TraceFunctionWithArgs.
    destruct f as [| fn ty | ty p]; try discriminate.
    destruct (negb _); try discriminate.
    destruct (checkArgs 0 args (paramTypes fn)); try discriminate.
    intros [= <-]. eexists. reflexivity.
  - unfold reflectiveIdentity, TraceFunctionWithReturns.
    destruct f as [| fn ty | ty p]; try discriminate.
    destruct (negb _); try discriminate.
    destruct (checkArgs 0 args (paramTypes fn)); try discriminate.
    intros [= <-]. eexists. reflexivity.
  - unfold reflectiveIdentity, TraceFunctionWithReturn, TraceFunctionWithReturns.
    destruct f as [| fn ty | ty p]; try discriminate.
    destruct (negb _); try discriminate.
    destruct (checkArgs 0 args (paramTypes fn)); try discriminate.
    intros [= <-]. exists (mkThunk fn args).
    destruct (callTarget fn args); reflexivity.
Qed.

Lemma shouldProfileAt_rate (count r : Z) :
  1 <= r <= int64_max ->
  shouldProfileAt count r = (count mod r =? 0).
Proof.
  intros Hr. unfold shouldProfileAt.
  rewrite to_uint64_small; [reflexivity |].
  unfold int64_max, uint64_mod in *. lia.
Qed.

(** One valid call, when the counter stands at [k]. *)
Lemma runCall_step c name env st r k :
  identityOf c = Some name ->
  samplingRate st = r -> 1 <= r <= int64_max ->
  counterOf (callCounters st) name = k -> 0 <= k -> k + 1 < uint64_mod ->
  let st' := runCall c env st in
  counterOf (callCounters st') name = k + 1
  /\ profilingRuns st' = profilingRuns st + (if (k + 1) mod r =? 0 then 1 else 0)
  /\ invocations st' = invocations st + 1
  /\ samplingRate st' = r.
Proof.
  intros Hid Hrate Hr Hk Hk0 Hk1 st'. subst st'.
  destruct (runCall_valid c name env st Hid) as [fn ->].
  assert (Hnext : nextCount name st = k + 1).
  { unfold nextCount, uint64_add. rewrite Hk. apply to_uint64_small. lia. }
  rewrite execute_profilingRuns, execute_invocations, execute_samplingRate,
    execute_callCounters.
  rewrite Hnext, Hrate, (shouldProfileAt_rate _ _ Hr).
  unfold counterOf. rewrite lookup_insert_eq. simpl. auto.
Qed.

Lemma runCalls_sampling name r (cs : list (TraceCall * Env)) :
  forall st k,
  Forall (fun ce => identityOf (fst ce) = Some name) cs ->
  samplingRate st = r -> 1 <= r <= int64_max ->
  counterOf (callCounters st) name = k -> 0 <= k ->
  k + Z.of_nat (length cs) < uint64_mod ->
  let st' := runCalls cs st in
  counterOf (callCounters st') name = k + Z.of_nat (length cs)
  /\ profilingRuns st' = profilingRuns st + ((k + Z.of_nat (length cs)) / r - k / r)
  /\ invocations st' = invocations st + Z.of_nat (length cs)
  /\ samplingRate st' = r.
Proof.
  induction cs as [| [c env] cs IH]; intros st k Hall Hrate Hr Hk Hk0 Hlen.
  - simpl. rewrite Z.add_0_r. repeat split; try lia; assumption.
  - apply Forall_cons in Hall as [Hc Hcs]. simpl in Hc.
    simpl length in *. rewrite Nat2Z.inj_succ in *.
    destruct (runCall_step c name env st r k Hc Hrate Hr
                Hk Hk0 ltac:(lia)) as (Hc1 & Hp1 & Hi1 & Hr1).
    specialize (IH (runCall c env st) (k + 1) Hcs Hr1 Hr Hc1 ltac:(lia) ltac:(lia)).
    destruct IH as (Hc2 & Hp2 & Hi2 & Hr2).
    simpl. rewrite Hc2, Hp2, Hi2, Hr2, Hp1, Hi1.
    rewrite (div_succ_step k r) by lia.
    replace (k + 1 + Z.of_nat (length cs)) with (k + Z.succ (Z.of_nat (length cs)))
      by lia.
    repeat split; lia.
Qed.

Lemma runCalls_app (cs1 cs2 : list (TraceCall * Env)) st :
  runCalls (cs1 ++ cs2) st = runCalls cs2 (runCalls cs1 st).
Proof.
  revert st. induction cs1 as [| [c env] cs1 IH]; intros st; simpl; [done |].
  apply IH.
Qed.

End Sampling.

(** C1.  Sampling rule.  Let the rate be set to [r >= 1] with
    [SetSamplingRate] and let [cs] be [N] calls through the trace entry
    points that all carry the same identity [name], an identity not called
    before, with [N] below the range of the [uint64] counter.  Then
    - exactly [N / r] of the calls start a profiling run;
    - the [i]-th call (from 0) leaves the counter of [name] at [i + 1], so the
      first call leaves it at 1, and it is profiled iff [(i + 1) mod r = 0];
    - a requested rate below 1 is stored as 1, and at rate 1 every call is
      profiled;
    - after initialisation the rate is 100, and of the first 99 calls none is
      profiled, while the 100th is. *)
Theorem C1_sampling_rule `{RT : Runtime} (r : Z) (name : string)
    (cs : list (TraceCall * Env)) (st : State) :
  1 <= r <= int64_max ->
  Forall (fun ce => identityOf (fst ce) = Some name) cs ->
  callCounters st !! name = None ->
  Z.of_nat (length cs) < uint64_mod ->
  let st0 := SetSamplingRate r st in
  profilingRuns (runCalls cs st0) - profilingRuns st0 = Z.of_nat (length cs) / r
  /\ (forall (i : nat) c env, cs !! i = Some (c, env) ->
        let before := runCalls (take i cs) st0 in
        let after := runCall c env before in
        counterOf (callCounters after) name = Z.of_nat i + 1
        /\ profilingRuns after - profilingRuns before
           = (if (Z.of_nat i + 1) mod r =? 0 then 1 else 0))
  /\ (forall q, q < 1 -> SetSamplingRate q st = SetSamplingRate 1 st)
  /\ (r = 1 ->
      profilingRuns (runCalls cs st0) - profilingRuns st0 = Z.of_nat (length cs))
  /\ samplingRate initState = 100
  /\ ((length cs <= 99)%nat -> profilingRuns (runCalls cs initState) = 0)
  /\ (length cs = 100%nat -> profilingRuns (runCalls cs initState) = 1).
Proof.
  intros Hr Hall Hfresh Hlen st0.
  assert (Hrate0 : samplingRate st0 = r).
  { subst st0. unfold SetSamplingRate. simpl. destruct (Z.ltb_spec r 1); lia. }
  assert (Hk0 : counterOf (callCounters st0) name = 0).
  { subst st0. unfold counterOf, SetSamplingRate. simpl. by rewrite Hfresh. }
  destruct (runCalls_sampling name r cs st0 0 Hall Hrate0 Hr Hk0 ltac:(lia)
              ltac:(lia)) as (_ & Hruns & _ & _).
  rewrite Z.add_0_l, Z.div_0_l, Z.sub_0_r in Hruns by lia.
  split; [lia |].
  split.
  { intros i c env Hi before after.
    assert (Hile : (i < length cs)%nat) by (eapply lookup_lt_Some; eassumption).
    assert (Htake : Forall (fun ce => identityOf (fst ce) = Some name) (take i cs))
      by (apply Forall_take; assumption).
    destruct (runCalls_sampling name r (take i cs) st0 0 Htake Hrate0 Hr Hk0
                ltac:(lia) ltac:(rewrite length_take; lia)) as (Hc & _ & _ & Hrt).
    rewrite length_take, Nat.min_l, Z.add_0_l in Hc by lia.
    assert (Hc_id : identityOf c = Some name).
    { rewrite Forall_lookup in Hall. exact (Hall i (c, env) Hi). }
    destruct (runCall_step c name env before r (Z.of_nat i) Hc_id Hrt Hr Hc
                ltac:(lia) ltac:(lia)) as (Hc1 & Hp1 & _ & _).
    subst after. split; [exact Hc1 | lia]. }
  split.
  { intros q Hq. unfold SetSamplingRate.
    destruct (Z.ltb_spec q 1); [reflexivity | lia]. }
  split.
  { intros ->. rewrite Z.div_1_r in Hruns. lia. }
  split; [reflexivity |].
  assert (Hinit : profilingRuns (runCalls cs initState)
                  = Z.of_nat (length cs) / 100).
  { destruct (runCalls_sampling name 100 cs initState 0 Hall eq_refl
                ltac:(unfold int64_max; lia) eq_refl ltac:(lia) ltac:(lia))
      as (_ & Hp & _ & _).
    rewrite Hp. unfold profilingRuns. simpl. rewrite Z.add_0_l, Z.sub_0_r.
    reflexivity. }
  split.
  - intros Hle. rewrite Hinit. apply Z.div_small. lia.
  - intros Heq. rewrite Hinit, Heq. reflexivity.
Qed.

Lemma C1_sampling_rule_witness :
  1 <= 3 <= int64_max
  /\ Forall (fun ce => identityOf (RT := sampleRuntime) (fst ce)
                       = Some "github.com-acme-app.work") sampleCalls
  /\ callCounters initState !! "github.com-acme-app.work" = None
  /\ Z.of_nat (length sampleCalls) < uint64_mod
  /\ profilingRuns (runCalls (RT := sampleRuntime) sampleCalls
                      (SetSamplingRate 3 initState))
     - profilingRuns (SetSamplingRate 3 initState)
     = Z.of_nat (length sampleCalls) / 3.
Proof.
  assert (H1 : 1 <= 3 <= int64_max) by (unfold int64_max; lia).
  assert (H2 : Forall (fun ce => identityOf (RT := sampleRuntime) (fst ce)
                       = Some "github.com-acme-app.work") sampleCalls)
    by (repeat constructor).
  assert (H3 : callCounters initState !! "github.com-acme-app.work" = None)
    by reflexivity.
  assert (H4 : Z.of_nat (length sampleCalls) < uint64_mod) by reflexivity.
  split; [exact H1 |]. split; [exact H2 |]. split; [exact H3 |].
  split; [exact H4 |].
  exact (proj1 (C1_sampling_rule (RT := sampleRuntime) 3
                  "github.com-acme-app.work" sampleCalls initState H1 H2 H3 H4)).
Defined.

(** ** The metrics table under one invocation *)

Section TableFacts.
Context `{RT : Runtime}.

(** The profiler reaches the table update with the table and heap it
    started from. *)
Lemma execute_update name fn env st :
  let sp := shouldProfileAt (nextCount name st) (samplingRate st) in
  exists st1,
    functionMetrics st1 = functionMetrics st /\ heap st1 = heap st
    /\ executeFunctionWithProfiling name fn env st
       = updateMetrics name sp (startTime env) (elapsedTime env)
           (finalGoroutinesOf env) (memoryUsageOf sp env)
           (if sp then cpuProfPath name else "")
           (if sp then memProfPath name else "") st1.
Proof.
  intros sp. unfold executeFunctionWithProfiling, bumpCounter. simpl.
  fold (nextCount name st). fold sp.
  eexists. split; [| split; [| reflexivity]].
  - destruct sp; [destruct (cpuProfileFails env) |]; reflexivity.
  - destruct sp; [destruct (cpuProfileFails env) |]; reflexivity.
Qed.

Lemma updateMetrics_table_heap name sp start el g mu cp mp st :
  wf st ->
  let st' := updateMetrics name sp start el g mu cp mp st in
  exists l,
    functionMetrics st' = <[name := l]> (functionMetrics st)
    /\ (forall old, lookupMetrics st name = Some old ->
          functionMetrics st !! name = Some l
          /\ heap st' = <[l :=
               {| FunctionLastRanAt := start;
                  CPUProfileFilePath := if sp then cp else CPUProfileFilePath old;
                  MemProfileFilePath := if sp then mp else MemProfileFilePath old;
                  MemoryUsage := if sp then mu else MemoryUsage old;
                  GoroutineCount := g;
                  ExecutionTime := el |}]> (heap st))
    /\ (lookupMetrics st name = None ->
          functionMetrics st !! name = None /\ l = fresh (dom (heap st))
          /\ heap st' = <[l :=
               {| FunctionLastRanAt := start;
                  CPUProfileFilePath := cp;
                  MemProfileFilePath := mp;
                  MemoryUsage := mu;
                  GoroutineCount := g;
                  ExecutionTime := el |}]> (heap st)).
Proof.
  intros [Hdang Hinj] st'. subst st'. unfold updateMetrics, lookupMetrics.
  destruct (functionMetrics st !! name) as [l |] eqn:Hl.
  - destruct (Hdang name l Hl) as [m Hm]. rewrite Hm. exists l. simpl.
    split; [symmetry; by apply insert_id |].
    split; [| discriminate].
    intros old [= <-]. split; [reflexivity |]. destruct sp; reflexivity.
  - exists (fresh (dom (heap st))). simpl.
    split; [reflexivity |]. split; [discriminate |]. auto.
Qed.

Lemma updateMetrics_wf name sp start el g mu cp mp st :
  wf st -> wf (updateMetrics name sp start el g mu cp mp st).
Proof.
  intros Hwf.
  destruct (updateMetrics_table_heap name sp start el g mu cp mp st Hwf)
    as (l & Ht & Hold & Hnew).
  destruct Hwf as [Hdang Hinj].
  destruct (lookupMetrics st name) as [old |] eqn:Hlk.
  - destruct (Hold old eq_refl) as [Hl Hh]. clear Hold Hnew.
    rewrite insert_id in Ht by exact Hl.
    split.
    + intros n l0. rewrite Ht, Hh. intros Hn.
      destruct (decide (l = l0)) as [-> | Hne].
      * rewrite lookup_insert_eq. eauto.
      * rewrite lookup_insert_ne by exact Hne. eauto.
    + intros n1 n2 l0. rewrite Ht. apply Hinj.
  - destruct (Hnew eq_refl) as (Hl & Hfresh & Hh). clear Hold Hnew.
    assert (Hnot : heap st !! l = None).
    { rewrite Hfresh. apply not_elem_of_dom, is_fresh. }
    split.
    + intros n l0. rewrite Ht, Hh.
      destruct (decide (name = n)) as [<- | Hne].
      * rewrite lookup_insert_eq. intros [= <-]. rewrite lookup_insert_eq. eauto.
      * rewrite lookup_insert_ne by exact Hne. intros Hn.
        destruct (Hdang n l0 Hn) as [m0 Hm0].
        rewrite lookup_insert_ne by congruence. eauto.
    + intros n1 n2 l0. rewrite Ht.
      destruct (decide (name = n1)) as [<- | Hne1];
        destruct (decide (name = n2)) as [<- | Hne2];
        rewrite ?lookup_insert_eq, ?lookup_insert_ne by assumption;
        try done.
      * intros [= <-] Hn2. destruct (Hdang n2 l Hn2) as [m0 Hm0]. congruence.
      * intros Hn1 [= <-]. destruct (Hdang n1 l Hn1) as [m0 Hm0]. congruence.
      * apply Hinj.
Qed.

(** The record of the invoked identity, and the records of the others. *)
Lemma execute_lookup name fn env st :
  wf st ->
  let sp := shouldProfileAt (nextCount name st) (samplingRate st) in
  let st' := executeFunctionWithProfiling name fn env st in
  lookupMetrics st' name = Some (recordAfter name sp env (lookupMetrics st name))
  /\ (forall other, other <> name ->
        lookupMetrics st' other = lookupMetrics st other).
Proof.
  intros Hwf sp st'.
  destruct (execute_update name fn env st) as (st1 & Ht1 & Hh1 & Hex).
  fold sp in Hex. subst st'. rewrite Hex. clear Hex.
  assert (Hwf1 : wf st1) by (unfold wf; rewrite Ht1, Hh1; exact Hwf).
  assert (Hlk1 : forall n, lookupMetrics st1 n = lookupMetrics st n)
    by (intros n; unfold lookupMetrics; rewrite Ht1, Hh1; reflexivity).
  rewrite <- (Hlk1 name).
  destruct (updateMetrics_table_heap name sp (startTime env) (elapsedTime env)
             (finalGoroutinesOf env) (memoryUsageOf sp env)
             (if sp then cpuProfPath name else "")
             (if sp then memProfPath name else "") st1 Hwf1)
    as (l & Ht & Hold & Hnew).
  destruct Hwf1 as [Hdang Hinj].
  destruct (lookupMetrics st1 name) as [old |] eqn:Hlk.
  - destruct (Hold old eq_refl) as [Hl Hh]. clear Hold Hnew. split.
    + unfold lookupMetrics at 1. rewrite Ht, Hh, !lookup_insert_eq.
      simpl. destruct sp; reflexivity.
    + intros other Hne. rewrite <- (Hlk1 other). unfold lookupMetrics.
      rewrite Ht, Hh, lookup_insert_ne by congruence.
      destruct (functionMetrics st1 !! other) as [l0 |] eqn:Hl0; [| reflexivity].
      rewrite lookup_insert_ne; [reflexivity |].
      intros ->. apply Hne. exact (Hinj _ _ _ Hl0 Hl).
  - destruct (Hnew eq_refl) as (Hl & Hfresh & Hh). clear Hold Hnew. split.
    + unfold lookupMetrics at 1. rewrite Ht, Hh, !lookup_insert_eq.
      simpl. destruct sp; reflexivity.
    + intros other Hne. rewrite <- (Hlk1 other). unfold lookupMetrics.
      rewrite Ht, Hh, lookup_insert_ne by congruence.
      destruct (functionMetrics st1 !! other) as [l0 |] eqn:Hl0; [| reflexivity].
      rewrite lookup_insert_ne; [reflexivity |].
      intros Heq. destruct (Hdang other _ Hl0) as [m0 Hm0].
      apply (is_fresh (dom (heap st1))). rewrite <- Hfresh, Heq.
      apply elem_of_dom. eauto.
Qed.

Lemma execute_wf name fn env st :
  wf st -> wf (executeFunctionWithProfiling name fn env st).
Proof.
  intros Hwf.
  destruct (execute_update name fn env st) as (st1 & Ht1 & Hh1 & ->).
  apply updateMetrics_wf. unfold wf. rewrite Ht1, Hh1. exact Hwf.
Qed.

End TableFacts.

(** ** FunctionTraceDetails copies *)

(** What the copying loop has established after walking the part [t] of the
    table, from the heap [h0]. *)
Definition copied_ok (h0 : gmap loc FunctionMetrics) (t : gmap string loc)
    (acc : gmap string loc * gmap loc FunctionMetrics) : Prop :=
  h0 ⊆ snd acc
  /\ (forall k l', fst acc !! k = Some l' ->
        (l' ∉ dom h0)
        /\ (exists l m,
              t !! k = Some l /\ h0 !! l = Some m /\ snd acc !! l' = Some m))
  /\ (forall k l, t !! k = Some l -> is_Some (fst acc !! k))
  /\ (forall k1 k2 l', fst acc !! k1 = Some l' -> fst acc !! k2 = Some l' -> k1 = k2).

Lemma copyEntry_ok h0 t acc k v :
  t !! k = None ->
  is_Some (h0 !! v) ->
  copied_ok h0 t acc ->
  copied_ok h0 (<[k := v]> t) (copyEntry k v acc).
Proof.
  intros Hk [m Hm] (Hsub & Hcopy & Hall & Hinj).
  assert (Hv : snd acc !! v = Some m) by (eapply lookup_weaken; eassumption).
  unfold copyEntry. rewrite Hv. simpl.
  set (c := fresh (dom (snd acc))).
  assert (Hc : snd acc !! c = None) by (apply not_elem_of_dom, is_fresh).
  assert (Hc0 : c ∉ dom h0).
  { intros Hin. apply elem_of_dom in Hin as [m0 Hm0].
    pose proof (lookup_weaken _ _ _ _ Hm0 Hsub). congruence. }
  assert (Hother : forall k' l', fst acc !! k' = Some l' -> l' <> c).
  { intros k' l' Hk' ->. destruct (Hcopy k' c Hk') as (_ & l & m0 & _ & _ & Hl).
    congruence. }
  assert (Hkacc : fst acc !! k = None).
  { destruct (fst acc !! k) as [l' |] eqn:Hl'; [| reflexivity].
    destruct (Hcopy k l' Hl') as (_ & l & m0 & Hl & _). congruence. }
  split; [| split; [| split]]; simpl.
  - etrans; [exact Hsub |]. by apply insert_subseteq.
  - intros k0 l' H. destruct (decide (k = k0)) as [<- | Hne].
    + rewrite lookup_insert_eq in H. injection H as <-.
      split; [exact Hc0 |].
      exists v, m. rewrite !lookup_insert_eq. auto.
    + rewrite lookup_insert_ne in H by exact Hne.
      destruct (Hcopy k0 l' H) as (Hl'0 & l & m0 & Hl & Hl0 & Hl').
      split; [exact Hl'0 |].
      exists l, m0. rewrite lookup_insert_ne by exact Hne.
      rewrite lookup_insert_ne by (symmetry; eapply Hother; eassumption).
      auto.
  - intros k0 l. destruct (decide (k = k0)) as [<- | Hne].
    + rewrite !lookup_insert_eq. eauto.
    + rewrite !lookup_insert_ne by exact Hne. apply Hall.
  - intros k1 k2 l'.
    destruct (decide (k = k1)) as [<- | Hne1];
      destruct (decide (k = k2)) as [<- | Hne2];
      rewrite ?lookup_insert_eq, ?lookup_insert_ne by assumption; try done.
    + intros [= <-] H2. exfalso. eapply Hother; [exact H2 | reflexivity].
    + intros H1 [= <-]. exfalso. eapply Hother; [exact H1 | reflexivity].
    + apply Hinj.
Qed.

Lemma map_fold_copyEntry_ok (h0 : gmap loc FunctionMetrics) (t : gmap string loc) :
  (forall k l, t !! k = Some l -> is_Some (h0 !! l)) ->
  copied_ok h0 t (map_fold copyEntry (∅, h0) t).
Proof.
  revert t.
  apply (map_fold_weak_ind
           (fun acc t => (forall k l, t !! k = Some l -> is_Some (h0 !! l)) ->
                         copied_ok h0 t acc)).
  - intros _. split; [| split; [| split]]; simpl; try done.
  - intros k v t acc Hk IH Hdang.
    apply copyEntry_ok; [exact Hk | |].
    + apply (Hdang k v). by rewrite lookup_insert_eq.
    + apply IH. intros k' l' Hk'. apply (Hdang k' l').
      rewrite lookup_insert_ne; [exact Hk' | congruence].
Qed.

Lemma FunctionTraceDetails_spec (st : State) :
  wf st ->
  functionMetrics (snd (FunctionTraceDetails st)) = functionMetrics st
  /\ callCounters (snd (FunctionTraceDetails st)) = callCounters st
  /\ samplingRate (snd (FunctionTraceDetails st)) = samplingRate st
  /\ events (snd (FunctionTraceDetails st)) = events st
  /\ copied_ok (heap st) (functionMetrics st)
       (fst (FunctionTraceDetails st), heap (snd (FunctionTraceDetails st))).
Proof.
  intros [Hdang _]. unfold FunctionTraceDetails. simpl.
  repeat (split; [reflexivity |]).
  pose proof (map_fold_copyEntry_ok (heap st) (functionMetrics st) Hdang) as H.
  destruct (map_fold copyEntry (∅, heap st) (functionMetrics st)). exact H.
Qed.

(** The same, for a call that returned [result] and left the state [st1]. *)
Lemma FunctionTraceDetails_returns (st st1 : State) (result : gmap string loc) :
  wf st ->
  FunctionTraceDetails st = (result, st1) ->
  functionMetrics st1 = functionMetrics st
  /\ heap st ⊆ heap st1
  /\ (forall k l', result !! k = Some l' ->
        (l' ∉ dom (heap st))
        /\ (exists l m, functionMetrics st !! k = Some l
                        /\ heap st !! l = Some m /\ heap st1 !! l' = Some m))
  /\ (forall k l, functionMetrics st !! k = Some l -> is_Some (result !! k))
  /\ (forall k1 k2 l', result !! k1 = Some l' -> result !! k2 = Some l' -> k1 = k2).
Proof.
  intros Hwf HF.
  destruct (FunctionTraceDetails_spec st Hwf) as (Ht & _ & _ & _ & Hok).
  rewrite HF in Ht, Hok. exact (conj Ht Hok).
Qed.

Lemma wf_heap_extend (st st' : State) :
  functionMetrics st' = functionMetrics st ->
  (forall l, is_Some (heap st !! l) -> is_Some (heap st' !! l)) ->
  wf st -> wf st'.
Proof.
  intros Ht Hh [Hdang Hinj]. split.
  - intros name l. rewrite Ht. intros Hl. apply Hh. eauto.
  - intros n1 n2 l. rewrite Ht. apply Hinj.
Qed.

Section ReachableFacts.
Context `{RT : Runtime}.

(** A call either fails validation, leaving counters, table and heap as
    they are and invoking nothing, or runs the profiler under its
    identity. *)
Lemma runCall_cases c env st :
  (identityOf c = None
   /\ functionMetrics (runCall c env st) = functionMetrics st
   /\ heap (runCall c env st) = heap st
   /\ callCounters (runCall c env st) = callCounters st
   /\ samplingRate (runCall c env st) = samplingRate st
   /\ invocations (runCall c env st) = invocations st)
  \/ (exists name fn,
        identityOf c = Some name
        /\ runCall c env st = executeFunctionWithProfiling name fn env st).
Proof.
  destruct (identityOf c) as [name |] eqn:Hid.
  - right. destruct (runCall_valid c name env st Hid) as [fn Hfn]. eauto.
  - left. split; [reflexivity |].
    assert (Hlog : forall m, invocations (emit (EvLog m) st) = invocations st).
    { intros m. unfold invocations. simpl. rewrite countInvokes_app. simpl. lia. }
    destruct c as [f | f args | f args | f args]; simpl in *; try discriminate.
    + unfold reflectiveIdentity in Hid. unfold TraceFunctionWithArgs.
      destruct f as [| fn ty | ty p]; simpl; auto using Hlog.
      destruct (negb _); simpl; auto using Hlog.
      destruct (checkArgs 0 args (paramTypes fn)); try discriminate;
        simpl; auto using Hlog.
    + unfold reflectiveIdentity in Hid. unfold TraceFunctionWithReturns.
      destruct f as [| fn ty | ty p]; simpl; auto using Hlog.
      destruct (negb _); simpl; auto using Hlog.
      destruct (checkArgs 0 args (paramTypes fn)); try discriminate;
        simpl; auto using Hlog.
    + unfold reflectiveIdentity in Hid.
      unfold TraceFunctionWithReturn, TraceFunctionWithReturns.
      destruct f as [| fn ty | ty p]; simpl; auto using Hlog.
      destruct (negb _); simpl; auto using Hlog.
      destruct (checkArgs 0 args (paramTypes fn)); try discriminate;
        simpl; auto using Hlog.
Qed.

Lemma runCall_wf c env st : wf st -> wf (runCall c env st).
Proof.
  intros Hwf.
  destruct (runCall_cases c env st) as [(_ & Ht & Hh & _) | (name & fn & _ & ->)].
  - unfold wf. rewrite Ht, Hh. exact Hwf.
  - by apply execute_wf.
Qed.

Lemma reachable_wf st : reachable st -> wf st.
Proof.
  induction 1 as [| c env st _ IH | rate st _ IH | st _ IH | l m st _ IH Hl].
  - split; intros ? ?; simpl; intros; simplify_map_eq.
  - by apply runCall_wf.
  - exact IH.
  - destruct (FunctionTraceDetails_spec st IH) as (Ht & _ & _ & _ & Hsub & _).
    change (heap st ⊆ heap (snd (FunctionTraceDetails st))) in Hsub.
    apply (wf_heap_extend st); [exact Ht | | exact IH].
    intros l0 [m0 Hm0]. exists m0. eapply lookup_weaken; eassumption.
  - apply (wf_heap_extend st); [reflexivity | | exact IH].
    intros l0 [m0 Hm0]. simpl.
    destruct (decide (l = l0)) as [-> | Hne].
    + rewrite lookup_insert_eq. eauto.
    + rewrite lookup_insert_ne by exact Hne. eauto.
Qed.

End ReachableFacts.

(** ** Deltas are never negative *)

Lemma to_int64_small (x : Z) : - 2 ^ 63 <= x < 2 ^ 63 -> to_int64 x = x.
Proof.
  intros Hx. unfold to_int64, uint64_mod.
  rewrite Z.mod_small; lia.
Qed.

Lemma finalGoroutinesOf_nonneg (env : Env) : 0 <= finalGoroutinesOf env.
Proof.
  unfold finalGoroutinesOf.
  destruct (Z.ltb_spec (int64_sub (goroutinesAfter env) (goroutinesBefore env)) 0);
    lia.
Qed.

Lemma finalGoroutinesOf_decrease (env : Env) :
  0 <= goroutinesBefore env <= int64_max ->
  0 <= goroutinesAfter env <= int64_max ->
  goroutinesAfter env < goroutinesBefore env ->
  finalGoroutinesOf env = 0.
Proof.
  unfold int64_max. intros Hb Ha Hlt. unfold finalGoroutinesOf, int64_sub.
  rewrite to_int64_small by lia.
  destruct (Z.ltb_spec (goroutinesAfter env - goroutinesBefore env) 0); lia.
Qed.

Lemma memoryUsageOf_nonneg (sp : bool) (env : Env) : 0 <= memoryUsageOf sp env.
Proof.
  unfold memoryUsageOf, uint64_sub. destruct sp; [| lia].
  destruct (allocAfter env >=? allocBefore env); [| lia].
  apply to_uint64_range.
Qed.

Lemma memoryUsageOf_decrease (sp : bool) (env : Env) :
  allocAfter env < allocBefore env -> memoryUsageOf sp env = 0.
Proof.
  intros Hlt. unfold memoryUsageOf. destruct sp; [| reflexivity].
  destruct (Z.geb_spec (allocAfter env) (allocBefore env)); [lia | reflexivity].
Qed.

Definition nonnegDeltas (m : FunctionMetrics) : Prop :=
  0 <= GoroutineCount m /\ 0 <= MemoryUsage m.

Section Deltas.
Context `{RT : Runtime}.

Lemma recordAfter_nonneg name sp env old :
  (forall m, old = Some m -> nonnegDeltas m) ->
  nonnegDeltas (recordAfter name sp env old).
Proof.
  intros Hold. unfold nonnegDeltas, recordAfter.
  destruct old as [m |]; simpl.
  - split; [apply finalGoroutinesOf_nonneg |].
    destruct sp; [apply memoryUsageOf_nonneg | apply (Hold m eq_refl)].
  - split; [apply finalGoroutinesOf_nonneg | apply memoryUsageOf_nonneg].
Qed.

Lemma reachable_nonneg st :
  reachable st ->
  forall name m, lookupMetrics st name = Some m -> nonnegDeltas m.
Proof.
  induction 1 as [| c env st Hst IH | rate st Hst IH | st Hst IH
                  | l m0 st Hst IH Hl]; intros name m Hm.
  - discriminate.
  - pose proof (reachable_wf st Hst) as Hwf.
    destruct (runCall_cases c env st)
      as [(_ & Ht & Hh & _) | (n & fn & _ & Hrun)].
    + apply (IH name). unfold lookupMetrics in *. by rewrite <- Ht, <- Hh.
    + rewrite Hrun in Hm.
      destruct (execute_lookup n fn env st Hwf) as [Hsame Hother].
      destruct (decide (name = n)) as [-> | Hne].
      * rewrite Hsame in Hm. injection Hm as <-.
        apply recordAfter_nonneg. intros m1 Hm1. by apply (IH n).
      * rewrite Hother in Hm by exact Hne. by apply (IH name).
  - by apply (IH name).
  - pose proof (reachable_wf st Hst) as Hwf.
    destruct (FunctionTraceDetails_spec st Hwf) as (Ht & _ & _ & _ & Hsub & _).
    change (heap st ⊆ heap (snd (FunctionTraceDetails st))) in Hsub.
    apply (IH name). unfold lookupMetrics in *.
    rewrite Ht in Hm.
    destruct (functionMetrics st !! name) as [l |] eqn:Hl; [| discriminate].
    destruct (proj1 Hwf name l Hl) as [m1 Hm1].
    pose proof (lookup_weaken _ _ _ _ Hm1 Hsub). congruence.
  - apply (IH name). unfold lookupMetrics in *. simpl in Hm.
    destruct (functionMetrics st !! name) as [l0 |] eqn:Hl0; [| discriminate].
    rewrite lookup_insert_ne in Hm; [exact Hm |].
    intros ->. apply Hl. by exists name.
Qed.

Lemma runCalls_reachable cs st : reachable st -> reachable (runCalls cs st).
Proof.
  revert st. induction cs as [| [c env] cs IH]; intros st Hst; simpl.
  - exact Hst.
  - apply IH. by apply reach_call.
Qed.

End Deltas.

(** C4.  In every state of a run, the goroutine delta and the memory delta
    of every record of the table are non-negative; and a call that passes
    validation leaves in its identity's record a goroutine delta of zero when
    the goroutine count went down during the call and, when the call is
    profiled, a memory delta of zero when the allocated heap went down. *)
Theorem C4_deltas_never_negative `{RT : Runtime} (st : State) :
  reachable st ->
  (forall name m, lookupMetrics st name = Some m ->
     0 <= GoroutineCount m /\ 0 <= MemoryUsage m)
  /\ (forall c env name, identityOf c = Some name ->
        exists m, lookupMetrics (runCall c env st) name = Some m
          /\ 0 <= GoroutineCount m /\ 0 <= MemoryUsage m
          /\ (0 <= goroutinesBefore env <= int64_max ->
              0 <= goroutinesAfter env <= int64_max ->
              goroutinesAfter env < goroutinesBefore env ->
              GoroutineCount m = 0)
          /\ (shouldProfileAt (nextCount name st) (samplingRate st) = true ->
              allocAfter env < allocBefore env ->
              MemoryUsage m = 0)).
Proof.
  intros Hreach. split; [exact (reachable_nonneg st Hreach) |].
  intros c env name Hid.
  destruct (runCall_valid c name env st Hid) as [fn Hrun].
  destruct (execute_lookup name fn env st (reachable_wf st Hreach)) as [Hsame _].
  rewrite <- Hrun in Hsame.
  eexists. split; [exact Hsame |].
  destruct (reachable_nonneg _ (reach_call c env st Hreach) name _ Hsame)
    as [Hg Hm].
  split; [exact Hg |]. split; [exact Hm |]. split.
  - intros Hb Ha Hlt.
    unfold recordAfter. destruct (lookupMetrics st name); simpl;
      by apply finalGoroutinesOf_decrease.
  - intros Hsp Hlt. rewrite Hsp.
    unfold recordAfter. destruct (lookupMetrics st name); simpl;
      by apply (memoryUsageOf_decrease true).
Qed.

Lemma C4_deltas_never_negative_witness :
  reachable (RT := sampleRuntime) (runCalls (RT := sampleRuntime) sampleCalls initState)
  /\ forall name m,
       lookupMetrics (runCalls (RT := sampleRuntime) sampleCalls initState) name
       = Some m ->
       0 <= GoroutineCount m /\ 0 <= MemoryUsage m.
Proof.
  assert (H : reachable (RT := sampleRuntime)
                (runCalls (RT := sampleRuntime) sampleCalls initState)).
  { apply runCalls_reachable, reach_init. }
  split; [exact H |].
  exact (proj1 (C4_deltas_never_negative (RT := sampleRuntime) _ H)).
Defined.

(** C5.  An invocation that is not profiled (it starts no profiling run):
    when its identity already has a record, the record afterwards has the new
    last-run time, execution time and goroutine delta, and the memory delta
    and both profile paths it had before; when its identity has no record
    yet, one is created with memory delta zero and both paths empty.  The
    records of the other identities stay as they are. *)
Theorem C5_unprofiled_update `{RT : Runtime} (st : State) (c : TraceCall)
    (env : Env) (name : string) :
  reachable st ->
  identityOf c = Some name ->
  shouldProfileAt (nextCount name st) (samplingRate st) = false ->
  let st' := runCall c env st in
  profilingRuns st' = profilingRuns st
  /\ (forall old, lookupMetrics st name = Some old ->
        lookupMetrics st' name
        = Some {| FunctionLastRanAt := startTime env;
                  CPUProfileFilePath := CPUProfileFilePath old;
                  MemProfileFilePath := MemProfileFilePath old;
                  MemoryUsage := MemoryUsage old;
                  GoroutineCount := finalGoroutinesOf env;
                  ExecutionTime := elapsedTime env |})
  /\ (lookupMetrics st name = None ->
        lookupMetrics st' name
        = Some {| FunctionLastRanAt := startTime env;
                  CPUProfileFilePath := "";
                  MemProfileFilePath := "";
                  MemoryUsage := 0;
                  GoroutineCount := finalGoroutinesOf env;
                  ExecutionTime := elapsedTime env |})
  /\ (forall other, other <> name ->
        lookupMetrics st' other = lookupMetrics st other).
Proof.
  intros Hreach Hid Hsp st'. subst st'.
  destruct (runCall_valid c name env st Hid) as [fn ->].
  destruct (execute_lookup name fn env st (reachable_wf st Hreach))
    as [Hsame Hother].
  rewrite Hsp in Hsame.
  split; [| split; [| split]].
  - rewrite execute_profilingRuns, Hsp. lia.
  - intros old Hold. rewrite Hsame, Hold. reflexivity.
  - intros Hnone. rewrite Hsame, Hnone. reflexivity.
  - exact Hother.
Qed.

Lemma sampleState_reachable : reachable (RT := sampleRuntime) sampleState.
Proof. apply runCalls_reachable, reach_rate, reach_init. Qed.

Lemma C5_unprofiled_update_witness :
  reachable (RT := sampleRuntime) sampleState
  /\ identityOf (RT := sampleRuntime) (CallTraceFunction sampleWork)
     = Some "github.com-acme-app.work"
  /\ shouldProfileAt (nextCount "github.com-acme-app.work" sampleState)
       (samplingRate sampleState) = false
  /\ lookupMetrics sampleState "github.com-acme-app.work"
     = Some {| FunctionLastRanAt := 1700000100;
               CPUProfileFilePath :=
                 "/var/monigo/profiles/github.com-acme-app.work_cpu.prof";
               MemProfileFilePath :=
                 "/var/monigo/profiles/github.com-acme-app.work_mem.prof";
               MemoryUsage := 1000;
               GoroutineCount := 1;
               ExecutionTime := 300 |}
  /\ lookupMetrics
       (runCall (RT := sampleRuntime) (CallTraceFunction sampleWork) sampleEnv
          sampleState)
       "github.com-acme-app.work"
     = Some {| FunctionLastRanAt := 1700000000;
               CPUProfileFilePath :=
                 "/var/monigo/profiles/github.com-acme-app.work_cpu.prof";
               MemProfileFilePath :=
                 "/var/monigo/profiles/github.com-acme-app.work_mem.prof";
               MemoryUsage := 1000;
               GoroutineCount := 0;
               ExecutionTime := 250 |}.
Proof.
  assert (H1 : reachable (RT := sampleRuntime) sampleState)
    by exact sampleState_reachable.
  assert (H2 : identityOf (RT := sampleRuntime) (CallTraceFunction sampleWork)
               = Some "github.com-acme-app.work") by reflexivity.
  assert (H3 : shouldProfileAt (nextCount "github.com-acme-app.work" sampleState)
                 (samplingRate sampleState) = false) by (vm_compute; reflexivity).
  assert (H4 : lookupMetrics sampleState "github.com-acme-app.work"
     = Some {| FunctionLastRanAt := 1700000100;
               CPUProfileFilePath :=
                 "/var/monigo/profiles/github.com-acme-app.work_cpu.prof";
               MemProfileFilePath :=
                 "/var/monigo/profiles/github.com-acme-app.work_mem.prof";
               MemoryUsage := 1000;
               GoroutineCount := 1;
               ExecutionTime := 300 |}) by (vm_compute; reflexivity).
  split; [exact H1 |]. split; [exact H2 |]. split; [exact H3 |].
  split; [exact H4 |].
  exact (proj1 (proj2 (C5_unprofiled_update (RT := sampleRuntime) sampleState
                         (CallTraceFunction sampleWork) sampleEnv
                         "github.com-acme-app.work" H1 H2 H3)) _ H4).
Defined.

(** ** Records outside the table are out of the profiler's reach *)

Section Snapshot.
Context `{RT : Runtime}.

(** An allocated record the table does not point to is neither written
    nor taken into the table by an invocation. *)
Lemma execute_heap_outside name fn env st l :
  wf st -> is_Some (heap st !! l) -> ~ tableLoc st l ->
  let st' := executeFunctionWithProfiling name fn env st in
  heap st' !! l = heap st !! l /\ ~ tableLoc st' l.
Proof.
  intros Hwf Hl Hnt st'. subst st'.
  destruct (execute_update name fn env st) as (st1 & Ht1 & Hh1 & ->).
  assert (Hwf1 : wf st1) by (unfold wf; rewrite Ht1, Hh1; exact Hwf).
  match goal with
  | |- context [updateMetrics ?a ?b ?c ?d ?e ?f ?g ?h ?s] =>
      destruct (updateMetrics_table_heap a b c d e f g h s Hwf1)
        as (l0 & Ht & Hold & Hnew)
  end.
  rewrite <- Hh1 in *.
  assert (Hnt1 : ~ tableLoc st1 l)
    by (intros [n Hn]; apply Hnt; exists n; by rewrite <- Ht1).
  assert (Hne : l0 <> l).
  { destruct (lookupMetrics st1 name) as [old |] eqn:Hlk.
    - destruct (Hold old eq_refl) as [Hl0 _]. intros ->. apply Hnt1. by exists name.
    - destruct (Hnew eq_refl) as (_ & Hfresh & _). intros ->.
      apply (is_fresh (dom (heap st1))). rewrite <- Hfresh.
      by apply elem_of_dom. }
  split.
  - destruct (lookupMetrics st1 name) as [old |] eqn:Hlk.
    + destruct (Hold old eq_refl) as [_ ->]. by rewrite lookup_insert_ne.
    + destruct (Hnew eq_refl) as (_ & _ & ->). by rewrite lookup_insert_ne.
  - intros [n Hn]. rewrite Ht in Hn.
    destruct (decide (name = n)) as [<- | Hnn].
    + rewrite lookup_insert_eq in Hn. congruence.
    + rewrite lookup_insert_ne in Hn by exact Hnn. apply Hnt1. by exists n.
Qed.

Lemma runCall_heap_outside c env st l :
  wf st -> is_Some (heap st !! l) -> ~ tableLoc st l ->
  heap (runCall c env st) !! l = heap st !! l /\ ~ tableLoc (runCall c env st) l.
Proof.
  intros Hwf Hl Hnt.
  destruct (runCall_cases c env st)
    as [(_ & Ht & Hh & _) | (name & fn & _ & ->)].
  - rewrite Hh. split; [reflexivity |]. unfold tableLoc. by rewrite Ht.
  - by apply execute_heap_outside.
Qed.

Lemma runCalls_heap_outside cs st l :
  wf st -> is_Some (heap st !! l) -> ~ tableLoc st l ->
  heap (runCalls cs st) !! l = heap st !! l.
Proof.
  revert st. induction cs as [| [c env] cs IH]; intros st Hwf Hl Hnt; simpl.
  - reflexivity.
  - destruct (runCall_heap_outside c env st l Hwf Hl Hnt) as [Hh Hnt'].
    rewrite IH; [exact Hh | by apply runCall_wf | by rewrite Hh | exact Hnt'].
Qed.

End Snapshot.

(** C9.  [FunctionTraceDetails] returns a snapshot copy.  In a state of a
    run, with [result] the returned map and [st1] the state after the call:
    - reading an identity through [result] gives the record the table holds
      for it at the time of the call, and the table itself is as before;
    - no pointer of [result] is a pointer of the table, and two identities
      never share a returned pointer;
    - overwriting the record behind a returned pointer changes no record of
      the table;
    - whatever calls of the trace entry points follow, reading through
      [result] still gives the records of the time of the call. *)
Theorem C9_defensive_copy `{RT : Runtime} (st : State) :
  reachable st ->
  let result := fst (FunctionTraceDetails st) in
  let st1 := snd (FunctionTraceDetails st) in
  (forall name, readResult result st1 name = lookupMetrics st name)
  /\ (forall name, lookupMetrics st1 name = lookupMetrics st name)
  /\ (forall name l, result !! name = Some l -> ~ tableLoc st1 l)
  /\ (forall n1 n2 l, result !! n1 = Some l -> result !! n2 = Some l -> n1 = n2)
  /\ (forall name l m, result !! name = Some l ->
        forall n, lookupMetrics (clientWrite l m st1) n = lookupMetrics st1 n)
  /\ (forall cs name,
        readResult result (runCalls cs st1) name = lookupMetrics st name).
Proof.
  intros Hreach.
  pose proof (reachable_wf st Hreach) as Hwf.
  pose proof (reachable_wf _ (reach_details st Hreach)) as Hwf1.
  destruct (FunctionTraceDetails st) as [result st1] eqn:HF.
  cbn [fst snd] in *. cbv zeta.
  destruct (FunctionTraceDetails_returns st st1 result Hwf HF)
    as (Ht & Hsub & Hcopy & Hall & Hinj).
  assert (Htable : forall name, lookupMetrics st1 name = lookupMetrics st name).
  { intros name. unfold lookupMetrics. rewrite Ht.
    destruct (functionMetrics st !! name) as [l |] eqn:Hl; [| reflexivity].
    destruct (proj1 Hwf name l Hl) as [m Hm]. rewrite Hm.
    eapply lookup_weaken; eassumption. }
  assert (Hread : forall name, readResult result st1 name = lookupMetrics st name).
  { intros name. unfold readResult, lookupMetrics.
    destruct (result !! name) as [l' |] eqn:Hl'.
    - destruct (Hcopy name l' Hl') as (_ & l & m & Hl & Hm & Hm').
      by rewrite Hl, Hm.
    - destruct (functionMetrics st !! name) as [l |] eqn:Hl; [| reflexivity].
      destruct (Hall name l Hl) as [l' Hsome]. congruence. }
  assert (Hout : forall name l, result !! name = Some l -> ~ tableLoc st1 l).
  { intros name l' Hl' [n Hn]. rewrite Ht in Hn.
    destruct (Hcopy name l' Hl') as (Hnot & _).
    destruct (proj1 Hwf n l' Hn) as [m Hm].
    apply Hnot, elem_of_dom. eauto. }
  split; [exact Hread |]. split; [exact Htable |]. split; [exact Hout |].
  split; [exact Hinj |]. split.
  - intros name l m Hl n. unfold lookupMetrics, clientWrite, setHeap.
    cbn [functionMetrics heap].
    destruct (functionMetrics st1 !! n) as [l0 |] eqn:Hl0; [| reflexivity].
    rewrite lookup_insert_ne; [reflexivity |].
    intros ->. apply (Hout name l0 Hl). by exists n.
  - intros cs name. rewrite <- Hread. unfold readResult.
    destruct (result !! name) as [l' |] eqn:Hl'; [| reflexivity].
    apply runCalls_heap_outside; [exact Hwf1 | | by apply (Hout name)].
    destruct (Hcopy name l' Hl') as (_ & l & m & _ & _ & Hm'). eauto.
Qed.

Lemma C9_defensive_copy_witness :
  reachable (RT := sampleRuntime) sampleState
  /\ forall name,
       readResult (fst (FunctionTraceDetails sampleState))
         (snd (FunctionTraceDetails sampleState)) name
       = lookupMetrics sampleState name.
Proof.
  split; [exact sampleState_reachable |].
  exact (proj1 (C9_defensive_copy (RT := sampleRuntime) sampleState
                  sampleState_reachable)).
Defined.

(** ** Reflective validation *)

Section Validation.
Context `{RT : Runtime}.

(** The argument at [i] has a dynamic type that its parameter does not
    accept, and every argument before it has a dynamic type. *)
Definition offendingArg (args : list GoValue) (params : list GoType)
    (i : nat) : Prop :=
  (exists a aty pty,
      args !! i = Some a /\ dynType a = Some aty /\ params !! i = Some pty
      /\ AssignableTo aty pty = false)
  /\ (forall j a, (j < i)%nat -> args !! j = Some a -> dynType a <> None).

Lemma checkArgs_offending args :
  forall params k i,
  offendingArg args params i ->
  exists j expected got, checkArgs k args params = ArgMismatch j expected got.
Proof.
  induction args as [| a args IH]; intros params k i [(a0 & aty & pty & Ha & Hty & Hp & Has) Hbefore].
  - rewrite lookup_nil in Ha. discriminate.
  - destruct params as [| p params]; [rewrite lookup_nil in Hp; discriminate |].
    simpl. destruct i as [| i].
    + simpl in Ha, Hp. injection Ha as <-. injection Hp as <-.
      rewrite Hty, Has. eauto.
    + simpl in Ha, Hp.
      destruct (dynType a) as [ty |] eqn:Hdyn.
      * destruct (AssignableTo ty p); [| eauto].
        apply (IH params (S k) i). split.
        -- exists a0, aty, pty. auto.
        -- intros j b Hj Hb. apply (Hbefore (S j) b); [lia | exact Hb].
      * exfalso. apply (Hbefore 0%nat a); [lia | reflexivity | exact Hdyn].
Qed.

(** A wrong argument count, or an offending argument, is logged and ends
    the call before the profiler is reached. *)
Lemma validation_rejects fn ty args env st :
  length args <> length (paramTypes fn)
  \/ (exists i, offendingArg args (paramTypes fn) i) ->
  exists msg,
    TraceFunctionWithReturns (VFunc fn ty) args env st
    = Returned None (emit (EvLog msg) st)
    /\ TraceFunctionWithArgs (VFunc fn ty) args env st
       = Returned tt (emit (EvLog msg) st)
    /\ TraceFunctionWithReturn (VFunc fn ty) args env st
       = Returned VNil (emit (EvLog msg) st).
Proof.
  intros Hbad. unfold TraceFunctionWithReturn, TraceFunctionWithReturns,
    TraceFunctionWithArgs.
  destruct (Nat.eqb_spec (length args) (length (paramTypes fn))) as [Heq | Hne];
    simpl.
  - destruct Hbad as [Hlen | [i Hoff]]; [contradiction |].
    destruct (checkArgs_offending args (paramTypes fn) 0 i Hoff)
      as (j & expected & got & ->).
    eauto.
  - eauto.
Qed.

Lemma emit_log_frame m st :
  invocations (emit (EvLog m) st) = invocations st
  /\ callCounters (emit (EvLog m) st) = callCounters st
  /\ functionMetrics (emit (EvLog m) st) = functionMetrics st
  /\ heap (emit (EvLog m) st) = heap st
  /\ events (emit (EvLog m) st) = events st ++ [EvLog m].
Proof.
  unfold invocations. simpl. rewrite countInvokes_app. simpl.
  repeat split; lia.
Qed.

End Validation.

(** C6, at the input [scale(nil, "x")] for [func scale(p *int, n int) int]:
    the second argument's type is not assignable to its parameter, yet the
    call neither logs nor returns: the argument loop asks the nil first
    argument for its type, which panics.  The target is not invoked and no
    counter or record is touched. *)
Theorem C6_nil_argument_panics :
  TraceFunctionWithReturns (RT := sampleRuntime) sampleScaleValue sampleNilArgs
    sampleEnv initState = Panicked initState
  /\ TraceFunctionWithArgs (RT := sampleRuntime) sampleScaleValue sampleNilArgs
       sampleEnv initState = Panicked initState
  /\ (exists a aty pty,
        sampleNilArgs !! 1%nat = Some a /\ dynType a = Some aty
        /\ paramTypes sampleScale !! 1%nat = Some pty
        /\ AssignableTo (Runtime := sampleRuntime) aty pty = false).
Proof.
  split; [reflexivity |]. split; [reflexivity |].
  exists (VData "string" 0), "string", "int". repeat split.
Qed.

(** ** Order of float64 values *)

Lemma SFcompare_antisym (x y : float64) :
  SFcompare y x = option_map CompOpp (SFcompare x y).
Proof.
  destruct x as [sx | sx | | sx mx ex], y as [sy | sy | | sy my ey]; simpl;
    try reflexivity;
    try (destruct sx; reflexivity); try (destruct sy; reflexivity);
    try (destruct sx, sy; reflexivity).
  destruct sx, sy; simpl; try reflexivity;
    rewrite (Z.compare_antisym ex ey);
    destruct (ex ?= ey); simpl; try reflexivity;
    rewrite (Pos.compare_cont_antisym); simpl;
    destruct (Pos.compare_cont Eq mx my); reflexivity.
Qed.

(** The order on (exponent, mantissa) pairs is transitive. *)
Lemma lex_compare_trans (e1 e2 e3 : Z) (m1 m2 m3 : positive) :
  (match e1 ?= e2 with
   | Lt => Lt | Gt => Gt | Eq => Pos.compare_cont Eq m1 m2 end) <> Gt ->
  (match e2 ?= e3 with
   | Lt => Lt | Gt => Gt | Eq => Pos.compare_cont Eq m2 m3 end) <> Gt ->
  (match e1 ?= e3 with
   | Lt => Lt | Gt => Gt | Eq => Pos.compare_cont Eq m1 m3 end) <> Gt.
Proof.
  change (Pos.compare_cont Eq m1 m2) with (Pos.compare m1 m2).
  change (Pos.compare_cont Eq m2 m3) with (Pos.compare m2 m3).
  change (Pos.compare_cont Eq m1 m3) with (Pos.compare m1 m3).
  destruct (Z.compare_spec e1 e2), (Z.compare_spec e2 e3), (Z.compare_spec e1 e3);
    destruct (Pos.compare_spec m1 m2), (Pos.compare_spec m2 m3),
      (Pos.compare_spec m1 m3);
    intros; try congruence; try lia.
Qed.

Lemma lex_compare_flip (e1 e2 : Z) (m1 m2 : positive) :
  (match e1 ?= e2 with
   | Lt => Gt | Gt => Lt | Eq => CompOpp (Pos.compare_cont Eq m1 m2) end) <> Gt ->
  (match e2 ?= e1 with
   | Lt => Lt | Gt => Gt | Eq => Pos.compare_cont Eq m2 m1 end) <> Gt.
Proof.
  rewrite (Z.compare_antisym e1 e2).
  change (Pos.compare_cont Eq m2 m1) with (Pos.compare m2 m1).
  rewrite (Pos.compare_antisym m1 m2). unfold Pos.compare.
  destruct (e1 ?= e2); simpl; try congruence.
Qed.

Lemma SFleb_trans (x y z : float64) :
  SFleb x y = true -> SFleb y z = true -> SFleb x z = true.
Proof.
  unfold SFleb.
  destruct x as [sx | sx | | sx mx ex], y as [sy | sy | | sy my ey],
    z as [sz | sz | | sz mz ez]; simpl; try discriminate; try reflexivity;
    try (destruct sx; simpl; try discriminate; try reflexivity);
    try (destruct sy; simpl; try discriminate; try reflexivity);
    try (destruct sz; simpl; try discriminate; try reflexivity).
  all: try (intros; discriminate).
  - intros H1 H2.
    assert (G1 : (match ex ?= ey with
                  | Lt => Gt | Gt => Lt
                  | Eq => CompOpp (Pos.compare_cont Eq mx my) end) <> Gt)
      by (intros E; rewrite E in H1; discriminate).
    assert (G2 : (match ey ?= ez with
                  | Lt => Gt | Gt => Lt
                  | Eq => CompOpp (Pos.compare_cont Eq my mz) end) <> Gt)
      by (intros E; rewrite E in H2; discriminate).
    apply lex_compare_flip in G1, G2.
    pose proof (lex_compare_trans _ _ _ _ _ _ G2 G1) as G.
    rewrite (Z.compare_antisym ex ez) in G.
    change (Pos.compare_cont Eq mz mx) with (Pos.compare mz mx) in G.
    rewrite (Pos.compare_antisym mx mz) in G. unfold Pos.compare in G.
    destruct (ex ?= ez); simpl in *; try reflexivity; try congruence.
    destruct (Pos.compare_cont Eq mx mz); simpl in *; congruence.
  - intros H1 H2.
    assert (G1 : (match ex ?= ey with
                  | Lt => Lt | Gt => Gt
                  | Eq => Pos.compare_cont Eq mx my end) <> Gt)
      by (intros E; rewrite E in H1; discriminate).
    assert (G2 : (match ey ?= ez with
                  | Lt => Lt | Gt => Gt
                  | Eq => Pos.compare_cont Eq my mz end) <> Gt)
      by (intros E; rewrite E in H2; discriminate).
    pose proof (lex_compare_trans _ _ _ _ _ _ G1 G2) as G.
    destruct (ex ?= ez); try reflexivity; try congruence.
    destruct (Pos.compare_cont Eq mx mz); congruence.
Qed.

Lemma SFltb_not_leb (x y : float64) : SFltb x y = true -> SFleb y x = false.
Proof.
  unfold SFltb, SFleb. rewrite (SFcompare_antisym x y).
  destruct (SFcompare x y) as [[| |] |]; simpl; congruence.
Qed.

(** Below a threshold is below every larger threshold. *)
Lemma f64_below (s lo hi : float64) :
  SFleb lo hi = true -> f64_gt lo s = true -> f64_ge s hi = false.
Proof.
  unfold f64_gt, f64_ge. intros Hlohi Hs.
  destruct (SFleb hi s) eqn:Hhi; [| reflexivity].
  pose proof (SFleb_trans lo hi s Hlohi Hhi) as Hlo.
  rewrite (SFltb_not_leb s lo Hs) in Hlo. discriminate.
Qed.

(** ** Health buckets *)

Lemma getStatusMessage_bucketed (s : float64) :
  bucketedMessage s (getStatusMessage s).
Proof.
  unfold bucketedMessage, getStatusMessage.
  repeat split.
  - intros ->. reflexivity.
  - intros H85 H90. rewrite (f64_below s f64_90 f64_90 eq_refl H90), H85.
    reflexivity.
  - intros H70 H85.
    rewrite (f64_below s f64_85 f64_90 eq_refl H85),
      (f64_below s f64_85 f64_85 eq_refl H85), H70. reflexivity.
  - intros H50 H70.
    rewrite (f64_below s f64_70 f64_90 eq_refl H70),
      (f64_below s f64_70 f64_85 eq_refl H70),
      (f64_below s f64_70 f64_70 eq_refl H70), H50. reflexivity.
  - intros H30 H50.
    rewrite (f64_below s f64_50 f64_90 eq_refl H50),
      (f64_below s f64_50 f64_85 eq_refl H50),
      (f64_below s f64_50 f64_70 eq_refl H50),
      (f64_below s f64_50 f64_50 eq_refl H50), H30. reflexivity.
  - intros H30.
    rewrite (f64_below s f64_30 f64_90 eq_refl H30),
      (f64_below s f64_30 f64_85 eq_refl H30),
      (f64_below s f64_30 f64_70 eq_refl H30),
      (f64_below s f64_30 f64_50 eq_refl H30),
      (f64_below s f64_30 f64_30 eq_refl H30). reflexivity.
Qed.

(** C7.  When [CalculateHealthScore] yields scores for a snapshot, each of
    the two health records of [GetServiceHealth] carries its score, is
    healthy iff the score is above 50, and has the message of the score's
    bucket: Excellent from 90, Good from 85, Satisfactory from 70, Fair from
    50, Poor from 30, Critical below 30. *)
Theorem C7_health_buckets `{CM : Common} (stats : ServiceStats)
    (scores : HealthScores) :
  CalculateHealthScore stats = Some scores ->
  healthOfScore (Percentage (ServiceScore scores))
    (ServiceHealthOf (GetServiceHealth stats))
  /\ healthOfScore (Percentage (SystemScore scores))
       (SystemHealthOf (GetServiceHealth stats)).
Proof.
  intros Hscore. unfold GetServiceHealth. rewrite Hscore. simpl.
  split; (split; [reflexivity | split; [reflexivity |]]);
    apply getStatusMessage_bucketed.
Qed.

(** ** Rounding keeps the sign *)

Lemma shr_1_nonneg (mrs : shr_record) :
  0 <= shr_m mrs -> 0 <= shr_m (shr_1 mrs).
Proof.
  destruct mrs as [m r s]. simpl. intros Hm.
  destruct m as [| p | p]; [simpl; lia | | lia].
  destruct p; simpl; lia.
Qed.

Lemma iter_pos_shr_1_nonneg (p : positive) :
  forall mrs, 0 <= shr_m mrs -> 0 <= shr_m (SpecFloat.iter_pos shr_1 p mrs).
Proof.
  induction p as [p IH | p IH |]; intros mrs Hm; simpl.
  - apply IH, IH, shr_1_nonneg, Hm.
  - apply IH, IH, Hm.
  - apply shr_1_nonneg, Hm.
Qed.

Lemma shr_fexp_nonneg (m e : Z) (l : location) :
  0 <= m -> 0 <= shr_m (fst (shr_fexp 53 1024 m e l)).
Proof.
  intros Hm. unfold shr_fexp, shr.
  assert (H0 : 0 <= shr_m (shr_record_of_loc m l))
    by (destruct l as [| []]; simpl; exact Hm).
  destruct (fexp 53 1024 (Zdigits2 m + e) - e) as [| p | p]; simpl;
    [exact H0 | apply iter_pos_shr_1_nonneg, H0 | exact H0].
Qed.

Lemma round_nearest_even_nonneg (mx : Z) (lx : location) :
  0 <= mx -> 0 <= round_nearest_even mx lx.
Proof.
  intros Hm. unfold round_nearest_even.
  destruct lx as [| []]; [lia | | lia | lia].
  destruct (Z.even mx); lia.
Qed.

Lemma binary_round_aux_nonneg (mx ex : Z) (lx : location) :
  0 <= mx -> f64_nonneg (binary_round_aux 53 1024 false mx ex lx).
Proof.
  intros Hm. unfold binary_round_aux.
  pose proof (shr_fexp_nonneg mx ex lx Hm) as H1.
  destruct (shr_fexp 53 1024 mx ex lx) as [mrs' e']. simpl in H1.
  pose proof (shr_fexp_nonneg
                (round_nearest_even (shr_m mrs') (loc_of_shr_record mrs')) e'
                loc_Exact (round_nearest_even_nonneg _ _ H1)) as H2.
  destruct (shr_fexp 53 1024 _ e' loc_Exact) as [mrs'' e'']. simpl in H2.
  destruct (shr_m mrs'') as [| p | p]; simpl; [exact I | | lia].
  destruct (e'' <=? 1024 - 53); reflexivity.
Qed.

Lemma binary_round_nonneg (m : positive) (e : Z) :
  f64_nonneg (binary_round 53 1024 false m e).
Proof.
  unfold binary_round.
  destruct (shl_align m e (fexp 53 1024 (Z.pos (digits2_pos m) + e))) as [mz ez].
  apply binary_round_aux_nonneg. lia.
Qed.

Lemma f64_mul_half_nonneg (x : float64) :
  f64_nonneg x -> f64_nonneg (f64_mul f64_half x).
Proof.
  destruct x as [s | s | | s m e]; simpl; intros Hx; try exact Hx; try exact I.
  subst s. unfold f64_mul, f64_half, SFmul. simpl xorb.
  apply binary_round_aux_nonneg. lia.
Qed.

Lemma f64_add_nonneg (x y : float64) :
  f64_nonneg x -> f64_nonneg y -> f64_nonneg (f64_add x y).
Proof.
  destruct x as [sx | sx | | sx mx ex], y as [sy | sy | | sy my ey]; simpl;
    intros Hx Hy; try contradiction; subst; simpl; try exact I; try reflexivity.
  - destruct sx, sy; exact I.
  - unfold cond_Zopp.
    destruct (shl_align mx ex (Z.min ex ey)) as [mx' ex'].
    destruct (shl_align my ey (Z.min ex ey)) as [my' ey']. simpl.
    apply binary_round_nonneg.
Qed.

(** A value that is not NaN and not above 100 is at most 100. *)
Lemma f64_not_gt_le (x c : float64) :
  x <> S754_nan -> c <> S754_nan -> f64_gt x c = false -> SFleb x c = true.
Proof.
  unfold f64_gt, SFltb, SFleb. intros Hx Hc. rewrite (SFcompare_antisym x c).
  destruct (SFcompare x c) as [[| |] |] eqn:Hcmp; simpl; try congruence.
  destruct x as [sx | sx | | sx mx ex], c as [sc | sc | | sc mc ec];
    simpl in Hcmp; try congruence;
    try (destruct sx; discriminate); try (destruct sc; discriminate).
Qed.

Lemma f64_nonneg_ge_0 (x : float64) : f64_nonneg x -> f64_ge x f64_0 = true.
Proof.
  destruct x as [s | s | | s m e]; simpl; intros Hx; try contradiction;
    subst; reflexivity.
Qed.

Lemma f64_nonneg_not_nan (x : float64) : f64_nonneg x -> x <> S754_nan.
Proof. intros Hx ->. exact Hx. Qed.

(** ** Overall load *)

Section OverallLoad.
Context `{CM : Common}.

Lemma CalculateOverallLoad_cap (cpu mem : float64) :
  fst (CalculateOverallLoad cpu mem)
  = if f64_gt (weightedLoad cpu mem) f64_100 then f64_100
    else weightedLoad cpu mem.
Proof. reflexivity. Qed.

End OverallLoad.

Lemma C7_health_buckets_witness :
  CalculateHealthScore (Common := sampleCommon) sampleStats
  = Some {| ServiceScore := {| Percentage := f64_of_Z 92; ScoreMessage := "" |};
            SystemScore := {| Percentage := f64_of_Z 40; ScoreMessage := "" |} |}
  /\ healthOfScore (f64_of_Z 92)
       (ServiceHealthOf (GetServiceHealth (CM := sampleCommon) sampleStats))
  /\ healthOfScore (f64_of_Z 40)
       (SystemHealthOf (GetServiceHealth (CM := sampleCommon) sampleStats)).
Proof.
  split; [reflexivity |].
  exact (C7_health_buckets (CM := sampleCommon) sampleStats _ eq_refl).
Defined.

(** C8 as stated fails: with a CPU load of -10 and a memory load of 0 the
    overall load is -5, below zero. *)
Lemma C8_no_lower_clamp_counterexample :
  fst (CalculateOverallLoad (CM := sampleCommon) (f64_of_Z (-10)) f64_0)
  = f64_of_Z (-5)
  /\ f64_gt f64_0
       (fst (CalculateOverallLoad (CM := sampleCommon) (f64_of_Z (-10)) f64_0))
     = true.
Proof. split; vm_compute; reflexivity. Qed.

(** C8, amended.  The overall load is the float64 value of
    [0.5 * cpu + 0.5 * mem], replaced by 100 when it is above 100: it is never
    above 100.  There is no lower clamp; when neither input is negative or
    NaN, the load lies in [0, 100]. *)
Theorem C8_overall_load_capped `{CM : Common} (cpu mem : float64) :
  let load := fst (CalculateOverallLoad cpu mem) in
  load = (if f64_gt (weightedLoad cpu mem) f64_100 then f64_100
          else weightedLoad cpu mem)
  /\ f64_gt load f64_100 = false
  /\ (f64_nonneg cpu -> f64_nonneg mem ->
      f64_ge load f64_0 = true /\ f64_ge f64_100 load = true).
Proof.
  intros load. subst load. rewrite CalculateOverallLoad_cap.
  split; [reflexivity |]. split.
  - destruct (f64_gt (weightedLoad cpu mem) f64_100) eqn:Hgt;
      [reflexivity | exact Hgt].
  - intros Hcpu Hmem.
    assert (Hw : f64_nonneg (weightedLoad cpu mem))
      by (apply f64_add_nonneg; apply f64_mul_half_nonneg; assumption).
    destruct (f64_gt (weightedLoad cpu mem) f64_100) eqn:Hgt.
    + split; reflexivity.
    + split; [by apply f64_nonneg_ge_0 |].
      apply f64_not_gt_le; [by apply f64_nonneg_not_nan | discriminate | exact Hgt].
Qed.

(** ** Order of fixed-width decimal renderings *)

Lemma string_compare_refl (s : string) : String.compare s s = Eq.
Proof.
  induction s as [| c s IH]; simpl; [reflexivity |].
  unfold Ascii.compare. rewrite N.compare_refl. exact IH.
Qed.

(** Strings of equal length in front decide the comparison unless equal. *)
Lemma string_compare_app (a1 a2 b1 b2 : string) :
  String.length a1 = String.length a2 ->
  String.compare (a1 +:+ b1) (a2 +:+ b2)
  = match String.compare a1 a2 with
    | Eq => String.compare b1 b2
    | c => c
    end.
Proof.
  revert a2. induction a1 as [| c1 a1 IH]; intros [| c2 a2] Hlen;
    simpl in *; try discriminate; [reflexivity |].
  destruct (Ascii.compare c1 c2); try reflexivity.
  apply IH. congruence.
Qed.

Lemma string_length_app (a b : string) :
  String.length (a +:+ b) = (String.length a + String.length b)%nat.
Proof. induction a as [| c a IH]; simpl; [reflexivity | by rewrite IH]. Qed.

Lemma fixedDigits_length (w : nat) (n : Z) :
  String.length (fixedDigits w n) = w.
Proof.
  revert n. induction w as [| w IH]; intros n; simpl; [reflexivity |].
  rewrite string_length_app, IH. simpl. lia.
Qed.

Lemma digitChar_compare (a b : Z) :
  Ascii.compare (digitChar a) (digitChar b) = (a mod 10 ?= b mod 10).
Proof.
  pose proof (Z.mod_pos_bound a 10 ltac:(lia)) as Ha.
  pose proof (Z.mod_pos_bound b 10 ltac:(lia)) as Hb.
  unfold Ascii.compare, digitChar, ascii_of_nat.
  remember (a mod 10) as ra eqn:Era. remember (b mod 10) as rb eqn:Erb.
  clear Era Erb.
  rewrite !N_ascii_embedding by lia.
  rewrite <- N2Z.inj_compare, !nat_N_Z.
  rewrite !Nat2Z.inj_add, !Z2Nat.id by lia.
  apply Z.add_compare_mono_l.
Qed.

Lemma lex_div10_compare (a b : Z) :
  (a ?= b)
  = match a / 10 ?= b / 10 with
    | Eq => a mod 10 ?= b mod 10
    | c => c
    end.
Proof.
  pose proof (Z.div_mod a 10 ltac:(lia)) as Hda.
  pose proof (Z.div_mod b 10 ltac:(lia)) as Hdb.
  pose proof (Z.mod_pos_bound a 10 ltac:(lia)) as Hma.
  pose proof (Z.mod_pos_bound b 10 ltac:(lia)) as Hmb.
  remember (a / 10) as qa eqn:Eqa. remember (b / 10) as qb eqn:Eqb.
  remember (a mod 10) as ra eqn:Era. remember (b mod 10) as rb eqn:Erb.
  clear Eqa Eqb Era Erb.
  destruct (Z.compare_spec qa qb) as [Heq | Hlt | Hgt].
  - destruct (Z.compare_spec ra rb) as [Heq' | Hlt' | Hgt'].
    + apply Z.compare_eq_iff. lia.
    + apply Z.compare_lt_iff. lia.
    + apply Z.compare_gt_iff. lia.
  - apply Z.compare_lt_iff. lia.
  - apply Z.compare_gt_iff. lia.
Qed.

Lemma fixedDigits_compare (w : nat) :
  forall a b, 0 <= a < 10 ^ Z.of_nat w -> 0 <= b < 10 ^ Z.of_nat w ->
  String.compare (fixedDigits w a) (fixedDigits w b) = (a ?= b).
Proof.
  induction w as [| w IH]; intros a b Ha Hb.
  - change (10 ^ Z.of_nat 0) with 1 in *.
    assert (a = 0) by lia. assert (b = 0) by lia. subst. reflexivity.
  - rewrite Nat2Z.inj_succ, Z.pow_succ_r in Ha, Hb by lia.
    assert (Hqa : 0 <= a / 10 < 10 ^ Z.of_nat w)
      by (split; [apply Z.div_pos; lia | apply Z.div_lt_upper_bound; lia]).
    assert (Hqb : 0 <= b / 10 < 10 ^ Z.of_nat w)
      by (split; [apply Z.div_pos; lia | apply Z.div_lt_upper_bound; lia]).
    cbn [fixedDigits].
    rewrite string_compare_app by (rewrite !fixedDigits_length; reflexivity).
    rewrite (IH _ _ Hqa Hqb).
    cbn [String.compare].
    rewrite digitChar_compare.
    rewrite (lex_div10_compare a b).
    destruct (a / 10 ?= b / 10); try reflexivity.
    destruct (a mod 10 ?= b mod 10); reflexivity.
Qed.

Lemma digitCount_le (fuel : nat) :
  forall a w, 0 <= a < 10 ^ Z.of_nat w -> (1 <= w)%nat ->
  (digitCount fuel a <= w)%nat.
Proof.
  induction fuel as [| fuel IH]; intros a w Ha Hw; simpl; [exact Hw |].
  destruct (Z.ltb_spec a 10) as [Hlt | Hge]; [exact Hw |].
  destruct w as [| w]; [lia |].
  rewrite Nat2Z.inj_succ, Z.pow_succ_r in Ha by lia.
  destruct w as [| w].
  - change (10 ^ Z.of_nat 0) with 1 in Ha. lia.
  - apply le_n_S. apply IH; [| lia].
    split; [apply Z.div_pos; lia | apply Z.div_lt_upper_bound; lia].
Qed.

Lemma appendInt_fixed (x : Z) (w : nat) :
  0 <= x < 10 ^ Z.of_nat w -> (1 <= w)%nat ->
  appendInt x w = fixedDigits w x.
Proof.
  intros Hx Hw. unfold appendInt.
  destruct (Z.ltb_spec x 0) as [Hneg | _]; [lia |].
  rewrite Z.abs_eq by lia.
  rewrite Nat.max_l by (apply digitCount_le; assumption).
  reflexivity.
Qed.

(** A field of fixed width, then a separator: the field decides unless
    equal. *)
Lemma compare_field (w : nat) (a b : Z) (sep rest1 rest2 : string) :
  0 <= a < 10 ^ Z.of_nat w -> 0 <= b < 10 ^ Z.of_nat w -> (1 <= w)%nat ->
  String.compare (appendInt a w +:+ sep +:+ rest1)
    (appendInt b w +:+ sep +:+ rest2)
  = match a ?= b with
    | Eq => String.compare rest1 rest2
    | c => c
    end.
Proof.
  intros Ha Hb Hw. rewrite !appendInt_fixed by assumption.
  rewrite string_compare_app by (rewrite !fixedDigits_length; reflexivity).
  rewrite fixedDigits_compare by assumption.
  destruct (a ?= b); try reflexivity.
  rewrite string_compare_app by reflexivity.
  rewrite string_compare_refl. reflexivity.
Qed.

(** ** The calendar is monotone *)

Lemma checkEra_spec (n : nat) :
  forall prev lo, checkEra prev lo n = true ->
  (forall z, lo <= z < lo + Z.of_nat n -> eraDateOk (eraDate z) = true)
  /\ ((0 < n)%nat -> prev < dateNumber (eraDate lo))
  /\ (forall z, lo <= z -> z + 1 < lo + Z.of_nat n ->
        dateNumber (eraDate z) < dateNumber (eraDate (z + 1))).
Proof.
  induction n as [| n IH]; intros prev lo Hall.
  - split; [intros; lia |]. split; [intros; lia |]. intros; lia.
  - cbn [checkEra] in Hall. cbv zeta in Hall.
    apply andb_true_iff in Hall as [Hall Hrest].
    apply andb_true_iff in Hall as [Hok Hprev]. apply Z.ltb_lt in Hprev.
    destruct (IH _ _ Hrest) as (IHok & IHprev & IHstep).
    split; [| split].
    + intros z Hz. destruct (Z.eq_dec z lo) as [-> | Hne]; [exact Hok |].
      apply IHok. lia.
    + intros _. exact Hprev.
    + intros z Hz Hz1. destruct (Z.eq_dec z lo) as [-> | Hne].
      * apply IHprev. lia.
      * apply IHstep; lia.
Qed.

Lemma era_checked : checkEra (-1) 0 (Z.to_nat daysPerEra) = true.
Proof. vm_compute. reflexivity. Qed.

Lemma eraDate_ok (doe : Z) :
  0 <= doe < daysPerEra ->
  exists y m d,
    eraDate doe = (y, m, d)
    /\ 0 <= y <= 400 /\ 1 <= m <= 12 /\ 1 <= d <= 31
    /\ (y = 400 -> m <= 2) /\ (y = 0 -> 3 <= m).
Proof.
  intros Hdoe.
  destruct (checkEra_spec _ _ _ era_checked) as (Hok & _ & _).
  specialize (Hok doe). rewrite Z2Nat.id in Hok by discriminate.
  specialize (Hok ltac:(lia)).
  destruct (eraDate doe) as [[y m] d]. exists y, m, d.
  split; [reflexivity |]. unfold eraDateOk in Hok.
  rewrite !andb_true_iff, !Z.leb_le in Hok.
  destruct Hok as (((((((Hy0 & Hy1) & Hm0) & Hm1) & Hd0) & Hd1) & Hlast) & Hfirst).
  split; [lia |]. split; [lia |]. split; [lia |]. split.
  - intros Hy. rewrite Hy in Hlast. simpl in Hlast. by apply Z.leb_le.
  - intros Hy. rewrite Hy in Hfirst. simpl in Hfirst. by apply Z.leb_le.
Qed.

Lemma eraDate_step (doe : Z) :
  0 <= doe -> doe + 1 < daysPerEra ->
  dateNumber (eraDate doe) < dateNumber (eraDate (doe + 1)).
Proof.
  intros H0 H1.
  destruct (checkEra_spec _ _ _ era_checked) as (_ & _ & Hstep).
  apply Hstep; [lia |]. rewrite Z2Nat.id by discriminate. lia.
Qed.

Lemma eraDate_mono_nat (i : Z) (n : nat) :
  0 <= i -> i + Z.of_nat (S n) < daysPerEra ->
  dateNumber (eraDate i) < dateNumber (eraDate (i + Z.of_nat (S n))).
Proof.
  intros Hi. induction n as [| n IH]; intros Hn.
  - change (Z.of_nat 1) with 1 in *. by apply eraDate_step.
  - replace (i + Z.of_nat (S (S n))) with (i + Z.of_nat (S n) + 1) by lia.
    specialize (IH ltac:(lia)).
    pose proof (eraDate_step (i + Z.of_nat (S n)) ltac:(lia) ltac:(lia)).
    lia.
Qed.

Lemma eraDate_mono (i j : Z) :
  0 <= i -> i < j -> j < daysPerEra ->
  dateNumber (eraDate i) < dateNumber (eraDate j).
Proof.
  intros Hi Hij Hj.
  replace j with (i + Z.of_nat (S (Z.to_nat (j - i - 1)))) by lia.
  apply eraDate_mono_nat; lia.
Qed.

(** The date number of a day, by its era and its day of the era. *)
Lemma dateNumber_civil (days : Z) :
  dateNumber (civilFromDays days)
  = 4000000 * ((days + 719468) / daysPerEra)
    + dateNumber (eraDate ((days + 719468) mod daysPerEra)).
Proof.
  unfold civilFromDays. cbv zeta.
  destruct (eraDate ((days + 719468) mod daysPerEra)) as [[y m] d].
  unfold dateNumber. lia.
Qed.

Lemma dateNumber_era_bounds (doe : Z) :
  0 <= doe < daysPerEra ->
  301 <= dateNumber (eraDate doe) <= 4000231.
Proof.
  intros Hdoe.
  destruct (eraDate_ok doe Hdoe) as (y & m & d & -> & Hy & Hm & Hd & Hlast & Hfirst).
  unfold dateNumber.
  destruct (Z.eq_dec y 400) as [-> | Hn400]; [specialize (Hlast eq_refl); lia |].
  destruct (Z.eq_dec y 0) as [-> | Hn0]; [specialize (Hfirst eq_refl); lia |].
  lia.
Qed.

Lemma civilFromDays_mono (d1 d2 : Z) :
  d1 < d2 -> dateNumber (civilFromDays d1) < dateNumber (civilFromDays d2).
Proof.
  intros Hlt. rewrite !dateNumber_civil.
  assert (Hera : 0 < daysPerEra) by reflexivity.
  pose proof (Z.div_mod (d1 + 719468) daysPerEra ltac:(lia)) as E1.
  pose proof (Z.div_mod (d2 + 719468) daysPerEra ltac:(lia)) as E2.
  pose proof (Z.mod_pos_bound (d1 + 719468) daysPerEra Hera) as B1.
  pose proof (Z.mod_pos_bound (d2 + 719468) daysPerEra Hera) as B2.
  remember ((d1 + 719468) / daysPerEra) as e1 eqn:Ee1.
  remember ((d2 + 719468) / daysPerEra) as e2 eqn:Ee2.
  remember ((d1 + 719468) mod daysPerEra) as r1 eqn:Er1.
  remember ((d2 + 719468) mod daysPerEra) as r2 eqn:Er2.
  clear Ee1 Ee2 Er1 Er2.
  pose proof (dateNumber_era_bounds r1 B1) as K1.
  pose proof (dateNumber_era_bounds r2 B2) as K2.
  destruct (Z.lt_trichotomy e1 e2) as [He | [He | He]].
  - lia.
  - subst e2. assert (Hr : r1 < r2) by lia.
    pose proof (eraDate_mono r1 r2 ltac:(lia) Hr ltac:(lia)). lia.
  - exfalso. unfold daysPerEra in *. nia.
Qed.

(** ** The rendering of a timestamp is monotone *)

Lemma compare_field_last (w : nat) (a b : Z) (sep : string) :
  0 <= a < 10 ^ Z.of_nat w -> 0 <= b < 10 ^ Z.of_nat w -> (1 <= w)%nat ->
  String.compare (appendInt a w +:+ sep) (appendInt b w +:+ sep)
  = match a ?= b with
    | Eq => Eq
    | c => c
    end.
Proof.
  intros Ha Hb Hw. rewrite !appendInt_fixed by assumption.
  rewrite string_compare_app by (rewrite !fixedDigits_length; reflexivity).
  rewrite fixedDigits_compare by assumption.
  destruct (a ?= b); try reflexivity. apply string_compare_refl.
Qed.

(** Three fields below 100 each compare as the number they spell. *)
Lemma lex3_compare (a1 b1 c1 a2 b2 c2 : Z) (rest : comparison) :
  0 <= b1 < 100 -> 0 <= c1 < 100 -> 0 <= b2 < 100 -> 0 <= c2 < 100 ->
  match a1 ?= a2 with
  | Eq => match b1 ?= b2 with
          | Eq => match c1 ?= c2 with
                  | Eq => rest
                  | c => c
                  end
          | c => c
          end
  | c => c
  end
  = match (a1 * 100 + b1) * 100 + c1 ?= (a2 * 100 + b2) * 100 + c2 with
    | Eq => rest
    | c => c
    end.
Proof.
  intros Hb1 Hc1 Hb2 Hc2.
  destruct (Z.compare_spec a1 a2) as [Ha | Ha | Ha];
    destruct (Z.compare_spec b1 b2) as [Hb | Hb | Hb];
    destruct (Z.compare_spec c1 c2) as [Hc | Hc | Hc];
    destruct (Z.compare_spec ((a1 * 100 + b1) * 100 + c1)
                ((a2 * 100 + b2) * 100 + c2)) as [Hk | Hk | Hk];
    try reflexivity; exfalso; lia.
Qed.

(** The time of day as one number, [hhmmss]. *)
Lemma timeNumber_fields (secs : Z) :
  0 <= secs < 86400 ->
  0 <= secs / 3600 < 24 /\ 0 <= secs mod 3600 / 60 < 60
  /\ 0 <= secs mod 60 < 60
  /\ secs = 3600 * (secs / 3600) + 60 * (secs mod 3600 / 60) + secs mod 60.
Proof.
  intros Hs.
  pose proof (Z.div_mod secs 3600 ltac:(lia)) as E1.
  pose proof (Z.mod_pos_bound secs 3600 ltac:(lia)) as B1.
  pose proof (Z.div_mod (secs mod 3600) 60 ltac:(lia)) as E2.
  pose proof (Z.mod_pos_bound (secs mod 3600) 60 ltac:(lia)) as B2.
  assert (E3 : (secs mod 3600) mod 60 = secs mod 60).
  { rewrite <- (Z.mod_mod_divide secs 3600 60); [reflexivity |].
    exists 60. reflexivity. }
  rewrite E3 in *.
  remember (secs / 3600) as h. remember (secs mod 3600 / 60) as mi.
  remember (secs mod 60) as s. remember (secs mod 3600) as r.
  lia.
Qed.

Lemma fourDigitYear_date (ts : Z) :
  fourDigitYear ts ->
  exists y m d,
    civilFromDays (ts / 86400) = (y, m, d)
    /\ 0 <= y < 10000 /\ 0 <= m < 100 /\ 0 <= d < 100.
Proof.
  intros [Hlo Hhi]. unfold minTimestamp, maxTimestamp in *.
  assert (Hdlo : -719528 <= ts / 86400) by (apply Z.div_le_lower_bound; lia).
  assert (Hdhi : ts / 86400 <= 2932896)
    by (apply Z.lt_succ_r, Z.div_lt_upper_bound; lia).
  set (days := ts / 86400) in *.
  assert (Hn0 : 101 <= dateNumber (civilFromDays days)).
  { destruct (Z.eq_dec days (-719528)) as [-> | Hne]; [vm_compute; discriminate |].
    pose proof (civilFromDays_mono (-719528) days ltac:(lia)) as Hm.
    change (dateNumber (civilFromDays (-719528))) with 101 in Hm. lia. }
  assert (Hn1 : dateNumber (civilFromDays days) <= 99991231).
  { destruct (Z.eq_dec days 2932896) as [-> | Hne]; [vm_compute; discriminate |].
    pose proof (civilFromDays_mono days 2932896 ltac:(lia)) as Hm.
    change (dateNumber (civilFromDays 2932896)) with 99991231 in Hm. lia. }
  unfold civilFromDays in *. cbv zeta in *.
  destruct (eraDate_ok ((days + 719468) mod daysPerEra))
    as (y & m & d & E & Hy & Hm & Hd & _);
    [apply Z.mod_pos_bound; reflexivity |].
  rewrite E in *. unfold dateNumber in *.
  eexists _, m, d. split; [reflexivity |]. lia.
Qed.

Lemma formatRFC3339_compare (a b : Z) :
  fourDigitYear a -> fourDigitYear b ->
  String.compare (formatRFC3339 a) (formatRFC3339 b) = (a ?= b).
Proof.
  intros Ha Hb.
  destruct (Z.eq_dec a b) as [-> | Hne];
    [rewrite string_compare_refl, Z.compare_refl; reflexivity |].
  unfold formatRFC3339. cbv zeta.
  destruct (fourDigitYear_date a Ha) as (y1 & m1 & d1 & E1 & Hy1 & Hm1 & Hd1).
  destruct (fourDigitYear_date b Hb) as (y2 & m2 & d2 & E2 & Hy2 & Hm2 & Hd2).
  pose proof (civilFromDays_mono (a / 86400) (b / 86400)) as Mab.
  pose proof (civilFromDays_mono (b / 86400) (a / 86400)) as Mba.
  rewrite E1, E2 in *.
  pose proof (Z.div_mod a 86400 ltac:(lia)) as Da.
  pose proof (Z.div_mod b 86400 ltac:(lia)) as Db.
  pose proof (Z.mod_pos_bound a 86400 ltac:(lia)) as Ba.
  pose proof (Z.mod_pos_bound b 86400 ltac:(lia)) as Bb.
  destruct (timeNumber_fields (a mod 86400) Ba) as (Hh1 & Hi1 & Hs1 & Es1).
  destruct (timeNumber_fields (b mod 86400) Bb) as (Hh2 & Hi2 & Hs2 & Es2).
  remember (a / 86400) as da eqn:Q1. remember (b / 86400) as db eqn:Q2.
  remember (a mod 86400) as sa eqn:Q3. remember (b mod 86400) as sb eqn:Q4.
  remember (sa / 3600) as h1 eqn:Q5. remember (sa mod 3600 / 60) as i1 eqn:Q6.
  remember (sa mod 60) as s1 eqn:Q7.
  remember (sb / 3600) as h2 eqn:Q8. remember (sb mod 3600 / 60) as i2 eqn:Q9.
  remember (sb mod 60) as s2 eqn:Q10.
  clear Q1 Q2 Q3 Q4 Q5 Q6 Q7 Q8 Q9 Q10.
  rewrite (compare_field 4) by (change (10 ^ Z.of_nat 4) with 10000; lia).
  rewrite !(compare_field 2) by (change (10 ^ Z.of_nat 2) with 100; lia).
  rewrite (compare_field_last 2) by (change (10 ^ Z.of_nat 2) with 100; lia).
  rewrite (lex3_compare h1 i1 s1 h2 i2 s2 Eq) by lia.
  rewrite (lex3_compare y1 m1 d1 y2 m2 d2) by lia.
  unfold dateNumber in Mab, Mba.
  destruct (Z.compare_spec a b) as [Hab | Hab | Hab]; [contradiction | |].
  - destruct (Z.lt_trichotomy da db) as [Hd | [Hd | Hd]]; [| | lia].
    + specialize (Mab Hd). rewrite (proj2 (Z.compare_lt_iff _ _) Mab). reflexivity.
    + subst db. assert (E : (y1, m1, d1) = (y2, m2, d2)) by congruence.
      injection E as -> -> ->. rewrite Z.compare_refl.
      assert (Hlt : (h1 * 100 + i1) * 100 + s1 < (h2 * 100 + i2) * 100 + s2) by lia.
      rewrite (proj2 (Z.compare_lt_iff _ _) Hlt). reflexivity.
  - destruct (Z.lt_trichotomy db da) as [Hd | [Hd | Hd]]; [| | lia].
    + specialize (Mba Hd). rewrite (proj2 (Z.compare_gt_iff _ _) Mba). reflexivity.
    + subst db. assert (E : (y1, m1, d1) = (y2, m2, d2)) by congruence.
      injection E as -> -> ->. rewrite Z.compare_refl.
      assert (Hlt : (h2 * 100 + i2) * 100 + s2 < (h1 * 100 + i1) * 100 + s1) by lia.
      rewrite (proj2 (Z.compare_gt_iff _ _) Hlt). reflexivity.
Qed.

Lemma formatRFC3339_ltb (a b : Z) :
  fourDigitYear a -> fourDigitYear b ->
  String.ltb (formatRFC3339 a) (formatRFC3339 b) = (a <? b).
Proof.
  intros Ha Hb. unfold String.ltb, Z.ltb.
  rewrite formatRFC3339_compare by assumption. reflexivity.
Qed.

(** ** Sorting the response *)

Lemma insertKeyed_perm x l : insertKeyed x l ≡ₚ x :: l.
Proof.
  induction l as [| y l IH]; simpl; [reflexivity |].
  destruct (fst y <? fst x); [| reflexivity].
  rewrite IH. apply Permutation_swap.
Qed.

Lemma sortKeyed_perm l : sortKeyed l ≡ₚ l.
Proof.
  induction l as [| x l IH]; simpl; [reflexivity |].
  rewrite insertKeyed_perm. by constructor.
Qed.

Definition keyedLe (a b : Z * gmap string float64) : Prop := fst a <= fst b.

Lemma insertKeyed_sorted x l :
  StronglySorted keyedLe l -> StronglySorted keyedLe (insertKeyed x l).
Proof.
  induction 1 as [| y l Hl IH Hy]; simpl.
  - constructor; constructor.
  - destruct (Z.ltb_spec (fst y) (fst x)) as [Hlt | Hge].
    + constructor; [exact IH |].
      rewrite insertKeyed_perm. constructor; [unfold keyedLe; lia | exact Hy].
    + constructor; [by constructor |].
      constructor; [exact Hge |].
      eapply Forall_impl; [exact Hy |]. unfold keyedLe. intros z Hz. lia.
Qed.

Lemma sortKeyed_sorted l : StronglySorted keyedLe (sortKeyed l).
Proof.
  induction l as [| x l IH]; simpl; [constructor | by apply insertKeyed_sorted].
Qed.

(** With distinct timestamps the order is strict. *)
Lemma sorted_strict (l : list (Z * gmap string float64)) :
  StronglySorted keyedLe l -> NoDup (map fst l) ->
  StronglySorted (fun a b => fst a < fst b) l.
Proof.
  induction 1 as [| x l Hl IH Hx]; intros Hnd; [constructor |].
  simpl in Hnd. apply NoDup_cons in Hnd as [Hnotin Hnd].
  constructor; [by apply IH |].
  rewrite Forall_forall in Hx |- *. intros y Hy.
  specialize (Hx y Hy). unfold keyedLe in Hx.
  assert (fst x <> fst y).
  { intros Heq. apply Hnotin. rewrite Heq. apply list_elem_of_fmap.
    exists y. split; [reflexivity | exact Hy]. }
  lia.
Qed.

(** On timestamps of four-digit years, sorting the rendered rows by their
    time strings is sorting by timestamp. *)
Lemma insertRow_render x l :
  fourDigitYear (fst x) -> Forall (fun y => fourDigitYear (fst y)) l ->
  insertRow (renderRow x) (map renderRow l) = map renderRow (insertKeyed x l).
Proof.
  intros Hx. induction 1 as [| y l Hy Hl IH]; simpl; [reflexivity |].
  rewrite (formatRFC3339_ltb (fst y) (fst x) Hy Hx).
  destruct (fst y <? fst x); simpl; [by rewrite IH | reflexivity].
Qed.

Lemma sortRows_render l :
  Forall (fun y => fourDigitYear (fst y)) l ->
  sortRows (map renderRow l) = map renderRow (sortKeyed l).
Proof.
  induction 1 as [| x l Hx Hl IH]; [reflexivity |].
  change (insertRow (renderRow x) (sortRows (map renderRow l))
          = map renderRow (insertKeyed x (sortKeyed l))).
  rewrite IH.
  apply insertRow_render; [exact Hx |].
  rewrite sortKeyed_perm. exact Hl.
Qed.

(** ** Grouping points by timestamp *)

Lemma groupPoints_cons f dp dps acc :
  groupPoints f (dp :: dps) acc = groupPoints f dps (groupStep f acc dp).
Proof. reflexivity. Qed.

Lemma cellOf_groupStep f acc dp ts k :
  cellOf (groupStep f acc dp) ts k
  = if decide (ts = Timestamp dp /\ k = reportedName f) then Some (Value dp)
    else cellOf acc ts k.
Proof.
  unfold cellOf, groupStep.
  destruct (decide (ts = Timestamp dp)) as [-> | Hts].
  - rewrite lookup_insert_eq.
    destruct (decide (k = reportedName f)) as [-> | Hk].
    + rewrite lookup_insert_eq. rewrite decide_True by done. reflexivity.
    + rewrite lookup_insert_ne by congruence.
      rewrite decide_False by (intros [_ ?]; contradiction).
      destruct (acc !! Timestamp dp); [reflexivity | apply lookup_empty].
  - rewrite lookup_insert_ne by congruence.
    rewrite decide_False by (intros [? _]; contradiction). reflexivity.
Qed.

Lemma groupStep_rows f acc dp ts :
  is_Some (groupStep f acc dp !! ts)
  <-> ts = Timestamp dp \/ is_Some (acc !! ts).
Proof.
  unfold groupStep. destruct (decide (ts = Timestamp dp)) as [-> | Hts].
  - rewrite lookup_insert_eq. split; [auto | eauto].
  - rewrite lookup_insert_ne by congruence. split; [auto | intros [? | ?]; done].
Qed.

Lemma groupPoints_sound f dps :
  forall acc ts k v,
  cellOf (groupPoints f dps acc) ts k = Some v ->
  cellOf acc ts k = Some v
  \/ (k = reportedName f /\ {| Timestamp := ts; Value := v |} ∈ dps).
Proof.
  induction dps as [| dp dps IH]; intros acc ts k v Hcell; [by left |].
  rewrite groupPoints_cons in Hcell.
  destruct (IH _ _ _ _ Hcell) as [Hstep | [Hk Hin]].
  - rewrite cellOf_groupStep in Hstep.
    destruct (decide (ts = Timestamp dp /\ k = reportedName f)) as [[-> ->] | _].
    + right. split; [reflexivity |]. injection Hstep as <-.
      destruct dp. simpl. apply list_elem_of_here.
    + by left.
  - right. split; [exact Hk |]. by apply list_elem_of_further.
Qed.

Lemma groupPoints_keeps f dps :
  forall acc ts k,
  is_Some (cellOf acc ts k) -> is_Some (cellOf (groupPoints f dps acc) ts k).
Proof.
  induction dps as [| dp dps IH]; intros acc ts k Hcell; [exact Hcell |].
  rewrite groupPoints_cons. apply IH. rewrite cellOf_groupStep.
  destruct (decide _); [eauto | exact Hcell].
Qed.

Lemma groupPoints_complete f dps :
  forall acc dp, dp ∈ dps ->
  is_Some (cellOf (groupPoints f dps acc) (Timestamp dp) (reportedName f)).
Proof.
  induction dps as [| dp0 dps IH]; intros acc dp Hin; [by apply elem_of_nil in Hin |].
  rewrite groupPoints_cons. apply elem_of_cons in Hin as [-> | Hin].
  - apply groupPoints_keeps. rewrite cellOf_groupStep.
    rewrite decide_True by done. eauto.
  - by apply IH.
Qed.

Lemma groupPoints_rows f dps :
  forall acc ts,
  is_Some (groupPoints f dps acc !! ts)
  <-> is_Some (acc !! ts) \/ (exists dp, dp ∈ dps /\ Timestamp dp = ts).
Proof.
  induction dps as [| dp dps IH]; intros acc ts.
  - simpl. split; [auto |]. intros [? | (dp & Hin & _)]; [done |].
    by apply elem_of_nil in Hin.
  - rewrite groupPoints_cons, IH, groupStep_rows. split.
    + intros [[-> | Hacc] | (dp' & Hin & Hts)].
      * right. exists dp. split; [apply list_elem_of_here | reflexivity].
      * by left.
      * right. exists dp'. split; [by apply list_elem_of_further | exact Hts].
    + intros [Hacc | (dp' & Hin & Hts)]; [by left; right |].
      apply elem_of_cons in Hin as [-> | Hin]; [by left; left |].
      right. by exists dp'.
Qed.

(** ** The field loop *)

Section FieldLoop.
Context `{HS : Host} `{EN : Engine}.

Lemma collectFields_sound sto fields start end_ :
  forall acc data ts k v,
  collectFields sto fields start end_ acc = Ok data ->
  cellOf data ts k = Some v ->
  cellOf acc ts k = Some v
  \/ (exists f dps,
        f ∈ fields /\ k = reportedName f
        /\ GetDataPoints sto f [GetHostLabel] start end_ = Ok dps
        /\ {| Timestamp := ts; Value := v |} ∈ dps).
Proof.
  induction fields as [| f fields IH]; intros acc data ts k v Hrun Hcell.
  - simpl in Hrun. injection Hrun as <-. by left.
  - simpl in Hrun.
    destruct (GetDataPoints sto f [GetHostLabel] start end_) as [dps | e] eqn:Hsel;
      [| discriminate].
    destruct (IH _ _ _ _ _ Hrun Hcell) as [Hacc | (f' & dps' & Hin & Hk & Hsel' & Hdp)].
    + destruct (groupPoints_sound _ _ _ _ _ _ Hacc) as [? | [Hk Hdp]]; [by left |].
      right. exists f, dps. split; [apply list_elem_of_here | done].
    + right. exists f', dps'. split; [by apply list_elem_of_further | done].
Qed.

Lemma collectFields_keeps sto fields start end_ :
  forall acc data ts k,
  collectFields sto fields start end_ acc = Ok data ->
  is_Some (cellOf acc ts k) -> is_Some (cellOf data ts k).
Proof.
  induction fields as [| f fields IH]; intros acc data ts k Hrun Hcell.
  - simpl in Hrun. by injection Hrun as <-.
  - simpl in Hrun.
    destruct (GetDataPoints sto f [GetHostLabel] start end_) as [dps | e] eqn:Hsel;
      [| discriminate].
    apply (IH _ _ _ _ Hrun). by apply groupPoints_keeps.
Qed.

Lemma collectFields_complete sto fields start end_ :
  forall acc data f dps dp,
  collectFields sto fields start end_ acc = Ok data ->
  f ∈ fields ->
  GetDataPoints sto f [GetHostLabel] start end_ = Ok dps ->
  dp ∈ dps ->
  is_Some (cellOf data (Timestamp dp) (reportedName f)).
Proof.
  induction fields as [| f0 fields IH]; intros acc data f dps dp Hrun Hin Hsel Hdp.
  - by apply elem_of_nil in Hin.
  - simpl in Hrun.
    destruct (GetDataPoints sto f0 [GetHostLabel] start end_) as [dps0 | e] eqn:Hsel0;
      [| discriminate].
    apply elem_of_cons in Hin as [-> | Hin].
    + apply (collectFields_keeps _ _ _ _ _ _ _ _ Hrun).
      rewrite Hsel in Hsel0. injection Hsel0 as <-.
      by apply groupPoints_complete.
    + by apply (IH _ _ _ _ _ Hrun Hin Hsel).
Qed.

Lemma collectFields_rows sto fields start end_ :
  forall acc data ts,
  collectFields sto fields start end_ acc = Ok data ->
  is_Some (data !! ts) ->
  is_Some (acc !! ts)
  \/ (exists f dps dp,
        f ∈ fields /\ GetDataPoints sto f [GetHostLabel] start end_ = Ok dps
        /\ dp ∈ dps /\ Timestamp dp = ts).
Proof.
  induction fields as [| f fields IH]; intros acc data ts Hrun Hrow.
  - simpl in Hrun. injection Hrun as <-. by left.
  - simpl in Hrun.
    destruct (GetDataPoints sto f [GetHostLabel] start end_) as [dps | e] eqn:Hsel;
      [| discriminate].
    destruct (IH _ _ _ Hrun Hrow) as [Hacc | (f' & dps' & dp & Hin & Hsel' & Hdp & Hts)].
    + apply groupPoints_rows in Hacc as [? | (dp & Hdp & Hts)]; [by left |].
      right. exists f, dps, dp. split; [apply list_elem_of_here | done].
    + right. exists f', dps', dp. split; [by apply list_elem_of_further | done].
Qed.

(** A selected point is the point of a stored row inside the window. *)
Lemma Select_sound sto metric labels start end_ dps dp :
  Select sto metric labels start end_ = Ok dps -> dp ∈ dps ->
  exists r, r ∈ sto /\ Point r = dp /\ Metric r = metric
            /\ inWindow start end_ (Timestamp dp) = true.
Proof.
  unfold Select. intros Hsel Hdp.
  assert (Hin : dp ∈ map Point (List.filter (rowSelected metric labels start end_) sto)).
  { destruct (map Point (List.filter (rowSelected metric labels start end_) sto))
      as [| p ps]; [| by injection Hsel as <-].
    destruct emptySelectionFails; [discriminate |].
    injection Hsel as <-. by apply elem_of_nil in Hdp. }
  apply list_elem_of_fmap in Hin as (r & -> & Hr).
  apply list_elem_of_In, filter_In in Hr as [Hr Hsel'].
  unfold rowSelected in Hsel'.
  apply andb_true_iff in Hsel' as [Hsel' Hwin].
  apply andb_true_iff in Hsel' as [Hm _].
  exists r. split; [by apply list_elem_of_In |].
  split; [reflexivity |]. split; [by apply String.eqb_eq | exact Hwin].
Qed.

End FieldLoop.

(** ** The rows of a response *)

Section QueryRows.
Context `{HS : Host} `{EN : Engine}.

Lemma GetServiceMetricsFromStorage_rows sto fieldNames startTime endTime
    serviceStartTime rows :
  GetServiceMetricsFromStorage sto fieldNames startTime endTime serviceStartTime
  = Ok rows ->
  exists data,
    collectFields sto fieldNames (windowStart startTime serviceStartTime)
      (unixSeconds endTime) ∅ = Ok data
    /\ rows = sortRows (map renderRow (map_to_list data)).
Proof.
  unfold GetServiceMetricsFromStorage, windowStart. cbv zeta.
  destruct (collectFields sto fieldNames _ (unixSeconds endTime) ∅)
    as [data | e]; [| discriminate].
  intros [= <-]. exists data. split; reflexivity.
Qed.

Lemma StronglySorted_render (l : list (Z * gmap string float64)) :
  Forall (fun y => fourDigitYear (fst y)) l ->
  StronglySorted (fun a b => fst a < fst b) l ->
  StronglySorted (fun r1 r2 => String.ltb (rowTime r1) (rowTime r2) = true)
    (map renderRow l).
Proof.
  intros Hrange. induction 1 as [| x l Hl IH Hx]; simpl; [constructor |].
  apply Forall_cons in Hrange as [Hxr Hlr].
  constructor; [by apply IH |].
  rewrite Forall_forall in Hx, Hlr. apply Forall_forall. intros r Hr.
  apply list_elem_of_fmap in Hr as (y & -> & Hy). simpl.
  rewrite formatRFC3339_ltb by auto. apply Z.ltb_lt. by apply Hx.
Qed.

End QueryRows.

(** C3 as stated fails: asked for the field ["heap_alloc"] over a window
    that holds one snapshot, the response has one row whose only key is
    ["HeapAlloc"], which is not a requested field name. *)
Lemma C3_alias_counterexample :
  StoreServiceMetrics (HS := sampleHost) sampleStats sampleNow [] = Ok sampleStored
  /\ GetServiceMetricsFromStorage (HS := sampleHost) (EN := sampleEngine)
       sampleStored ["heap_alloc"] 1699999000000000000 1700000900000000000
       1699990000000000000
     = Ok [ {| rowTime := "2023-11-14T22:13:20Z";
               rowValue := {[ "HeapAlloc" := f64_of_Z 4 ]} |} ]
  /\ "HeapAlloc" ∉ ["heap_alloc"].
Proof.
  split; [vm_compute; reflexivity |].
  split; [vm_compute; reflexivity |].
  intros Hin. apply list_elem_of_singleton in Hin. discriminate.
Qed.

(** C3, amended.  When a query answers with rows and the stored timestamps
    are of the years 0000 to 9999:
    - the rows are the rendering of timestamped value maps in strictly
      ascending order of timestamp, and their time strings ascend strictly;
      so there is one row per timestamp;
    - a key of a row's value map is the reported name (the [NameMap] alias
      where there is one, else the name itself) of a requested field, and its
      value is that of a point of that field at the row's timestamp inside
      the window: nothing is padded in;
    - every point of a requested field inside the window has its field's
      reported name as a key of the row of its timestamp: points of different
      fields meet in one row iff their timestamps are equal. *)
Theorem C3_query_rows `{HS : Host} `{EN : Engine} (sto : Storage)
    (fieldNames : list string) (startTime endTime serviceStartTime : Z)
    (rows : list ResultRow) :
  (forall r, r ∈ sto -> fourDigitYear (Timestamp (Point r))) ->
  GetServiceMetricsFromStorage sto fieldNames startTime endTime serviceStartTime
  = Ok rows ->
  let start := windowStart startTime serviceStartTime in
  let end_ := unixSeconds endTime in
  exists keyed : list (Z * gmap string float64),
    rows = map renderRow keyed
    /\ StronglySorted (fun a b => fst a < fst b) keyed
    /\ StronglySorted
         (fun r1 r2 => String.ltb (rowTime r1) (rowTime r2) = true) rows
    /\ (forall ts values k v,
          (ts, values) ∈ keyed -> values !! k = Some v ->
          exists f dps,
            f ∈ fieldNames /\ k = reportedName f
            /\ Select sto f [GetHostLabel] start end_ = Ok dps
            /\ {| Timestamp := ts; Value := v |} ∈ dps)
    /\ (forall f dps dp,
          f ∈ fieldNames -> Select sto f [GetHostLabel] start end_ = Ok dps ->
          dp ∈ dps ->
          exists values,
            (Timestamp dp, values) ∈ keyed
            /\ is_Some (values !! reportedName f)).
Proof.
  intros Hrange Hquery start end_.
  destruct (GetServiceMetricsFromStorage_rows _ _ _ _ _ _ Hquery)
    as (data & Hdata & ->).
  fold start end_ in Hdata.
  assert (Hyears : Forall (fun y => fourDigitYear (fst y)) (map_to_list data)).
  { apply Forall_forall. intros [ts values] Hin. simpl.
    apply elem_of_map_to_list in Hin.
    destruct (collectFields_rows _ _ _ _ _ _ ts Hdata ltac:(eauto))
      as [Hacc | (f & dps & dp & _ & Hsel & Hdp & <-)].
    - rewrite lookup_empty in Hacc. by destruct Hacc.
    - destruct (Select_sound _ _ _ _ _ _ _ Hsel Hdp) as (r & Hr & <- & _).
      by apply Hrange. }
  assert (Hsorted : StronglySorted (fun a b => fst a < fst b)
                      (sortKeyed (map_to_list data))).
  { apply sorted_strict; [apply sortKeyed_sorted |].
    rewrite sortKeyed_perm. apply NoDup_fst_map_to_list. }
  assert (Hyears' : Forall (fun y => fourDigitYear (fst y))
                      (sortKeyed (map_to_list data)))
    by (rewrite sortKeyed_perm; exact Hyears).
  exists (sortKeyed (map_to_list data)).
  split; [by apply sortRows_render |].
  split; [exact Hsorted |].
  split; [rewrite sortRows_render by exact Hyears;
          by apply StronglySorted_render |].
  split.
  - intros ts values k v Hin Hk.
    rewrite sortKeyed_perm in Hin. apply elem_of_map_to_list in Hin.
    assert (Hcell : cellOf data ts k = Some v)
      by (unfold cellOf; rewrite Hin; exact Hk).
    destruct (collectFields_sound _ _ _ _ _ _ _ _ _ Hdata Hcell)
      as [Hacc | (f & dps & Hf & Hkf & Hsel & Hdp)].
    + unfold cellOf in Hacc. rewrite lookup_empty in Hacc. discriminate.
    + exists f, dps. auto.
  - intros f dps dp Hf Hsel Hdp.
    pose proof (collectFields_complete _ _ _ _ _ _ _ _ _ Hdata Hf Hsel Hdp)
      as Hcell.
    unfold cellOf in Hcell.
    destruct (data !! Timestamp dp) as [values |] eqn:Hrow;
      [| by destruct Hcell].
    exists values. split; [| exact Hcell].
    rewrite sortKeyed_perm. by apply elem_of_map_to_list.
Qed.

Lemma C3_query_rows_witness :
  (forall r, r ∈ sampleSeries -> fourDigitYear (Timestamp (Point r)))
  /\ GetServiceMetricsFromStorage (HS := sampleHost) (EN := sampleEngine)
       sampleSeries ["goroutines"; "heap_alloc"] 1699999000000000000
       1700000900000000000 1699990000000000000
     = Ok [ {| rowTime := "2023-11-14T22:13:20Z";
               rowValue := {[ "goroutines" := f64_of_Z 5;
                              "HeapAlloc" := f64_of_Z 7 ]} |};
            {| rowTime := "2023-11-14T22:14:20Z";
               rowValue := {[ "goroutines" := f64_of_Z 6 ]} |} ]
  /\ exists keyed : list (Z * gmap string float64),
       [ {| rowTime := "2023-11-14T22:13:20Z";
            rowValue := {[ "goroutines" := f64_of_Z 5;
                           "HeapAlloc" := f64_of_Z 7 ]} |};
         {| rowTime := "2023-11-14T22:14:20Z";
            rowValue := {[ "goroutines" := f64_of_Z 6 ]} |} ]
       = map renderRow keyed
       /\ StronglySorted (fun a b => fst a < fst b) keyed.
Proof.
  assert (H1 : forall r, r ∈ sampleSeries -> fourDigitYear (Timestamp (Point r))).
  { intros r Hr. unfold sampleSeries in Hr.
    repeat (apply elem_of_cons in Hr as [-> | Hr];
            [unfold fourDigitYear, minTimestamp, maxTimestamp; simpl; lia |]).
    by apply elem_of_nil in Hr. }
  assert (H2 : GetServiceMetricsFromStorage (HS := sampleHost) (EN := sampleEngine)
       sampleSeries ["goroutines"; "heap_alloc"] 1699999000000000000
       1700000900000000000 1699990000000000000
     = Ok [ {| rowTime := "2023-11-14T22:13:20Z";
               rowValue := {[ "goroutines" := f64_of_Z 5;
                              "HeapAlloc" := f64_of_Z 7 ]} |};
            {| rowTime := "2023-11-14T22:14:20Z";
               rowValue := {[ "goroutines" := f64_of_Z 6 ]} |} ])
    by (vm_compute; reflexivity).
  split; [exact H1 |]. split; [exact H2 |].
  destruct (C3_query_rows (HS := sampleHost) (EN := sampleEngine) sampleSeries
              ["goroutines"; "heap_alloc"] 1699999000000000000
              1700000900000000000 1699990000000000000 _ H1 H2)
    as (keyed & Hrows & Hsorted & _).
  exists keyed. split; [exact Hrows | exact Hsorted].
Defined.

(** ** One snapshot in the window *)










Section OneSnapshot.
Context `{HS : Host} `{EN : Engine}.

Lemma snapshotRows_metrics s ms label ts :
  RawMemStatsRecordsOf (MemoryStatisticsOf s) = ConstructRawMemStats ms ->
  map Metric (snapshotRows s label ts) = snapshotMetricNames.
Proof.
  intros Hraw. unfold snapshotRows, generateMemoryStatsRows. rewrite Hraw.
  reflexivity.
Qed.


Variables (rows sto0 : list Row) (ts start end_ : Z).
Hypothesis rows_uniform :
  forall r, r ∈ rows -> Labels r = [GetHostLabel] /\ Timestamp (Point r) = ts.
Hypothesis ts_in_window : inWindow start end_ ts = true.
Hypothesis sto0_outside :
  forall r, r ∈ sto0 -> inWindow start end_ (Timestamp (Point r)) = false.
Hypothesis rows_distinct : NoDup (map Metric rows).



Hypothesis reported_distinct : NoDup (map reportedName (map Metric rows)).









End OneSnapshot.

Section RoundTrip.
Context `{HS : Host} `{EN : Engine}.


End RoundTrip.




(** ** Concurrent callers *)

Lemma countIf_insert (P : PC -> bool) (l : list PC) (i : nat) (x y : PC) :
  l !! i = Some x ->
  (countIf P (<[i := y]> l) + (if P x then 1 else 0) =
   countIf P l + (if P y then 1 else 0))%nat.
Proof.
  revert i; induction l as [|a l IH]; intros [|i] H; simpl in *; try discriminate.
  - injection H as ->. lia.
  - specialize (IH i H). lia.
Qed.

Lemma countIf_le_length (P : PC -> bool) (l : list PC) :
  (countIf P l <= length l)%nat.
Proof. induction l as [|a l IH]; simpl; [lia | destruct (P a); lia]. Qed.

Lemma countIf_all (P : PC -> bool) (l : list PC) :
  (forall i pc, l !! i = Some pc -> P pc = true) -> countIf P l = length l.
Proof.
  induction l as [|a l IH]; intros H; simpl; [reflexivity|].
  rewrite (H 0%nat a eq_refl). rewrite IH; [reflexivity|].
  intros i pc Hi. exact (H (S i) pc Hi).
Qed.

Lemma countIf_none (P : PC -> bool) (l : list PC) :
  (forall i pc, l !! i = Some pc -> P pc = false) -> countIf P l = 0%nat.
Proof.
  induction l as [|a l IH]; intros H; simpl; [reflexivity|].
  rewrite (H 0%nat a eq_refl). rewrite IH; [reflexivity|].
  intros i pc Hi. exact (H (S i) pc Hi).
Qed.

Lemma writeFields_all `{RT : Runtime} (name : string) (sp : bool) (env : Env)
    (m : FunctionMetrics) :
  writeFields name sp env (fieldWrites sp) m = recordAfter name sp env (Some m).
Proof. destruct sp, m; reflexivity. Qed.

Lemma replay_snoc `{RT : Runtime} (name : string) (rate : Z) (envs : nat -> Env)
    (table0 : gmap string FunctionMetrics) (log : list (nat * Z)) (i : nat) (k : Z) :
  replay name rate envs table0 (log ++ [(i, k)]) =
  applyUpdate name (shouldProfileAt k rate) (envs i)
    (replay name rate envs table0 log).
Proof. unfold replay. rewrite foldl_app. reflexivity. Qed.

Section Preservation.
Context `{RT : Runtime}.
Variables (name : string) (rate : Z) (envs : nat -> Env).
Variable table0 : gmap string FunctionMetrics.

Lemma is_Some_insert (l : list PC) (i j : nat) (pc : PC) :
  is_Some (l !! j) -> is_Some (<[i := pc]> l !! j).
Proof. rewrite !lookup_lt_is_Some, length_insert. auto. Qed.

Lemma log_frame (log : list (nat * Z)) (l : list PC) (i : nat) (pc pc' : PC) :
  (forall j k, (j, k) ∈ log <-> l !! j = Some (PcFinished k)) ->
  l !! i = Some pc -> isFinished pc = false -> isFinished pc' = false ->
  forall j k, (j, k) ∈ log <-> <[i := pc']> l !! j = Some (PcFinished k).
Proof.
  intros Hlog Hi Hpc Hpc' j k. rewrite Hlog.
  destruct (decide (i = j)) as [<- | Hne].
  - rewrite list_lookup_insert_eq by (eapply lookup_lt_Some; eauto).
    rewrite Hi. split; intros [= ->]; discriminate.
  - rewrite list_lookup_insert_ne by exact Hne. reflexivity.
Qed.

Lemma log_finish (log : list (nat * Z)) (l : list PC) (i : nat) (pc : PC)
    (count : Z) :
  (forall j k, (j, k) ∈ log <-> l !! j = Some (PcFinished k)) ->
  l !! i = Some pc -> isFinished pc = false ->
  forall j k, (j, k) ∈ log ++ [(i, count)] <->
              <[i := PcFinished count]> l !! j = Some (PcFinished k).
Proof.
  intros Hlog Hi Hpc j k. rewrite elem_of_app, list_elem_of_singleton, Hlog.
  destruct (decide (i = j)) as [<- | Hne].
  - rewrite list_lookup_insert_eq by (eapply lookup_lt_Some; eauto).
    rewrite Hi. split.
    + intros [[= ->] | [= ->]]; [discriminate | reflexivity].
    + intros [= ->]. right; reflexivity.
  - rewrite list_lookup_insert_ne by exact Hne. split.
    + intros [H | [= -> ->]]; [exact H | congruence].
    + intros H; left; exact H.
Qed.

Lemma log_finish_nodup (log : list (nat * Z)) (l : list PC) (i : nat) (pc : PC)
    (count : Z) :
  (forall j k, (j, k) ∈ log <-> l !! j = Some (PcFinished k)) ->
  l !! i = Some pc -> isFinished pc = false ->
  NoDup log -> NoDup (log ++ [(i, count)]).
Proof.
  intros Hlog Hi Hpc Hnd. apply NoDup_app. split; [exact Hnd|]. split.
  - intros [j k] Hjk Hin. apply list_elem_of_singleton in Hin.
    injection Hin as -> ->. apply (proj1 (Hlog _ _)) in Hjk. rewrite Hi in Hjk.
    injection Hjk as ->. discriminate.
  - apply NoDup_singleton.
Qed.

Lemma heldTable_outside (i : nat) (pc : PC) (sh : Shared) :
  inTableSection pc = false -> heldTable name rate envs table0 i pc sh.
Proof. destruct pc; simpl; intros H; (exact I || discriminate). Qed.

Lemma counterOf_insert (counters : gmap string Z) (v : Z) :
  counterOf (<[name := v]> counters) name = v.
Proof. unfold counterOf. rewrite lookup_insert_eq. reflexivity. Qed.

Lemma countIf_pos (P : PC -> bool) (l : list PC) (i : nat) (pc : PC) :
  l !! i = Some pc -> P pc = true -> (1 <= countIf P l)%nat.
Proof.
  revert i; induction l as [|a l IH]; intros [|i] Hi Hp; simpl in *;
    try discriminate.
  - injection Hi as ->. rewrite Hp. lia.
  - specialize (IH i Hi Hp). lia.
Qed.

Ltac look H :=
  apply list_lookup_insert_Some in H as [(? & ? & ?) | (? & H)];
  simplify_eq; simpl in *.

Ltac inst :=
  repeat match goal with
  | Hall : forall j pc, threads ?c !! j = Some pc -> _,
    Hj : threads ?c !! ?j = Some ?pc |- _ => learn_hyp (Hall j pc Hj)
  | Hall : forall j tmp, threads ?c !! j = Some (PcReadC tmp) -> _,
    Hj : threads ?c !! ?j = Some (PcReadC ?tmp) |- _ => learn_hyp (Hall j tmp Hj)
  end.

Ltac outside :=
  apply heldTable_outside; inst; simpl in *;
  match goal with
  | |- inTableSection ?pc = false =>
      destruct (inTableSection pc); [exfalso; intuition congruence | reflexivity]
  end.

Ltac field_auto :=
  simpl in *;
  try solve [ eapply log_frame; eauto
            | eapply log_finish; eauto
            | eapply log_finish_nodup; eauto ];
  repeat match goal with
  | |- forall _, _ => intro
  | H : <[_ := _]> _ !! _ = Some _ |- _ => look H
  end;
  simplify_eq; simpl in *;
  try solve [ eauto | tauto | congruence | lia
            | simplify_eq; apply is_Some_insert; eauto
            | outside
            | inst; simpl in *; solve [ intuition congruence | intuition lia ] ].

Ltac use_range :=
  match goal with
  | Hall : forall j pc k, threads ?c !! j = Some pc -> countOf pc = Some k -> _ <= _ <= _,
    Hj : threads ?c !! ?j = Some ?pc, Hk : countOf ?pc = Some ?k |- _ =>
      pose proof (Hall j pc k Hj Hk); lia
  end.

Ltac use_wrote :=
  match goal with
  | Hall : forall i, threads ?c !! i = Some PcWroteC -> _,
    Hi : threads ?c !! ?i = Some PcWroteC,
    Hj : threads ?c !! ?j = Some ?pc, Hk : countOf ?pc = Some ?k |- _ =>
      pose proof (Hall i Hi j pc k Hj Hk); lia
  end.

Ltac prep Hi :=
  match goal with
  | |- Inv _ _ _ _ (setThread ?i ?pc' _ _) =>
      pose proof (countIf_insert incremented _ i _ pc' Hi);
      pose proof (countIf_insert isFinished _ i _ pc' Hi)
  end.

Ltac diag n := idtac "CASE" n; match goal with |- ?G => idtac G end.

Lemma Inv_step (c c' : Conc) (i : nat) :
  Inv name rate envs table0 c ->
  Z.of_nat (length (threads c)) < uint64_mod ->
  stepThread name rate envs i c = Some c' ->
  Inv name rate envs table0 c'.
Proof.
  intros HI Hlen Hstep. unfold stepThread in Hstep.
  destruct (threads c !! i) as [pc|] eqn:Hi; [|discriminate].
  pose proof (lookup_lt_Some _ _ _ Hi) as Hlt.
  pose proof (inv_counters_holder _ _ _ _ _ HI i pc Hi) as Hch.
  pose proof (inv_table_holder _ _ _ _ _ HI i pc Hi) as Hth.
  pose proof (inv_table_held _ _ _ _ _ HI i pc Hi) as Hheld.
  destruct HI as
    [Hcount Hcholder Hcvalid Hread Hrange Hwrote Hdistinct Htholder Htvalid Htfree Htheld Hlog Hloglen Hnodup].
  destruct pc; simpl in *.
  - destruct (shCountersMu (shared c)) eqn:Hmu; [discriminate|].
    injection Hstep as <-. prep Hi. constructor; field_auto.
  - injection Hstep as <-. prep Hi. constructor; field_auto.
  - injection Hstep as <-. prep Hi.
    pose proof (countIf_le_length incremented (<[i := PcWroteC]> (threads c)))
      as Hle.
    rewrite length_insert in Hle.
    assert (Hnew : counterOf (<[name := uint64_add tmp 1]>
                                (shCounters (shared c))) name =
                   counterOf (shCounters (shared c)) name + 1).
    { rewrite counterOf_insert, (Hread i tmp Hi).
      unfold uint64_add, to_uint64. apply Z.mod_small. simpl in *. lia. }
    constructor; simpl; try rewrite Hnew; field_auto; use_range.
  - injection Hstep as <-. prep Hi.
    pose proof (countIf_pos incremented _ _ _ Hi eq_refl) as Hpos.
    constructor; field_auto; use_wrote.
  - injection Hstep as <-. prep Hi. constructor; field_auto.
  - injection Hstep as <-. prep Hi. constructor; field_auto.
  - destruct (shMu (shared c)) eqn:Hmu; [discriminate|].
    injection Hstep as <-. prep Hi. constructor; field_auto.
  - destruct (shTable (shared c) !! name) eqn:Hname;
    injection Hstep as <-; prep Hi; (constructor; field_auto).
    exists f. rewrite <- Hheld. split; [exact Hname|]. split; [lia|].
    symmetry; apply insert_id; exact Hname.
  - destruct (k <? fieldWrites (shouldProfileAt count rate))%nat eqn:Hk;
    injection Hstep as <-; prep Hi; (constructor; field_auto).
    + destruct Hheld as (m0 & Hm0 & Hle & Htab). exists m0.
      split; [exact Hm0|]. apply Nat.ltb_lt in Hk. split; [lia|].
      rewrite Htab, alter_insert_eq. reflexivity.
    + destruct Hheld as (m0 & Hm0 & Hle & Htab).
      apply Nat.ltb_ge in Hk.
      assert (k = fieldWrites (shouldProfileAt count rate)) as -> by lia.
      rewrite replay_snoc. unfold applyUpdate. rewrite Hm0, <- writeFields_all.
      exact Htab.
    + rewrite length_app. simpl. lia.
  - injection Hstep as <-. prep Hi. constructor; field_auto.
    + destruct Hheld as [Hnone Htab].
      rewrite replay_snoc. unfold applyUpdate. rewrite Hnone. exact Htab.
    + rewrite length_app. simpl. lia.
  - discriminate.
Qed.
End Preservation.

Section Outcome.
Context `{RT : Runtime}.
Variables (name : string) (rate : Z) (envs : nat -> Env).
Variable table0 : gmap string FunctionMetrics.

Lemma allFinished_spec (c : Conc) :
  allFinished c = true <->
  forall i pc, threads c !! i = Some pc -> isFinished pc = true.
Proof.
  unfold allFinished. rewrite forallb_forall. split.
  - intros H i pc Hi. apply H. apply list_elem_of_In.
    eapply list_elem_of_lookup_2; eauto.
  - intros H pc Hin. apply list_elem_of_In, list_elem_of_lookup_1 in Hin as [i Hi].
    eauto.
Qed.

Lemma unfinished_thread (c : Conc) :
  allFinished c = false ->
  exists i pc, threads c !! i = Some pc /\ isFinished pc = false.
Proof.
  unfold allFinished. generalize (threads c) as l.
  induction l as [|a l IH]; simpl; [discriminate|].
  destruct (isFinished a) eqn:Ha; simpl.
  - intros H. destruct (IH H) as (i & pc & Hi & Hpc). exists (S i), pc. auto.
  - intros _. exists 0%nat, a. auto.
Qed.

Lemma Inv_init (n : nat) : Inv name rate envs table0 (concInit n table0).
Proof.
  assert (Hall : forall i pc, replicate n PcStart !! i = Some pc -> pc = PcStart).
  { intros i pc H. apply lookup_replicate in H. tauto. }
  constructor; simpl.
  - rewrite countIf_none; [reflexivity|].
    intros i pc H. rewrite (Hall i pc H). reflexivity.
  - intros i pc H. rewrite (Hall i pc H). simpl. split; discriminate.
  - discriminate.
  - intros i tmp H. apply Hall in H. discriminate.
  - intros i pc k H. rewrite (Hall i pc H). discriminate.
  - intros i H. apply Hall in H. discriminate.
  - intros i j pci pcj k H _. rewrite (Hall i pci H). discriminate.
  - intros i pc H. rewrite (Hall i pc H). simpl. split; discriminate.
  - discriminate.
  - reflexivity.
  - intros i pc H. rewrite (Hall i pc H). exact I.
  - intros i k. split; intros H.
    + apply elem_of_nil in H. contradiction.
    + apply Hall in H. discriminate.
  - rewrite countIf_none; [reflexivity|].
    intros i pc H. rewrite (Hall i pc H). reflexivity.
  - apply NoDup_nil_2.
Qed.

Lemma stepThread_length (i : nat) (c c' : Conc) :
  stepThread name rate envs i c = Some c' ->
  length (threads c') = length (threads c).
Proof.
  unfold stepThread. intros H.
  repeat case_match; simplify_eq; simpl; apply length_insert.
Qed.

Lemma Inv_run (schedule : list nat) (c : Conc) :
  Inv name rate envs table0 c ->
  Z.of_nat (length (threads c)) < uint64_mod ->
  Inv name rate envs table0 (runSchedule name rate envs schedule c) /\
  length (threads (runSchedule name rate envs schedule c)) = length (threads c).
Proof.
  revert c. induction schedule as [|i rest IH]; intros c HI Hlen; simpl.
  - auto.
  - destruct (stepThread name rate envs i c) as [c'|] eqn:Hstep; simpl.
    + pose proof (stepThread_length _ _ _ Hstep) as Hl.
      destruct (IH c') as [HI' Hl'].
      * eapply Inv_step; eauto.
      * rewrite Hl. exact Hlen.
      * split; [exact HI' | congruence].
    + apply IH; assumption.
Qed.

Lemma NoDup_fmap_snd_log (log : list (nat * Z)) :
  (forall i j k, (i, k) ∈ log -> (j, k) ∈ log -> i = j) ->
  NoDup log -> NoDup (log.*2).
Proof.
  intros Hinj. induction 1 as [|[i k] l Hnotin Hnd IH]; simpl.
  - apply NoDup_nil_2.
  - apply NoDup_cons. split.
    + intros Hin. apply list_elem_of_fmap in Hin as ([j k'] & Hk & Hin).
      simpl in Hk. subst k'.
      assert (i = j) as ->.
      { apply (Hinj i j k); [apply list_elem_of_here | apply list_elem_of_further, Hin]. }
      contradiction.
    + apply IH. intros i' j' k' H1 H2.
      apply (Hinj i' j' k'); apply list_elem_of_further; assumption.
Qed.

Lemma Inv_finished (c : Conc) :
  Inv name rate envs table0 c ->
  allFinished c = true ->
  counterOf (shCounters (shared c)) name = Z.of_nat (length (threads c))
  /\ (shLog (shared c)).*1 ≡ₚ seq 0 (length (threads c))
  /\ (shLog (shared c)).*2 ≡ₚ seqZ 1 (Z.of_nat (length (threads c)))
  /\ shCountersMu (shared c) = None
  /\ shMu (shared c) = None
  /\ shTable (shared c) = replay name rate envs table0 (shLog (shared c)).
Proof.
  intros HI Hfin. rewrite allFinished_spec in Hfin. destruct HI as
    [Hcount Hcholder Hcvalid Hread Hrange Hwrote Hdistinct Htholder Htvalid Htfree Htheld Hlog Hloglen Hnodup].
  assert (Hfinal : counterOf (shCounters (shared c)) name =
                   Z.of_nat (length (threads c))).
  { rewrite Hcount, countIf_all; [reflexivity|].
    intros i pc Hi. specialize (Hfin i pc Hi). destruct pc; try discriminate.
    reflexivity. }
  assert (Hlen : length (shLog (shared c)) = length (threads c)).
  { rewrite Hloglen. apply countIf_all. exact Hfin. }
  assert (Hmu : shMu (shared c) = None).
  { destruct (shMu (shared c)) as [h|] eqn:Hh; [|reflexivity].
    destruct (Htvalid h eq_refl) as [pc Hpc].
    pose proof (proj2 (Htholder h pc Hpc) eq_refl) as Hin.
    specialize (Hfin h pc Hpc). destruct pc; discriminate. }
  split; [exact Hfinal|]. split; [|split; [|split; [|split; [exact Hmu | auto]]]].
  - apply submseteq_length_Permutation.
    + apply NoDup_submseteq.
      * apply NoDup_fmap_fst; [|exact Hnodup].
        intros i k1 k2 H1 H2. apply Hlog in H1, H2. congruence.
      * intros i Hin. apply list_elem_of_fmap in Hin as ([j k] & -> & Hin).
        simpl. apply Hlog in Hin. apply lookup_lt_Some in Hin.
        apply elem_of_seq. lia.
    + rewrite length_seq, length_fmap. lia.
  - apply submseteq_length_Permutation.
    + apply NoDup_submseteq.
      * apply NoDup_fmap_snd_log; [|exact Hnodup].
        intros i j k H1 H2. apply Hlog in H1, H2.
        exact (Hdistinct i j _ _ k H1 H2 eq_refl eq_refl).
      * intros k Hin. apply list_elem_of_fmap in Hin as ([j k'] & -> & Hin).
        simpl. apply Hlog in Hin.
        pose proof (Hrange j _ k' Hin eq_refl) as Hr.
        apply elem_of_seqZ. lia.
    + rewrite length_seqZ, length_fmap. lia.
  - destruct (shCountersMu (shared c)) as [h|] eqn:Hh; [|reflexivity].
    destruct (Hcvalid h eq_refl) as [pc Hpc].
    pose proof (proj2 (Hcholder h pc Hpc) eq_refl) as Hin.
    specialize (Hfin h pc Hpc). destruct pc; discriminate.
Qed.

End Outcome.

Section Progress.
Context `{RT : Runtime}.
Variables (name : string) (rate : Z) (envs : nat -> Env).
Variable table0 : gmap string FunctionMetrics.

Lemma remaining_insert (l : list PC) (i : nat) (x y : PC) :
  l !! i = Some x ->
  (remaining (<[i := y]> l) + stepsLeft x = remaining l + stepsLeft y)%nat.
Proof.
  revert i; induction l as [|a l IH]; intros [|i] H; simpl in *;
    try discriminate.
  - injection H as ->. lia.
  - specialize (IH i H). lia.
Qed.

Lemma fieldWrites_le (sp : bool) : (fieldWrites sp <= 6)%nat.
Proof. destruct sp; simpl; lia. Qed.

Lemma stepThread_remaining (i : nat) (c c' : Conc) :
  stepThread name rate envs i c = Some c' ->
  (remaining (threads c') < remaining (threads c))%nat.
Proof.
  unfold stepThread. intros H.
  destruct (threads c !! i) as [pc|] eqn:Hi; [|discriminate].
  destruct pc; repeat case_match; simplify_eq; simpl;
    match goal with
    | |- (remaining (<[i := ?pc']> _) < _)%nat =>
        pose proof (remaining_insert _ i _ pc' Hi) as Hr; simpl in Hr; try lia
    end.
  match goal with
  | Hk : (_ <? fieldWrites ?sp)%nat = true |- _ =>
      apply Nat.ltb_lt in Hk; pose proof (fieldWrites_le sp); lia
  end.
Qed.

Lemma Inv_progress (c : Conc) :
  Inv name rate envs table0 c ->
  allFinished c = false ->
  exists i c', stepThread name rate envs i c = Some c'.
Proof.
  intros HI Hfin. destruct HI as
    [Hcount Hcholder Hcvalid Hread Hrange Hwrote Hdistinct Htholder Htvalid Htfree Htheld Hlog Hloglen Hnodup].
  destruct (shCountersMu (shared c)) as [h|] eqn:Hcmu.
  - destruct (Hcvalid h eq_refl) as [pc Hpc].
    pose proof (proj2 (Hcholder h pc Hpc) eq_refl) as Hin.
    exists h. unfold stepThread. rewrite Hpc.
    destruct pc; try discriminate; eauto.
  - destruct (shMu (shared c)) as [h|] eqn:Hmu.
    + destruct (Htvalid h eq_refl) as [pc Hpc].
      pose proof (proj2 (Htholder h pc Hpc) eq_refl) as Hin.
      exists h. unfold stepThread. rewrite Hpc.
      destruct pc; try discriminate; repeat case_match; eauto.
    + destruct (unfinished_thread c Hfin) as (i & pc & Hi & Hpc).
      exists i. unfold stepThread. rewrite Hi, ?Hcmu, ?Hmu.
      destruct pc; try discriminate; rewrite ?Hcmu, ?Hmu;
        repeat case_match; eauto.
Qed.

Lemma Inv_can_finish (m : nat) (c : Conc) :
  Inv name rate envs table0 c ->
  Z.of_nat (length (threads c)) < uint64_mod ->
  (remaining (threads c) <= m)%nat ->
  exists schedule, allFinished (runSchedule name rate envs schedule c) = true.
Proof.
  revert c. induction m as [|m IH]; intros c HI Hlen Hm;
    destruct (allFinished c) eqn:Hfin;
    try (exists []; exact Hfin);
    destruct (Inv_progress c HI Hfin) as (i & c' & Hstep);
    pose proof (stepThread_remaining _ _ _ Hstep) as Hlt; [lia|].
  destruct (IH c') as [schedule Hs].
  - eapply Inv_step; eauto.
  - rewrite (stepThread_length name rate envs i c c' Hstep). exact Hlen.
  - lia.
  - exists (i :: schedule). simpl. rewrite Hstep. exact Hs.
Qed.

End Progress.

(** The sequential embedding performs, on the view, the update the
    concurrent callers perform under [mu]. *)
Lemma execute_tableView `{RT : Runtime} (name : string) (fn : Thunk)
    (env : Env) (st : State) :
  wf st ->
  tableView (executeFunctionWithProfiling name fn env st) =
  applyUpdate name (shouldProfileAt (nextCount name st) (samplingRate st))
    env (tableView st).
Proof.
  intros Hwf. destruct (execute_lookup name fn env st Hwf) as [Hname Hother].
  assert (Hview : forall s n, tableView s !! n = lookupMetrics s n).
  { intros s n. unfold tableView, lookupMetrics. rewrite lookup_omap.
    destruct (functionMetrics s !! n); reflexivity. }
  apply map_eq. intros n. unfold applyUpdate. rewrite Hview.
  destruct (decide (n = name)) as [-> | Hne].
  - rewrite lookup_insert_eq, Hview. exact Hname.
  - rewrite lookup_insert_ne by congruence. rewrite Hview. apply Hother, Hne.
Qed.

Lemma replay_other `{RT : Runtime} (name : string) (rate : Z)
    (envs : nat -> Env) (log : list (nat * Z))
    (table0 : gmap string FunctionMetrics) (other : string) :
  other <> name ->
  replay name rate envs table0 log !! other = table0 !! other.
Proof.
  intros Hne. revert table0. unfold replay.
  induction log as [|ic log IH]; intros table0; simpl; [reflexivity|].
  rewrite IH. unfold applyUpdate. apply lookup_insert_ne. congruence.
Qed.

Lemma remaining_replicate (n : nat) :
  remaining (replicate n PcStart) = (15 * n)%nat.
Proof. induction n as [|n IH]; simpl; [reflexivity | rewrite IH; lia]. Qed.

Lemma Inv_can_finish_bounded `{RT : Runtime} (name : string) (rate : Z)
    (envs : nat -> Env) (table0 : gmap string FunctionMetrics)
    (m : nat) (c : Conc) :
  Inv name rate envs table0 c ->
  Z.of_nat (length (threads c)) < uint64_mod ->
  (remaining (threads c) <= m)%nat ->
  exists schedule,
    (length schedule <= m)%nat /\
    allFinished (runSchedule name rate envs schedule c) = true.
Proof.
  revert c. induction m as [|m IH]; intros c HI Hlen Hm;
    destruct (allFinished c) eqn:Hfin;
    try (exists []; split; [simpl; lia | exact Hfin]);
    destruct (Inv_progress name rate envs table0 c HI Hfin) as (i & c' & Hstep);
    pose proof (stepThread_remaining name rate envs i c c' Hstep) as Hlt; [lia|].
  destruct (IH c') as (schedule & Hl & Hs).
  - eapply Inv_step; eauto.
  - rewrite (stepThread_length name rate envs i c c' Hstep). exact Hlen.
  - lia.
  - exists (i :: schedule). simpl. rewrite Hstep. split; [lia | exact Hs].
Qed.

(** When [n] callers of one identity have all returned, whatever the
    interleaving of their steps: the identity's counter is [n], the counts
    the callers took are 1, ..., [n], each once, every caller's update is in
    the table exactly once, and the table is what these updates give when
    applied one after the other in the order the callers took [mu]. *)
Theorem concurrent_calls_all_counted `{RT : Runtime} (name : string)
    (rate : Z) (envs : nat -> Env) (table0 : gmap string FunctionMetrics)
    (n : nat) (schedule : list nat) :
  Z.of_nat n < uint64_mod ->
  allFinished (runSchedule name rate envs schedule (concInit n table0)) = true ->
  let c := runSchedule name rate envs schedule (concInit n table0) in
  counterOf (shCounters (shared c)) name = Z.of_nat n
  /\ (shLog (shared c)).*2 ≡ₚ seqZ 1 (Z.of_nat n)
  /\ (shLog (shared c)).*1 ≡ₚ seq 0 n
  /\ shCountersMu (shared c) = None
  /\ readTable c = Some (replay name rate envs table0 (shLog (shared c))).
Proof.
  intros Hn Hfin c.
  assert (Hlen0 : length (threads (concInit n table0)) = n)
    by (simpl; apply length_replicate).
  destruct (Inv_run name rate envs table0 schedule (concInit n table0))
    as [HI Hlen].
  - apply Inv_init.
  - rewrite Hlen0. exact Hn.
  - fold c in HI, Hlen, Hfin. rewrite Hlen0 in Hlen.
    destruct (Inv_finished name rate envs table0 c HI Hfin)
      as (Hc & H1 & H2 & Hcmu & Hmu & Htab).
    rewrite Hlen in Hc, H1, H2.
    split; [exact Hc|]. split; [exact H2|]. split; [exact H1|].
    split; [exact Hcmu|]. unfold readTable. rewrite Hmu, Htab. reflexivity.
Qed.

Lemma concurrent_calls_all_counted_witness :
  counterOf
    (shCounters
       (shared
          (runSchedule (RT := sampleRuntime) "main.work" 100
             (fun _ => sampleEnv) (roundRobin 520 100) (concInit 100 ∅))))
    "main.work" = Z.of_nat 100.
Proof.
  assert (Hn : Z.of_nat 100 < uint64_mod) by (vm_compute; reflexivity).
  assert (Hfin : allFinished
                   (runSchedule (RT := sampleRuntime) "main.work" 100
                      (fun _ => sampleEnv) (roundRobin 520 100)
                      (concInit 100 ∅)) = true)
    by (vm_compute; reflexivity).
  exact (proj1 (concurrent_calls_all_counted (RT := sampleRuntime) "main.work"
                  100 (fun _ => sampleEnv) ∅ 100 (roundRobin 520 100) Hn Hfin)).
Defined.

Lemma runSchedule_remaining `{RT : Runtime} (name : string) (rate : Z)
    (envs : nat -> Env) (schedule : list nat) (c : Conc) :
  (remaining (threads (runSchedule name rate envs schedule c)) <=
   remaining (threads c))%nat.
Proof.
  revert c. induction schedule as [|i rest IH]; intros c; simpl; [lia|].
  destruct (stepThread name rate envs i c) as [c'|] eqn:Hstep; simpl.
  - pose proof (stepThread_remaining name rate envs i c c' Hstep).
    specialize (IH c'). lia.
  - apply IH.
Qed.

(** A reader that gets [mu] while [n] callers of one identity are under way,
    at any point of any interleaving, finds the table that the updates
    completed so far give when applied one after the other: the record of
    the identity is the whole record left by the last caller that released
    [mu] (that caller has returned), and no other identity's record has
    changed. *)
Theorem concurrent_read_sees_whole_updates `{RT : Runtime} (name : string)
    (rate : Z) (envs : nat -> Env) (table0 : gmap string FunctionMetrics)
    (n : nat) (schedule : list nat) (t : gmap string FunctionMetrics) :
  Z.of_nat n < uint64_mod ->
  readTable (runSchedule name rate envs schedule (concInit n table0)) = Some t ->
  let c := runSchedule name rate envs schedule (concInit n table0) in
  t = replay name rate envs table0 (shLog (shared c))
  /\ (forall other, other <> name -> t !! other = table0 !! other)
  /\ (shLog (shared c) = [] -> t !! name = table0 !! name)
  /\ (forall log i k, shLog (shared c) = log ++ [(i, k)] ->
        threads c !! i = Some (PcFinished k) /\
        t !! name =
          Some (recordAfter name (shouldProfileAt k rate) (envs i)
                  (replay name rate envs table0 log !! name))).
Proof.
  intros Hn Hread c.
  destruct (Inv_run name rate envs table0 schedule (concInit n table0))
    as [HI _].
  - apply Inv_init.
  - simpl. rewrite length_replicate. exact Hn.
  - fold c in HI, Hread. unfold readTable in Hread.
    destruct (shMu (shared c)) eqn:Hmu; [discriminate|].
    injection Hread as <-.
    pose proof (inv_table_free _ _ _ _ _ HI Hmu) as Htab.
    split; [exact Htab|]. rewrite Htab. split; [|split].
    + intros other Hne. apply replay_other, Hne.
    + intros ->. reflexivity.
    + intros log i k Hlog. split.
      * apply (inv_log _ _ _ _ _ HI). rewrite Hlog.
        apply elem_of_app. right. apply list_elem_of_here.
      * rewrite Hlog, replay_snoc. unfold applyUpdate.
        apply lookup_insert_eq.
Qed.

Lemma concurrent_read_sees_whole_updates_witness :
  shTable
    (shared
       (runSchedule (RT := sampleRuntime) "main.work" 2 (fun _ => sampleEnv)
          (roundRobin 10 3) (concInit 3 ∅))) =
  replay (RT := sampleRuntime) "main.work" 2 (fun _ => sampleEnv) ∅
    (shLog
       (shared
          (runSchedule (RT := sampleRuntime) "main.work" 2
             (fun _ => sampleEnv) (roundRobin 10 3) (concInit 3 ∅)))).
Proof.
  assert (Hn : Z.of_nat 3 < uint64_mod) by (vm_compute; reflexivity).
  assert (Hread : readTable
                    (runSchedule (RT := sampleRuntime) "main.work" 2
                       (fun _ => sampleEnv) (roundRobin 10 3) (concInit 3 ∅)) =
                  Some (shTable
                          (shared
                             (runSchedule (RT := sampleRuntime) "main.work" 2
                                (fun _ => sampleEnv) (roundRobin 10 3)
                                (concInit 3 ∅)))))
    by (vm_compute; reflexivity).
  exact (proj1 (concurrent_read_sees_whole_updates (RT := sampleRuntime)
                  "main.work" 2 (fun _ => sampleEnv) ∅ 3 (roundRobin 10 3)
                  _ Hn Hread)).
Defined.

(** However far [n] callers of one identity have got, the run is not stuck:
    while a caller has not returned some caller can take a step, and at most
    [15 * n] further steps bring every caller to its return. *)
Theorem concurrent_calls_can_finish `{RT : Runtime} (name : string)
    (rate : Z) (envs : nat -> Env) (table0 : gmap string FunctionMetrics)
    (n : nat) (schedule : list nat) :
  Z.of_nat n < uint64_mod ->
  let c := runSchedule name rate envs schedule (concInit n table0) in
  (allFinished c = false -> exists i c', stepThread name rate envs i c = Some c')
  /\ exists more,
       (length more <= 15 * n)%nat /\
       allFinished (runSchedule name rate envs more c) = true.
Proof.
  intros Hn c.
  destruct (Inv_run name rate envs table0 schedule (concInit n table0))
    as [HI Hlen].
  - apply Inv_init.
  - simpl. rewrite length_replicate. exact Hn.
  - fold c in HI, Hlen. simpl in Hlen. rewrite length_replicate in Hlen.
    split.
    + apply (Inv_progress name rate envs table0 c HI).
    + apply (Inv_can_finish_bounded name rate envs table0); [exact HI | lia |].
      unfold c. etransitivity; [apply runSchedule_remaining|].
      simpl. rewrite remaining_replicate. lia.
Qed.

Lemma concurrent_calls_can_finish_witness :
  exists more,
    (length more <= 15 * 100)%nat /\
    allFinished
      (runSchedule (RT := sampleRuntime) "main.work" 100 (fun _ => sampleEnv)
         more
         (runSchedule (RT := sampleRuntime) "main.work" 100
            (fun _ => sampleEnv) (roundRobin 7 100) (concInit 100 ∅))) = true.
Proof.
  assert (Hn : Z.of_nat 100 < uint64_mod) by (vm_compute; reflexivity).
  exact (proj2 (concurrent_calls_can_finish (RT := sampleRuntime) "main.work"
                  100 (fun _ => sampleEnv) ∅ 100 (roundRobin 7 100) Hn)).
Defined.

(** ** What the entry points do to the target *)

Section EntryFacts.
Context `{RT : Runtime}.




End EntryFacts.


(** A profile that cannot be started does not stop the call.  When a call is
    due for profiling and [StartCPUProfile] fails, the failure is logged, the
    target is still invoked once, the CPU profile is still stopped and the
    heap profile still written, and the identity's record still names both
    profile files. *)
Theorem profile_start_failure_is_not_fatal `{RT : Runtime} (name : string)
    (fn : Thunk) (env : Env) (st : State) :
  wf st ->
  shouldProfileAt (nextCount name st) (samplingRate st) = true ->
  cpuProfileFails env = true ->
  let st' := executeFunctionWithProfiling name fn env st in
  events st'
  = events st
    ++ [ EvMkdirAll folderPath; EvStartCPUProfile (cpuProfPath name);
         EvLog LogCPUProfileFailed; EvInvoke (target fn) (targetArgs fn);
         EvStopCPUProfile; EvWriteHeapProfile (memProfPath name) ]
  /\ exists m,
       lookupMetrics st' name = Some m
       /\ CPUProfileFilePath m = cpuProfPath name
       /\ MemProfileFilePath m = memProfPath name
       /\ MemoryUsage m = memoryUsageOf true env
       /\ FunctionLastRanAt m = startTime env.
Proof.
  intros Hwf Hsp Hfail st'. split.
  - unfold st'. rewrite execute_events. cbv zeta. rewrite Hsp, Hfail.
    reflexivity.
  - destruct (execute_lookup name fn env st Hwf) as [Hrec _].
    cbv zeta in Hrec. rewrite Hsp in Hrec. fold st' in Hrec.
    eexists. split; [exact Hrec|].
    unfold recordAfter. destruct (lookupMetrics st name); simpl; auto.
Qed.

Lemma profile_start_failure_is_not_fatal_witness :
  exists m,
    lookupMetrics
      (executeFunctionWithProfiling (RT := sampleRuntime) "main.work"
         (mkThunk sampleWork []) (mkEnv 4 4 1000 3000 50 7 true)
         (SetSamplingRate 1 initState)) "main.work" = Some m
    /\ CPUProfileFilePath m = cpuProfPath (RT := sampleRuntime) "main.work".
Proof.
  assert (Hwf : wf (SetSamplingRate 1 initState)).
  { split; simpl; intros *; rewrite lookup_empty; discriminate. }
  assert (Hsp : shouldProfileAt
                  (nextCount "main.work" (SetSamplingRate 1 initState))
                  (samplingRate (SetSamplingRate 1 initState)) = true)
    by reflexivity.
  assert (Hfail : cpuProfileFails (mkEnv 4 4 1000 3000 50 7 true) = true)
    by reflexivity.
  destruct (proj2 (profile_start_failure_is_not_fatal (RT := sampleRuntime)
                     "main.work" (mkThunk sampleWork [])
                     (mkEnv 4 4 1000 3000 50 7 true)
                     (SetSamplingRate 1 initState) Hwf Hsp Hfail))
    as (m & Hm & Hcpu & _).
  exists m. split; [exact Hm | exact Hcpu].
Defined.



Lemma generateFunctionName_length (fn : GoFunc) :
  (String.length (replaceSlashes (funcName fn))
   <= String.length (generateFunctionName fn))%nat
  /\ (paramTypes fn <> [] \/ returnTypes fn <> [] ->
      (String.length (replaceSlashes (funcName fn))
       < String.length (generateFunctionName fn))%nat).
Proof.
  unfold generateFunctionName.
  destruct (paramTypes fn) as [|p ps]; destruct (returnTypes fn) as [|r rs];
    simpl length; cbv iota beta;
    change (0 <? 0)%nat with false; cbv iota;
    repeat match goal with
           | |- context [(0 <? S ?n)%nat] => change (0 <? S n)%nat with true
           end; cbv iota; rewrite ?string_length_app; simpl String.length;
    split; try lia; intros [H | H]; try congruence; lia.
Qed.

(** The plain entry point and the reflective ones meet exactly on functions
    without parameters and results.  For such a function, called without
    arguments, all four entry points do the same to the package state: one
    counter, one record.  For any other function the identity a reflective
    entry point counts a call under is not the function's plain name. *)
Theorem entry_points_meet_on_niladic_functions `{RT : Runtime} (fn : GoFunc)
    (ty : GoType) (env : Env) (st : State) :
  (paramTypes fn = [] /\ returnTypes fn = [] ->
   runCall (CallTraceFunctionWithArgs (VFunc fn ty) []) env st
   = runCall (CallTraceFunction fn) env st
   /\ runCall (CallTraceFunctionWithReturns (VFunc fn ty) []) env st
      = runCall (CallTraceFunction fn) env st
   /\ runCall (CallTraceFunctionWithReturn (VFunc fn ty) []) env st
      = runCall (CallTraceFunction fn) env st)
  /\ (forall args name,
        reflectiveIdentity (VFunc fn ty) args = Some name ->
        (name = replaceSlashes (funcName fn)
         <-> paramTypes fn = [] /\ returnTypes fn = [])).
Proof.
  split.
  - intros [Hp Hr]. simpl.
    unfold TraceFunctionWithReturn, TraceFunctionWithReturns,
      TraceFunctionWithArgs, TraceFunction, generateFunctionName.
    rewrite Hp, Hr. simpl.
    destruct (callTarget fn []); auto.
  - intros args name Hid. unfold reflectiveIdentity in Hid.
    destruct (negb _); [discriminate|].
    destruct (checkArgs 0 args (paramTypes fn)); try discriminate.
    injection Hid as <-.
    destruct (generateFunctionName_length fn) as [_ Hlt]. split.
    + intros Heq.
      destruct (paramTypes fn) as [|p ps] eqn:Hp;
        destruct (returnTypes fn) as [|r rs] eqn:Hr; auto;
        exfalso; rewrite Heq in Hlt;
        (assert (Hgt : (String.length (replaceSlashes (funcName fn))
                        < String.length (replaceSlashes (funcName fn)))%nat)
           by (apply Hlt; (left; congruence) || (right; congruence))); lia.
    + intros [Hp Hr]. unfold generateFunctionName. rewrite Hp, Hr. reflexivity.
Qed.

(** ** Profile files and the report of an identity *)

Section ProfilePaths.
Context `{RT : Runtime}.

Lemma pathsOwned_events st st' name m more :
  events st' = events st ++ more ->
  pathsOwned st name m -> pathsOwned st' name m.
Proof.
  intros Hev [H | (H1 & H2 & H3)]; [left; exact H | right].
  split; [exact H1|]. split; [exact H2|]. rewrite Hev.
  apply elem_of_app. left. exact H3.
Qed.

Lemma runCall_events c env st :
  exists more, events (runCall c env st) = events st ++ more.
Proof.
  destruct (identityOf c) as [name|] eqn:Hid.
  - destruct (runCall_valid c name env st Hid) as [fn ->].
    rewrite execute_events. eauto.
  - destruct c as [f | f args | f args | f args]; simpl in *;
      try discriminate;
      unfold reflectiveIdentity in Hid;
      unfold TraceFunctionWithReturn, TraceFunctionWithReturns,
        TraceFunctionWithArgs;
      (destruct f as [| fn ty | ty p]; simpl; [eauto | | eauto]);
      (destruct (negb _); simpl; [eauto |]);
      (destruct (checkArgs 0 args (paramTypes fn)); simpl;
         [discriminate | eauto | exists []; symmetry; apply app_nil_r]).
Qed.

Lemma reachable_pathsOwned st :
  reachable st ->
  forall name m, lookupMetrics st name = Some m -> pathsOwned st name m.
Proof.
  induction 1 as [| c env st Hst IH | rate st Hst IH | st Hst IH
                  | l m0 st Hst IH Hl]; intros name m Hm.
  - discriminate.
  - pose proof (reachable_wf st Hst) as Hwf.
    destruct (runCall_events c env st) as [more Hev].
    destruct (runCall_cases c env st)
      as [(_ & Ht & Hh & _) | (n & fn & _ & Hrun)].
    + apply (pathsOwned_events st _ _ _ more Hev). apply (IH name).
      unfold lookupMetrics in *. by rewrite <- Ht, <- Hh.
    + rewrite Hrun in Hm.
      destruct (execute_lookup n fn env st Hwf) as [Hsame Hother].
      destruct (decide (name = n)) as [-> | Hne].
      * rewrite Hsame in Hm. injection Hm as <-.
        destruct (shouldProfileAt (nextCount n st) (samplingRate st)) eqn:Hsp.
        -- right. unfold recordAfter.
           split; [destruct (lookupMetrics st n); reflexivity|].
           split; [destruct (lookupMetrics st n); reflexivity|].
           rewrite Hrun, execute_events. cbv zeta. rewrite Hsp.
           apply elem_of_app. right. apply elem_of_app. left.
           apply list_elem_of_further, list_elem_of_here.
        -- unfold recordAfter.
           destruct (lookupMetrics st n) as [old|] eqn:Hold.
           ++ apply (pathsOwned_events st _ _ _ more Hev).
              destruct (IH n old Hold) as [H | H]; [left | right]; exact H.
           ++ left. split; reflexivity.
      * rewrite Hother in Hm by exact Hne.
        apply (pathsOwned_events st _ _ _ more Hev). by apply (IH name).
  - by apply (IH name).
  - pose proof (reachable_wf st Hst) as Hwf.
    destruct (FunctionTraceDetails_spec st Hwf) as (Ht & _ & _ & He & Hsub & _).
    change (heap st ⊆ heap (snd (FunctionTraceDetails st))) in Hsub.
    apply (pathsOwned_events st _ _ _ []); [rewrite app_nil_r; exact He|].
    apply (IH name). unfold lookupMetrics in *.
    rewrite Ht in Hm.
    destruct (functionMetrics st !! name) as [l |] eqn:Hl; [| discriminate].
    destruct (proj1 Hwf name l Hl) as [m1 Hm1].
    pose proof (lookup_weaken _ _ _ _ Hm1 Hsub). congruence.
  - apply (pathsOwned_events st _ _ _ []); [rewrite app_nil_r; reflexivity|].
    apply (IH name). unfold lookupMetrics in *. simpl in Hm.
    destruct (functionMetrics st !! name) as [l0 |] eqn:Hl0; [| discriminate].
    rewrite lookup_insert_ne in Hm; [exact Hm |].
    intros ->. apply Hl. by exists name.
Qed.

(** Reading through the snapshot gives the table's own records. *)
Lemma readResult_details st name :
  wf st ->
  readResult (fst (FunctionTraceDetails st)) (snd (FunctionTraceDetails st)) name
  = lookupMetrics st name.
Proof.
  intros Hwf.
  destruct (FunctionTraceDetails st) as [result st1] eqn:HF.
  destruct (FunctionTraceDetails_returns st st1 result Hwf HF)
    as (Ht & Hsub & Hcopy & Hall & _).
  simpl. unfold readResult, lookupMetrics.
  destruct (result !! name) as [l'|] eqn:Hres.
  - destruct (Hcopy name l' Hres) as (_ & l & m & Hl & Hm & Hm').
    rewrite Hl, Hm. exact Hm'.
  - destruct (functionMetrics st !! name) as [l|] eqn:Hl; [|reflexivity].
    destruct (Hall name l Hl) as [l' Hl']. congruence.
Qed.

End ProfilePaths.

(** Whatever the calls so far, a record in the table names no profile file
    or exactly the two profile files of its own identity, and it names them
    only if a CPU profile into that file was started. *)
Theorem record_names_only_its_own_profiles `{RT : Runtime} (st : State)
    (name : string) (m : FunctionMetrics) :
  reachable st ->
  lookupMetrics st name = Some m ->
  pathsOwned st name m.
Proof. intros Hst Hm. exact (reachable_pathsOwned st Hst name m Hm). Qed.

Lemma record_names_only_its_own_profiles_witness :
  exists m,
    lookupMetrics sampleState "github.com-acme-app.work" = Some m
    /\ pathsOwned (RT := sampleRuntime) sampleState
         "github.com-acme-app.work" m.
Proof.
  eexists. split; [reflexivity|].
  apply (record_names_only_its_own_profiles (RT := sampleRuntime)).
  - exact sampleState_reachable.
  - reflexivity.
Defined.

(** Asking for the report of an identity that was never profiled runs no
    command.  With [go] installed, the handler answers 404 when the identity
    was never called and otherwise the report whose CPU and memory texts say
    that the profile file path is empty, with an empty code trace; no
    [go tool pprof] is started in either case. *)
Theorem unprofiled_identity_reports_without_pprof `{RT : Runtime}
    `{TC : Toolchain} (st : State) (name reportType : string) :
  reachable st ->
  goOnPath = true ->
  name <> "" ->
  EvStartCPUProfile (cpuProfPath name) ∉ events st ->
  fst (api_ViewFunctionMetrics "GET" name reportType st)
  = (match lookupMetrics st name with
     | None => ReplyError 404 "Function not found"
     | Some _ => ReplyJSON (emptyReport name)
     end, []).
Proof.
  intros Hst Hgo Hname Hnot.
  pose proof (reachable_wf st Hst) as Hwf.
  pose proof (readResult_details st name Hwf) as Hread.
  unfold api_ViewFunctionMetrics.
  change (negb (String.eqb "GET" "GET")) with false. cbv iota.
  destruct (String.eqb_spec name "") as [-> | _]; [contradiction|].
  destruct (FunctionTraceDetails st) as [result st1].
  cbn [fst snd] in Hread. cbv zeta. rewrite Hread.
  destruct (lookupMetrics st name) as [m|] eqn:Hm; [|reflexivity].
  destruct (reachable_pathsOwned st Hst name m Hm)
    as [[Hc Hmem] | (_ & _ & Hin)]; [|contradiction].
  unfold ViewFunctionMetrics, executePprof. rewrite Hgo, Hc, Hmem.
  reflexivity.
Qed.

Lemma unprofiled_identity_reports_without_pprof_witness :
  fst (api_ViewFunctionMetrics (TC := sampleToolchain) "GET"
         "github.com-acme-app.work" "" sampleUnprofiled)
  = (ReplyJSON (emptyReport "github.com-acme-app.work"), []).
Proof.
  assert (Hst : reachable (RT := sampleRuntime) sampleUnprofiled)
    by (apply runCalls_reachable, reach_rate, reach_init).
  assert (Hgo : goOnPath (Toolchain := sampleToolchain) = true) by reflexivity.
  assert (Hname : "github.com-acme-app.work" <> "") by discriminate.
  assert (Hnot : EvStartCPUProfile
                   (cpuProfPath (RT := sampleRuntime) "github.com-acme-app.work")
                 ∉ events sampleUnprofiled).
  { vm_compute events. intros H.
    repeat (apply elem_of_cons in H as [H | H]; [discriminate H|]).
    apply elem_of_nil in H. exact H. }
  exact (unprofiled_identity_reports_without_pprof (RT := sampleRuntime)
           (TC := sampleToolchain) sampleUnprofiled
           "github.com-acme-app.work" "" Hst Hgo Hname Hnot).
Defined.

(** ** Queries, reports and their errors *)

Section ReportFacts.
Context `{HS : Host} `{EN : Engine}.





End ReportFacts.



Section QueryErrors.
Context `{HS : Host} `{EN : Engine}.




End QueryErrors.


Lemma insertRow_perm (r : ResultRow) (l : list ResultRow) :
  insertRow r l ≡ₚ r :: l.
Proof.
  induction l as [|r' l IH]; simpl; [reflexivity|].
  destruct (String.ltb (rowTime r') (rowTime r)); [|reflexivity].
  rewrite IH. apply perm_swap.
Qed.

Lemma sortRows_perm (l : list ResultRow) : sortRows l ≡ₚ l.
Proof.
  induction l as [|r l IH]; simpl; [reflexivity|].
  change (insertRow r (sortRows l) ≡ₚ r :: l).
  rewrite insertRow_perm, IH. reflexivity.
Qed.

Lemma windowStart_lower (startTime serviceStartTime : Z) :
  unixSeconds startTime <= windowStart startTime serviceStartTime
  /\ unixSeconds serviceStartTime <= windowStart startTime serviceStartTime.
Proof.
  unfold windowStart, unixSeconds.
  destruct (Z.ltb_spec startTime serviceStartTime); split;
    try reflexivity; apply Z.div_le_mono; unfold nanosPerSecond; lia.
Qed.

Lemma inWindow_bounds `{EN : Engine} (start end_ ts : Z) :
  inWindow start end_ ts = true -> start <= ts <= end_.
Proof.
  unfold inWindow. intros H. apply andb_true_iff in H as [H1 H2].
  apply Z.leb_le in H1. destruct windowIncludesEnd.
  - apply Z.leb_le in H2. lia.
  - apply Z.ltb_lt in H2. lia.
Qed.

(** No row of an answer lies outside the window, and the window never
    reaches back before the start of the process.  Every row of a metrics
    query carries the time of a stored point of a requested field under the
    host label, and that time is, in whole seconds, at or after the
    requested start, at or after the start time of the service, and not
    after the requested end; the row holds a value for that field. *)
Theorem query_rows_lie_in_the_clamped_window `{HS : Host} `{EN : Engine}
    (sto : Storage) (fieldNames : list string)
    (startTime endTime serviceStartTime : Z) (rows : list ResultRow)
    (row : ResultRow) :
  GetServiceMetricsFromStorage sto fieldNames startTime endTime
    serviceStartTime = Ok rows ->
  row ∈ rows ->
  exists r,
    r ∈ sto
    /\ Metric r ∈ fieldNames
    /\ labels_eqb (Labels r) [GetHostLabel] = true
    /\ rowTime row = formatRFC3339 (Timestamp (Point r))
    /\ is_Some (rowValue row !! reportedName (Metric r))
    /\ unixSeconds startTime <= Timestamp (Point r)
    /\ unixSeconds serviceStartTime <= Timestamp (Point r)
    /\ Timestamp (Point r) <= unixSeconds endTime.
Proof.
  intros Hquery Hrow.
  destruct (GetServiceMetricsFromStorage_rows _ _ _ _ _ _ Hquery)
    as (data & Hdata & ->).
  rewrite sortRows_perm in Hrow.
  apply list_elem_of_fmap in Hrow as ([ts values] & -> & Hin).
  apply elem_of_map_to_list in Hin.
  destruct (collectFields_rows _ _ _ _ _ _ ts Hdata ltac:(eauto))
    as [Hacc | (f & dps & dp & Hf & Hsel & Hdp & <-)].
  { rewrite lookup_empty in Hacc. by destruct Hacc. }
  pose proof (collectFields_complete _ _ _ _ _ _ _ _ _ Hdata Hf Hsel Hdp)
    as Hcell.
  unfold cellOf in Hcell. rewrite Hin in Hcell.
  unfold GetDataPoints, Select in Hsel.
  assert (Hfil : In dp (map Point
                   (List.filter (rowSelected f [GetHostLabel]
                      (windowStart startTime serviceStartTime)
                      (unixSeconds endTime)) sto))).
  { destruct (map Point (List.filter _ sto)) as [|p ps] eqn:Hmap.
    - destruct emptySelectionFails; [discriminate|].
      injection Hsel as <-. apply elem_of_nil in Hdp. contradiction.
    - injection Hsel as <-. apply list_elem_of_In. exact Hdp. }
  apply in_map_iff in Hfil as (r & <- & Hr).
  apply filter_In in Hr as [Hr Hsel'].
  unfold rowSelected in Hsel'.
  apply andb_true_iff in Hsel' as [Hsel' Hwin].
  apply andb_true_iff in Hsel' as [Hmetric Hlabels].
  apply String.eqb_eq in Hmetric.
  apply inWindow_bounds in Hwin.
  destruct (windowStart_lower startTime serviceStartTime) as [Hs Hsvc].
  exists r. rewrite Hmetric.
  split; [apply list_elem_of_In; exact Hr|].
  split; [exact Hf|]. split; [exact Hlabels|]. split; [reflexivity|].
  split; [exact Hcell|]. simpl. lia.
Qed.

Lemma query_rows_lie_in_the_clamped_window_witness :
  exists r,
    r ∈ sampleSeries
    /\ rowTime {| rowTime := "2023-11-14T22:14:20Z";
                  rowValue := {[ "goroutines" := f64_of_Z 6 ]} |}
       = formatRFC3339 (Timestamp (Point r))
    /\ unixSeconds 1699990000000000000 <= Timestamp (Point r).
Proof.
  assert (Hq : GetServiceMetricsFromStorage (HS := sampleHost)
                 (EN := sampleEngine) sampleSeries ["goroutines"; "heap_alloc"]
                 1699999000000000000 1700000900000000000 1699990000000000000
               = Ok [ {| rowTime := "2023-11-14T22:13:20Z";
                         rowValue := {[ "goroutines" := f64_of_Z 5;
                                        "HeapAlloc" := f64_of_Z 7 ]} |};
                      {| rowTime := "2023-11-14T22:14:20Z";
                         rowValue := {[ "goroutines" := f64_of_Z 6 ]} |} ])
    by (vm_compute; reflexivity).
  destruct (query_rows_lie_in_the_clamped_window (HS := sampleHost)
              (EN := sampleEngine) _ _ _ _ _ _
              {| rowTime := "2023-11-14T22:14:20Z";
                 rowValue := {[ "goroutines" := f64_of_Z 6 ]} |} Hq)
    as (r & Hr & _ & _ & Ht & _ & _ & Hsvc & _).
  - apply list_elem_of_further, list_elem_of_here.
  - exists r. split; [exact Hr|]. split; [exact Ht | exact Hsvc].
Defined.




(** ** Routing and static files *)


Lemma append_assoc (a b c : string) : (a +:+ b) +:+ c = a +:+ (b +:+ c).
Proof.
  induction a as [|x a IH]; [reflexivity|].
  change (String x ((a +:+ b) +:+ c) = String x (a +:+ (b +:+ c))).
  by rewrite IH.
Qed.





Lemma plainExtension_facts (e : string) :
  plainExtension e = true -> Ext e = "" /\ hasSeparator e = false.
Proof.
  induction e as [|c e IH]; simpl; [auto|].
  intros H. apply andb_true_iff in H as [H He].
  apply andb_true_iff in H as [Hdot Hsep].
  destruct (IH He) as [-> ->].
  apply negb_true_iff in Hdot, Hsep. rewrite Hdot, Hsep. auto.
Qed.

Lemma Ext_extension (stem e : string) :
  plainExtension e = true -> Ext (stem +:+ "." +:+ e) = "." +:+ e.
Proof.
  intros He. destruct (plainExtension_facts e He) as [Hext Hsep].
  induction stem as [|c stem IH].
  - change (Ext (String "."%char e) = String "."%char e).
    simpl. rewrite Hext, Hsep. reflexivity.
  - change (Ext (String c (stem +:+ "." +:+ e)) = "." +:+ e).
    simpl. rewrite IH. reflexivity.
Qed.

Lemma staticFilePath_extension (path stem e : string) :
  path = stem +:+ "." +:+ e -> plainExtension e = true ->
  Ext (staticFilePath path) = "." +:+ e.
Proof.
  intros Hpath He. unfold staticFilePath.
  destruct (String.eqb_spec path "/") as [Hroot | _].
  - exfalso. rewrite Hroot in Hpath.
    destruct stem as [|c [|c' stem]]; discriminate.
  - destruct (String.eqb_spec path "/favicon.ico") as [Hfav | _].
    + pose proof (Ext_extension stem e He) as Hx.
      rewrite <- Hpath, Hfav in Hx. vm_compute in Hx.
      change ("." +:+ e) with (String "."%char e). rewrite <- Hx.
      vm_compute. reflexivity.
    + rewrite Hpath, <- append_assoc. apply Ext_extension, He.
Qed.

(** The two static servers send the same files under the same content
    types, and the content type is decided by the extension alone: a path
    that ends in a dot and an extension is sent with the type listed for that
    extension, [application/octet-stream] when there is none, and the root
    path is sent as [text/html].  The servers differ on a file that cannot be
    read: status 500 naming the file from [serveHtmlSite], status 404 from
    the Fiber server. *)
Theorem static_servers_type_files_by_extension `{FS : StaticFiles}
    (path : string) :
  (ReadFile (staticFilePath path) = None ->
   serveHtmlSite path
   = FileFailed 500 ("Could not load " +:+ staticFilePath path)
   /\ serveFiberStaticFiles path = FileFailed 404 "File not found")
  /\ (forall body,
        ReadFile (staticFilePath path) = Some body ->
        exists contentType,
          serveHtmlSite path = FileSent contentType body
          /\ serveFiberStaticFiles path = FileSent contentType body
          /\ (path = "/" -> contentType = "text/html")
          /\ (forall stem e,
                path = stem +:+ "." +:+ e -> plainExtension e = true ->
                contentType
                = default "application/octet-stream"
                    (contentTypes !! ("." +:+ e)))).
Proof.
  assert (Hhttp : forall r,
            ReadFile (staticFilePath path) = r ->
            serveHtmlSite path
            = match r with
              | None => FileFailed 500 ("Could not load " +:+ staticFilePath path)
              | Some file =>
                  FileSent (default "application/octet-stream"
                              (contentTypes !! Ext (staticFilePath path))) file
              end).
  { intros r <-. unfold serveHtmlSite. cbv zeta.
    change (if String.eqb path "/" then "static" +:+ "/index.html"
            else if String.eqb path "/favicon.ico"
                 then "static" +:+ "/assets/favicon.ico"
                 else "static" +:+ path) with (staticFilePath path).
    destruct (ReadFile (staticFilePath path)); [|reflexivity].
    destruct (contentTypes !! Ext (staticFilePath path)); reflexivity. }
  assert (Hfiber : forall r,
            ReadFile (staticFilePath path) = r ->
            serveFiberStaticFiles path
            = match r with
              | None => FileFailed 404 "File not found"
              | Some file =>
                  FileSent (default "application/octet-stream"
                              (contentTypes !! Ext (staticFilePath path))) file
              end).
  { intros r <-. unfold serveFiberStaticFiles. cbv zeta.
    change (if String.eqb path "/" then "static" +:+ "/index.html"
            else if String.eqb path "/favicon.ico"
                 then "static" +:+ "/assets/favicon.ico"
                 else "static" +:+ path) with (staticFilePath path).
    destruct (ReadFile (staticFilePath path)); [|reflexivity].
    destruct (contentTypes !! Ext (staticFilePath path)); reflexivity. }
  split.
  - intros Hnone. rewrite (Hhttp _ Hnone), (Hfiber _ Hnone). auto.
  - intros body Hbody. rewrite (Hhttp _ Hbody), (Hfiber _ Hbody).
    eexists. split; [reflexivity|]. split; [reflexivity|]. split.
    + intros ->. vm_compute. reflexivity.
    + intros stem e Hpath He.
      rewrite (staticFilePath_extension path stem e Hpath He). reflexivity.
Qed.

(** ** The aggregator and what it stores *)

Lemma f64_of_Z_nonneg (z : Z) : 0 <= z -> f64_nonneg (f64_of_Z z).
Proof.
  intros Hz. unfold f64_of_Z, binary_normalize.
  destruct z as [|m|m]; [exact I | apply binary_round_nonneg | lia].
Qed.

Lemma find_app_none {A : Type} (p : A -> bool) (l k : list A) :
  List.find p l = None -> List.find p (l ++ k) = List.find p k.
Proof.
  induction l as [|a l IH]; simpl; [reflexivity|].
  destruct (p a); [discriminate | exact IH].
Qed.

Lemma find_app_some {A : Type} (p : A -> bool) (l k : list A) (a : A) :
  List.find p l = Some a -> List.find p (l ++ k) = Some a.
Proof.
  induction l as [|b l IH]; simpl; [discriminate|].
  destruct (p b); [auto | exact IH].
Qed.

Section AggregatorFacts.
Context `{CM : Common} `{PR : Probes}.

Lemma GetServiceStats_fields (m1 m2 : MemStats) :
  LoadStatisticsOf (GetServiceStats m1 m2) = GetLoadStatistics
  /\ MemoryStatisticsOf (GetServiceStats m1 m2) = GetMemoryStatistics m1
  /\ CoreStatisticsOf (GetServiceStats m1 m2) = GetCoreStatistics
  /\ BytesReceived (NetworkIOOf (GetServiceStats m1 m2)) = fst GetNetworkIO
  /\ BytesSent (NetworkIOOf (GetServiceStats m1 m2)) = snd GetNetworkIO
  /\ HeapAllocByServiceRaw (GetServiceStats m1 m2) = HeapAlloc m2.
Proof.
  unfold GetServiceStats. destruct GetNetworkIO as [recv sent].
  repeat split.
Qed.

Lemma GetLoadStatistics_overall :
  OverallLoadOfServiceRaw GetLoadStatistics
  = fst (CalculateOverallLoad (ServiceCPULoadRaw GetLoadStatistics)
           (ServiceMemLoadRaw GetLoadStatistics)).
Proof.
  unfold GetLoadStatistics.
  destruct GetCPULoad as [c1 c2], GetMemoryLoad as [m1 m2],
    GetDiskLoad as [d1 d2].
  destruct (CalculateOverallLoad c1 m1) as [o str] eqn:Ho.
  cbn [ServiceCPULoadRaw ServiceMemLoadRaw OverallLoadOfServiceRaw].
  rewrite Ho. reflexivity.
Qed.

End AggregatorFacts.

(** The load values of a snapshot, as its rows hold them. *)
Lemma snapshotRows_load (s : ServiceStats) (label : Label) (ts : Z) :
  storedValue (snapshotRows s label ts) "service_cpu_load"
  = Some (ServiceCPULoadRaw (LoadStatisticsOf s))
  /\ storedValue (snapshotRows s label ts) "service_memory_load"
     = Some (ServiceMemLoadRaw (LoadStatisticsOf s))
  /\ storedValue (snapshotRows s label ts) "overall_load_of_service"
     = Some (OverallLoadOfServiceRaw (LoadStatisticsOf s))
  /\ storedValue (snapshotRows s label ts) "memory_used_by_service"
     = Some (MemoryUsedByServiceRaw (MemoryStatisticsOf s))
  /\ storedValue (snapshotRows s label ts) "stack_memory_usage"
     = Some (StackMemoryUsageRaw (MemoryStatisticsOf s))
  /\ storedValue (snapshotRows s label ts) "gc_pause_duration"
     = Some (GCPauseDurationRaw (MemoryStatisticsOf s)).
Proof. repeat split. Qed.

(** Whatever the probes report, the overall load that the aggregator puts
    into a snapshot, and that is stored with it, is the mean of the service's
    CPU and memory loads stored beside it, replaced by 100 when the mean is
    above 100; it is never above 100. *)
Theorem stored_overall_load_is_the_capped_mean `{CM : Common} `{PR : Probes}
    (m1 m2 : MemStats) (label : Label) (ts : Z) :
  let rows := snapshotRows (GetServiceStats m1 m2) label ts in
  exists cpu mem overall,
    storedValue rows "service_cpu_load" = Some cpu
    /\ storedValue rows "service_memory_load" = Some mem
    /\ storedValue rows "overall_load_of_service" = Some overall
    /\ overall = (if f64_gt (weightedLoad cpu mem) f64_100 then f64_100
                  else weightedLoad cpu mem)
    /\ f64_gt overall f64_100 = false.
Proof.
  intros rows.
  destruct (snapshotRows_load (GetServiceStats m1 m2) label ts)
    as (Hcpu & Hmem & Hover & _).
  destruct (GetServiceStats_fields m1 m2) as (Hload & _).
  rewrite Hload in Hcpu, Hmem, Hover.
  rewrite GetLoadStatistics_overall, CalculateOverallLoad_cap in Hover.
  eexists _, _, _. split; [exact Hcpu|]. split; [exact Hmem|].
  split; [exact Hover|]. split; [reflexivity|].
  destruct (f64_gt (weightedLoad _ _) f64_100) eqn:Hgt;
    [reflexivity | exact Hgt].
Qed.

Lemma newRawRecord_bytes (name : string) (v : float64) :
  nonByteMetrics !! name = None ->
  RecordValue (newRawRecord name v) = f64_div v f64_1024.
Proof. intros H. unfold newRawRecord. rewrite H. reflexivity. Qed.

Lemma newRawRecord_count (name : string) (v : float64) :
  nonByteMetrics !! name = Some true ->
  RecordValue (newRawRecord name v) = v.
Proof. intros H. unfold newRawRecord. rewrite H. reflexivity. Qed.

(** Three raw memory records of a snapshot, as its rows hold them. *)
Lemma snapshotRows_raw (s : ServiceStats) (ms : MemStats) (label : Label)
    (ts : Z) :
  RawMemStatsRecordsOf (MemoryStatisticsOf s) = ConstructRawMemStats ms ->
  storedValue (snapshotRows s label ts) "alloc"
  = Some (f64_div (f64_of_Z (Alloc ms)) f64_1024)
  /\ storedValue (snapshotRows s label ts) "stack_inuse"
     = Some (f64_div (f64_of_Z (StackInuse ms)) f64_1024)
  /\ storedValue (snapshotRows s label ts) "pause_total_ns"
     = Some (f64_of_Z (PauseTotalNs ms)).
Proof.
  intros Hraw.
  rewrite <- (newRawRecord_bytes "alloc" (f64_of_Z (Alloc ms)))
    by (vm_compute; reflexivity).
  rewrite <- (newRawRecord_bytes "stack_inuse" (f64_of_Z (StackInuse ms)))
    by (vm_compute; reflexivity).
  rewrite <- (newRawRecord_count "pause_total_ns" (f64_of_Z (PauseTotalNs ms)))
    by (vm_compute; reflexivity).
  unfold storedValue, findRow, snapshotRows, generateMemoryStatsRows.
  rewrite Hraw. repeat split.
Qed.

(** The memory figures of a snapshot agree with its raw memory records.
    When the host's memory can be read, the snapshot the aggregator builds
    carries the raw records of [ConstructRawMemStats] for the same reading of
    the runtime's memory statistics as its memory figures, so that, as
    stored, [alloc] is [memory_used_by_service] divided by 1024,
    [stack_inuse] is [stack_memory_usage] divided by 1024, and
    [gc_pause_duration] is [pause_total_ns] divided by a million.  When the
    host's memory cannot be read, the snapshot has no raw memory record at
    all: it is stored as 25 rows, with zero for the six memory figures. *)
Theorem stored_memory_figures_agree `{CM : Common} `{PR : Probes}
    (m1 m2 : MemStats) (label : Label) (ts : Z) :
  let s := GetServiceStats m1 m2 in
  let rows := snapshotRows s label ts in
  match VirtualMemory with
  | Some _ =>
      RawMemStatsRecordsOf (MemoryStatisticsOf s) = ConstructRawMemStats m1
      /\ map Metric rows = snapshotMetricNames
      /\ exists used stack pause,
           storedValue rows "memory_used_by_service" = Some used
           /\ storedValue rows "alloc" = Some (f64_div used f64_1024)
           /\ storedValue rows "stack_memory_usage" = Some stack
           /\ storedValue rows "stack_inuse" = Some (f64_div stack f64_1024)
           /\ storedValue rows "pause_total_ns" = Some pause
           /\ storedValue rows "gc_pause_duration"
              = Some (f64_div pause f64_millisecond)
  | None =>
      map Metric rows = plainMetricNames
      /\ storedValue rows "memory_used_by_service" = Some f64_0
      /\ storedValue rows "alloc" = None
  end.
Proof.
  intros s rows.
  destruct (GetServiceStats_fields m1 m2) as (_ & Hmem & _).
  fold s in Hmem.
  destruct (snapshotRows_load s label ts) as (_ & _ & _ & Hused & Hstack & Hgc).
  fold rows in Hused, Hstack, Hgc. rewrite Hmem in Hused, Hstack, Hgc.
  unfold GetMemoryStatistics in Hmem, Hused, Hstack, Hgc.
  destruct VirtualMemory as [memInfo|].
  - assert (Hraw : RawMemStatsRecordsOf (MemoryStatisticsOf s)
                   = ConstructRawMemStats m1) by (rewrite Hmem; reflexivity).
    split; [exact Hraw|].
    split; [exact (snapshotRows_metrics s m1 label ts Hraw)|].
    destruct (snapshotRows_raw s m1 label ts Hraw) as (Ha & Hs & Hp).
    fold rows in Ha, Hs, Hp.
    eexists _, _, _. split; [exact Hused|]. split; [exact Ha|].
    split; [exact Hstack|]. split; [exact Hs|]. split; [exact Hp|].
    exact Hgc.
  - split; [|split; [exact Hused|]].
    + unfold rows, snapshotRows, generateMemoryStatsRows. rewrite Hmem.
      reflexivity.
    + unfold rows, storedValue, findRow, snapshotRows, generateMemoryStatsRows.
      rewrite Hmem. reflexivity.
Qed.

Lemma foldl_pair_totals (netIO : list IOCountersStat) (r0 s0 : float64) :
  foldl (fun totals iface =>
           (f64_add (fst totals) (f64_of_Z (ifBytesRecv iface)),
            f64_add (snd totals) (f64_of_Z (ifBytesSent iface))))
        (r0, s0) netIO
  = (foldl (fun t iface => f64_add t (f64_of_Z (ifBytesRecv iface))) r0 netIO,
     foldl (fun t iface => f64_add t (f64_of_Z (ifBytesSent iface))) s0 netIO).
Proof.
  revert r0 s0. induction netIO as [|i netIO IH]; intros r0 s0; simpl;
    [reflexivity | apply IH].
Qed.

Lemma foldl_add_nonneg (f : IOCountersStat -> Z) (netIO : list IOCountersStat)
    (t0 : float64) :
  f64_nonneg t0 -> Forall (fun i => 0 <= f i) netIO ->
  f64_nonneg (foldl (fun t iface => f64_add t (f64_of_Z (f iface))) t0 netIO).
Proof.
  intros Ht Hall. revert t0 Ht.
  induction Hall as [|i netIO Hi _ IH]; intros t0 Ht; simpl; [exact Ht|].
  apply IH, f64_add_nonneg; [exact Ht | apply f64_of_Z_nonneg, Hi].
Qed.

Lemma snapshotRows_network `{CM : Common} `{PR : Probes} (m1 m2 : MemStats)
    (label : Label) (ts : Z) :
  let s := GetServiceStats m1 m2 in
  storedValue (snapshotRows s label ts) "bytes_sent"
  = Some (BytesSent (NetworkIOOf s))
  /\ storedValue (snapshotRows s label ts) "bytes_received"
     = Some (BytesReceived (NetworkIOOf s)).
Proof.
  intros s. destruct (GetServiceStats_fields m1 m2) as (_ & Hmem & _).
  fold s in Hmem.
  unfold storedValue, findRow, snapshotRows, generateMemoryStatsRows.
  rewrite Hmem. unfold GetMemoryStatistics.
  destruct VirtualMemory; split; reflexivity.
Qed.

(** The network totals of a snapshot are the sums over all interfaces, sent
    under [bytes_sent] and received under [bytes_received], starting from
    zero; they are zero when the interfaces cannot be read, and with
    counters that are not negative they are neither negative nor NaN. *)
Theorem network_totals_sum_all_interfaces `{CM : Common} `{PR : Probes}
    (m1 m2 : MemStats) (label : Label) (ts : Z) :
  let rows := snapshotRows (GetServiceStats m1 m2) label ts in
  exists sent received,
    storedValue rows "bytes_sent" = Some sent
    /\ storedValue rows "bytes_received" = Some received
    /\ match IOCounters with
       | None => sent = f64_0 /\ received = f64_0
       | Some netIO =>
           sent = foldl (fun t iface => f64_add t (f64_of_Z (ifBytesSent iface)))
                    f64_0 netIO
           /\ received
              = foldl (fun t iface => f64_add t (f64_of_Z (ifBytesRecv iface)))
                  f64_0 netIO
           /\ (Forall (fun i => 0 <= ifBytesSent i /\ 0 <= ifBytesRecv i) netIO ->
               f64_nonneg sent /\ f64_nonneg received)
       end.
Proof.
  intros rows.
  destruct (snapshotRows_network m1 m2 label ts) as [Hs Hr].
  destruct (GetServiceStats_fields m1 m2) as (_ & _ & _ & Hrecv & Hsent & _).
  rewrite Hsent in Hs. rewrite Hrecv in Hr.
  exists (snd GetNetworkIO), (fst GetNetworkIO).
  split; [exact Hs|]. split; [exact Hr|].
  unfold GetNetworkIO. destruct IOCounters as [netIO|]; [|split; reflexivity].
  rewrite foldl_pair_totals. simpl. split; [reflexivity|]. split; [reflexivity|].
  intros Hall. split; apply foldl_add_nonneg; try exact I.
  - eapply Forall_impl; [exact Hall|]. intros i [H _]. exact H.
  - eapply Forall_impl; [exact Hall|]. intros i [_ H]. exact H.
Qed.

(** ** The builder and the dashboard port *)

Section BuilderFacts.
Context {Middleware AuthFunc : Type}.

Lemma callSetters_lookup (b : loc)
    (calls : list (Setter Middleware AuthFunc))
    (cs : gmap loc (Monigo Middleware AuthFunc)) (m : Monigo Middleware AuthFunc) :
  cs !! b = Some m ->
  callSetters b calls cs !! b = Some (foldl (fun m c => assign c m) m calls).
Proof.
  revert cs m. induction calls as [|c calls IH]; intros cs m Hm; simpl;
    [exact Hm|].
  apply IH. unfold callSetter. rewrite lookup_alter_eq, Hm. reflexivity.
Qed.

Lemma callSetters_other (b l : loc)
    (calls : list (Setter Middleware AuthFunc))
    (cs : gmap loc (Monigo Middleware AuthFunc)) :
  l <> b -> callSetters b calls cs !! l = cs !! l.
Proof.
  intros Hne. revert cs. induction calls as [|c calls IH]; intros cs; simpl;
    [reflexivity|].
  rewrite IH. unfold callSetter. apply lookup_alter_ne. congruence.
Qed.

End BuilderFacts.

(** [Build] checks the configuration and hands out the builder's own copy
    of it.  After any calls of the builder's methods on a new builder, [Build]
    panics with the message of the first failed check, or returns the pointer
    the builder itself holds; methods called on the builder afterwards
    therefore change the configuration that was returned, unchecked.  No
    other configuration of the program is touched. *)
Theorem build_hands_out_the_builders_config {Middleware AuthFunc : Type}
    (cs : gmap loc (Monigo Middleware AuthFunc))
    (before after : list (Setter Middleware AuthFunc)) :
  let b := fst (NewBuilder cs) in
  let cs1 := callSetters b before (snd (NewBuilder cs)) in
  let built := foldl (fun m c => assign c m) zeroMonigo before in
  cs !! b = None
  /\ Build b cs1 = match buildError built with
                   | Some message => BuildPanics message
                   | None => BuildReturns b
                   end
  /\ cs1 !! b = Some built
  /\ callSetters b after cs1 !! b
     = Some (foldl (fun m c => assign c m) built after)
  /\ (forall l, l <> b -> callSetters b after cs1 !! l = cs !! l).
Proof.
  intros b cs1 built.
  assert (Hfresh : cs !! b = None).
  { apply not_elem_of_dom. apply is_fresh. }
  assert (H0 : snd (NewBuilder cs) !! b = Some zeroMonigo)
    by apply lookup_insert_eq.
  assert (H1 : cs1 !! b = Some built)
    by (apply callSetters_lookup; exact H0).
  split; [exact Hfresh|]. split; [|split; [exact H1|split]].
  - unfold Build. rewrite H1. destruct (buildError built); reflexivity.
  - apply callSetters_lookup. exact H1.
  - intros l Hne. unfold cs1. rewrite !callSetters_other by exact Hne.
    apply lookup_insert_ne. intros Heq. apply Hne. symmetry. exact Heq.
Qed.

(** The dashboard port is left usable or the start is abandoned.  When
    [setDashboardPort] returns, the port it leaves is between 1 and 65535 and
    could be bound; it is the port asked for, with nothing logged, when that
    one is in range and free, and the default 8080 with one line of log
    otherwise.  It panics exactly when the default port cannot be bound and
    the port asked for is out of range or taken. *)
Theorem setDashboardPort_leaves_a_usable_port `{NW : Network}
    (dashboardPort : Z) :
  let asked := (1 <=? dashboardPort) && (dashboardPort <=? 65535)
               && canListen dashboardPort in
  match setDashboardPort dashboardPort with
  | (Some port, logs) =>
      1 <= port <= 65535 /\ canListen port = true
      /\ (if asked then port = dashboardPort /\ logs = []
          else port = 8080 /\ length logs = 1%nat)
  | (None, logs) => asked = false /\ canListen 8080 = false
  end.
Proof.
  unfold setDashboardPort. cbv zeta.
  destruct (Z.ltb_spec dashboardPort 1) as [Hlo | Hlo];
    destruct (Z.ltb_spec 65535 dashboardPort) as [Hhi | Hhi]; simpl orb;
    cbv iota beta;
    try (replace (1 <=? dashboardPort) with false by (symmetry; apply Z.leb_gt; lia));
    try (replace (dashboardPort <=? 65535) with false
           by (symmetry; apply Z.leb_gt; lia));
    try (replace (1 <=? dashboardPort) with true by (symmetry; apply Z.leb_le; lia));
    try (replace (dashboardPort <=? 65535) with true
           by (symmetry; apply Z.leb_le; lia));
    simpl andb;
    try (destruct (canListen 8080) eqn:Hd; simpl;
         [repeat split; try lia; try exact Hd; reflexivity
         | split; reflexivity]).
  destruct (canListen dashboardPort) eqn:Hp; simpl.
  - repeat split; try lia; exact Hp.
  - destruct (canListen 8080) eqn:Hd; simpl.
    + repeat split; try lia; exact Hd.
    + split; reflexivity.
Qed.

(** ** formatUptime *)

Lemma digits2_pos_bounds (p : positive) :
  2 ^ (Z.pos (digits2_pos p) - 1) <= Z.pos p < 2 ^ Z.pos (digits2_pos p).
Proof.
  assert (Hstep : forall d x, 1 <= d -> 2 ^ (d - 1) <= x < 2 ^ d ->
            forall y, 2 * x <= y <= 2 * x + 1 ->
            2 ^ (Z.succ d - 1) <= y < 2 ^ Z.succ d).
  { intros d x Hd Hx y Hy.
    replace (Z.succ d - 1) with (Z.succ (d - 1)) by lia.
    rewrite !Z.pow_succ_r by lia.
    generalize dependent (2 ^ (d - 1)). generalize dependent (2 ^ d).
    intros a b Hb. lia. }
  induction p as [p IH | p IH |]; simpl digits2_pos.
  - rewrite Pos2Z.inj_succ. apply (Hstep _ (Z.pos p)); [lia | exact IH | lia].
  - rewrite Pos2Z.inj_succ. apply (Hstep _ (Z.pos p)); [lia | exact IH | lia].
  - simpl. lia.
Qed.

Lemma iter_xO_value (k p : positive) :
  Z.pos (Pos.iter xO p k) = Z.pos p * 2 ^ Z.pos k.
Proof.
  induction k as [|k IH] using Pos.peano_ind.
  - simpl. lia.
  - rewrite Pos.iter_succ, Pos2Z.inj_xO, IH, Pos2Z.inj_succ, Z.pow_succ_r by lia.
    lia.
Qed.

Lemma iter_xO_digits (k p : positive) :
  digits2_pos (Pos.iter xO p k) = (digits2_pos p + k)%positive.
Proof.
  induction k as [|k IH] using Pos.peano_ind.
  - simpl. lia.
  - rewrite Pos.iter_succ. simpl digits2_pos. rewrite IH. lia.
Qed.

(** The mantissa and exponent of the float of a positive integer of at most
    53 bits. *)
Lemma alignedPair_spec (p : positive) :
  (digits2_pos p <= 53)%positive ->
  digits2_pos (fst (alignedPair p)) = 53%positive
  /\ snd (alignedPair p) = Z.pos (digits2_pos p) - 53
  /\ Z.pos (fst (alignedPair p))
     = Z.pos p * 2 ^ (53 - Z.pos (digits2_pos p)).
Proof.
  intros Hd. unfold alignedPair, shl_align.
  rewrite Z.sub_0_r.
  destruct (Z.pos (digits2_pos p) - 53) as [|k|k] eqn:Hk; try lia; simpl.
  - assert (digits2_pos p = 53%positive) by lia.
    replace (53 - Z.pos (digits2_pos p)) with 0 by lia. simpl.
    split; [assumption|]. split; lia.
  - rewrite iter_xO_digits, iter_xO_value.
    replace (53 - Z.pos (digits2_pos p)) with (Z.pos k) by lia.
    split; [lia|]. split; [lia | reflexivity].
Qed.

Lemma f64_of_Z_exact (p : positive) :
  (digits2_pos p <= 53)%positive ->
  f64_of_Z (Z.pos p)
  = S754_finite false (fst (alignedPair p)) (snd (alignedPair p)).
Proof.
  intros Hd. destruct (alignedPair_spec p Hd) as (Hdig & He & _).
  unfold f64_of_Z, binary_normalize, binary_round.
  change (Z.pos (digits2_pos p) + 0) with (Z.pos (digits2_pos p) + 0).
  rewrite Z.add_0_r.
  assert (Hfexp : fexp 53 1024 (Z.pos (digits2_pos p))
                  = Z.pos (digits2_pos p) - 53).
  { unfold fexp, emin. lia. }
  rewrite Hfexp. fold (alignedPair p).
  destruct (alignedPair p) as [mz ez]. simpl in Hdig, He. subst ez.
  unfold binary_round_aux.
  assert (Hshr : shr_fexp 53 1024 (Z.pos mz) (Z.pos (digits2_pos p) - 53)
                   loc_Exact
                 = ({| shr_m := Z.pos mz; shr_r := false; shr_s := false |},
                    Z.pos (digits2_pos p) - 53)).
  { unfold shr_fexp, Zdigits2. rewrite Hdig.
    replace (fexp 53 1024 (53 + (Z.pos (digits2_pos p) - 53))
             - (Z.pos (digits2_pos p) - 53)) with 0
      by (unfold fexp, emin; lia).
    reflexivity. }
  rewrite Hshr. cbn [shr_m loc_of_shr_record round_nearest_even].
  rewrite Hshr. cbn [shr_m].
  replace (Z.pos (digits2_pos p) - 53 <=? 1024 - 53) with true
    by (symmetry; apply Z.leb_le; lia).
  reflexivity.
Qed.

Lemma small_digits (p : positive) :
  Z.pos p < 2 ^ 53 -> (digits2_pos p <= 53)%positive.
Proof.
  intros Hp. destruct (digits2_pos_bounds p) as [Hlo _].
  destruct (Pos.leb_spec (digits2_pos p) 53) as [H | H]; [exact H|].
  exfalso.
  assert (2 ^ 53 <= 2 ^ (Z.pos (digits2_pos p) - 1))
    by (apply Z.pow_le_mono_r; lia).
  lia.
Qed.

Lemma f64_of_pos_compare (p q : positive) :
  Z.pos p < 2 ^ 53 -> Z.pos q < 2 ^ 53 ->
  SFcompare (f64_of_Z (Z.pos p)) (f64_of_Z (Z.pos q)) = Some (Pos.compare p q).
Proof.
  intros Hp Hq.
  pose proof (small_digits p Hp) as Hdp. pose proof (small_digits q Hq) as Hdq.
  rewrite (f64_of_Z_exact p Hdp), (f64_of_Z_exact q Hdq).
  destruct (alignedPair_spec p Hdp) as (_ & Hep & Hmp).
  destruct (alignedPair_spec q Hdq) as (_ & Heq & Hmq).
  destruct (digits2_pos_bounds p) as [Hplo Hphi].
  destruct (digits2_pos_bounds q) as [Hqlo Hqhi].
  destruct (alignedPair p) as [mp ep], (alignedPair q) as [mq eq_].
  simpl in *. subst ep eq_. f_equal.
  destruct (Z.compare_spec (Z.pos (digits2_pos p) - 53)
              (Z.pos (digits2_pos q) - 53)) as [He | He | He].
  - change (Pos.compare_cont Eq mp mq) with (Pos.compare mp mq).
    rewrite !Pos2Z.inj_compare, Hmp, Hmq.
    replace (Z.pos (digits2_pos q)) with (Z.pos (digits2_pos p)) by lia.
    symmetry. apply Zmult_compare_compat_r.
    apply Z.lt_gt, Z.pow_pos_nonneg; lia.
  - symmetry. apply Pos.compare_lt_iff.
    assert (2 ^ Z.pos (digits2_pos p) <= 2 ^ (Z.pos (digits2_pos q) - 1))
      by (apply Z.pow_le_mono_r; lia).
    lia.
  - symmetry. apply Pos.compare_gt_iff.
    assert (2 ^ Z.pos (digits2_pos q) <= 2 ^ (Z.pos (digits2_pos p) - 1))
      by (apply Z.pow_le_mono_r; lia).
    lia.
Qed.

(** Integers that a [float64] holds exactly compare as floats the way they
    compare as integers. *)
Lemma f64_of_Z_gt (a b : Z) :
  0 <= a < 2 ^ 53 -> 0 <= b < 2 ^ 53 ->
  f64_gt (f64_of_Z a) (f64_of_Z b) = (b <? a).
Proof.
  intros Ha Hb. unfold f64_gt, SFltb.
  destruct a as [|p|p], b as [|q|q]; try lia.
  - reflexivity.
  - rewrite (f64_of_Z_exact q) by (apply small_digits; lia). reflexivity.
  - rewrite (f64_of_Z_exact p) by (apply small_digits; lia). reflexivity.
  - rewrite f64_of_pos_compare by lia.
    unfold Z.ltb. simpl Z.compare. destruct (Pos.compare q p); reflexivity.
Qed.

Lemma f64_add_zero (a : Z) :
  0 <= a < 2 ^ 53 -> f64_add (f64_of_Z a) (S754_zero false) = f64_of_Z a.
Proof.
  intros Ha. destruct a as [|p|p]; try lia; [reflexivity|].
  rewrite (f64_of_Z_exact p) by (apply small_digits; lia). reflexivity.
Qed.

Lemma whole_units (unit_ divisor h : Z) :
  0 < unit_ -> 0 <= h < 2 ^ 53 ->
  f64_div (f64_of_Z 0) (f64_of_Z divisor) = S754_zero false ->
  f64_add (f64_of_Z (Z.quot (h * unit_) unit_))
    (f64_div (f64_of_Z (Z.rem (h * unit_) unit_)) (f64_of_Z divisor))
  = f64_of_Z h.
Proof.
  intros Hu Hh Hzero.
  rewrite Z.quot_mul, Z.rem_mul by lia. rewrite Hzero.
  apply f64_add_zero, Hh.
Qed.

Lemma Hours_whole (h : Z) :
  0 <= h < 2 ^ 53 -> Hours (h * nsPerHour) = f64_of_Z h.
Proof.
  intros Hh. unfold Hours. apply whole_units;
    [vm_compute; reflexivity | exact Hh | vm_compute; reflexivity].
Qed.

Lemma Seconds_whole (s : Z) :
  0 <= s < 2 ^ 53 -> Seconds (s * nsPerSecond) = f64_of_Z s.
Proof.
  intros Hs. unfold Seconds. apply whole_units;
    [vm_compute; reflexivity | exact Hs | vm_compute; reflexivity].
Qed.

Lemma allSubHourChecked_spec (n : nat) (s0 s : Z) :
  allSubHourChecked n s0 = true ->
  s0 <= s < s0 + Z.of_nat n -> subHourChecked s = true.
Proof.
  revert s0. induction n as [|n IH]; intros s0 Hall Hs; [lia|].
  simpl in Hall. apply andb_true_iff in Hall as [H0 Hrest].
  destruct (Z.eq_dec s s0) as [-> | Hne]; [exact H0|].
  apply (IH (s0 + 1)); [exact Hrest | lia].
Qed.

Lemma subHour_all_checked : allSubHourChecked 3600 0 = true.
Proof. vm_compute. reflexivity. Qed.

(** The unit of an uptime.  For a whole number of hours the choice is made
    on the hours themselves, each bound being strict: more than 8640 hours
    are shown in years, more than 720 in months, more than 24 in days, more
    than one in hours, so that exactly a year is shown as twelve months,
    exactly thirty days as thirty days, exactly a day as 24 hours and exactly
    an hour as sixty minutes.  For a whole number of seconds below an hour the
    uptime is shown in minutes when it is more than sixty seconds and in
    seconds otherwise, so that exactly a minute is shown as sixty seconds. *)
Theorem formatUptime_units `{FT : Formatter} :
  (forall h, 0 <= h <= 2562047 ->
     formatUptime (h * nsPerHour)
     = if 8640 <? h then
         Sprintf_2f (f64_div (f64_of_Z h) f64_8640) +:+ " y"
       else if 720 <? h then
         Sprintf_2f (f64_div (f64_of_Z h) f64_720) +:+ " mo"
       else if 24 <? h then
         Sprintf_2f (f64_div (f64_of_Z h) f64_24) +:+ " d"
       else if 1 <? h then Sprintf_2f (f64_of_Z h) +:+ " h"
       else if h =? 1 then Sprintf_2f (f64_of_Z 60) +:+ " m"
       else Sprintf_2f (f64_of_Z 0) +:+ " s")
  /\ (forall s, 0 <= s < 3600 ->
        formatUptime (s * nsPerSecond)
        = if 60 <? s then Sprintf_2f (Minutes (s * nsPerSecond)) +:+ " m"
          else Sprintf_2f (f64_of_Z s) +:+ " s").
Proof.
  split.
  - intros h Hh.
    assert (Hsmall : 0 <= h < 2 ^ 53) by lia.
    unfold formatUptime. cbv zeta. rewrite (Hours_whole h Hsmall).
    change f64_8640 with (f64_of_Z 8640) at 1.
    change f64_720 with (f64_of_Z 720) at 1.
    change f64_24 with (f64_of_Z 24) at 1.
    change f64_1 with (f64_of_Z 1) at 1.
    rewrite !f64_of_Z_gt by lia.
    destruct (8640 <? h); [reflexivity|].
    destruct (720 <? h); [reflexivity|].
    destruct (24 <? h); [reflexivity|].
    destruct (Z.ltb_spec 1 h) as [|H1]; [reflexivity|].
    destruct (Z.eqb_spec h 1) as [-> | Hne].
    + vm_compute (Minutes _). vm_compute (f64_gt _ _). vm_compute (f64_of_Z 60).
      reflexivity.
    + assert (h = 0) as -> by lia.
      vm_compute (Minutes _). vm_compute (f64_gt _ _). vm_compute (Seconds _).
      reflexivity.
  - intros s Hs.
    pose proof (allSubHourChecked_spec 3600 0 s subHour_all_checked
                  ltac:(simpl; lia)) as Hchk.
    unfold subHourChecked in Hchk. cbv zeta in Hchk.
    repeat (apply andb_true_iff in Hchk as [Hchk ?]).
    repeat match goal with
           | H : negb _ = true |- _ => apply negb_true_iff in H
           | H : Bool.eqb _ _ = true |- _ => apply Bool.eqb_prop in H
           end.
    unfold formatUptime. cbv zeta.
    repeat match goal with H : f64_gt _ _ = _ |- _ => rewrite H; clear H end.
    rewrite Seconds_whole by lia. reflexivity.
Qed.
